(** * The instance dispatch runtime of html5/runtime/init.js

    A shallow embedding of [src/html5/runtime/init.js] and the properties
    of its entry points: bundle header detection ([checkVersion]), instance
    creation ([createInstance]), the fan-out methods ([genInit]), the
    instance-routed methods ([genInstance]) and the legacy alias
    ([adaptInstance]).

    Modelling conventions.
    - A JavaScript string is the list of its UTF-16 code units ([text]).
    - Objects and arrays live in a heap of cells and are handled through
      references, so that two names of one object are one location.
    - The module is strict code (it is an ES module): reading a property of
      [undefined], calling a missing method and writing a property of a
      primitive throw a [TypeError].
    - Code outside the module (backends, service hooks, [registerElement])
      is a function of its arguments, the heap and a private world; it may
      allocate objects and may throw, but it neither writes to the objects
      it is handed nor calls back into the module.  Every such call is
      recorded in a trace together with its arguments.
    - [instanceMap] is the literal [{}] and [frameworks] an object that
      inherits from [Object.prototype] as it does: a name that they do not
      have themselves is looked up in [Object.prototype], whose members are
      truthy and have none of the properties that the module reads and
      none of the methods that it calls.
    - An object that the heap cannot hold (a built-in of the engine, a
      function or an object of the embedder that holds functions, such
      as a backend) is a value by name: it has none of the properties
      that the module reads, and the methods of a backend are functions
      of the code outside the module.
    - Numbers are the numbers of the host (IEEE doubles); their operations
      are the interface [Host]. *)

From Stdlib Require Import NArith Ascii String List Bool Lia.
From stdpp Require Import base option list gmap.

Set Default Proof Using "Type".
Set Warnings "-register-all".
Open Scope N_scope.
Open Scope list_scope.

(** ** Text *)

Abbreviation text := (list N).

Definition str (s : string) : text :=
  List.map N_of_ascii (list_ascii_of_string s).

(** A text literal in which the apostrophe stands for the double quote. *)
Definition dq (s : string) : text :=
  List.map (fun c => if c =? 39 then 34 else c) (str s).

(** Code units the source names literally. *)
Definition c_tab : N := 9.
Definition c_lf : N := 10.
Definition c_cr : N := 13.
Definition c_space : N := 32.
Definition c_quote : N := 34.
Definition c_comma : N := 44.
Definition c_slash : N := 47.
Definition c_colon : N := 58.
Definition c_lbracket : N := 91.
Definition c_backslash : N := 92.
Definition c_rbracket : N := 93.
Definition c_lbrace : N := 123.
Definition c_rbrace : N := 125.

(** ** The members of [Object.prototype] *)

(** The names that every ordinary object inherits (ECMAScript, with its
    annex for web browsers). *)
Definition Object_prototype : list text :=
  [str "constructor"; str "__defineGetter__"; str "__defineSetter__";
   str "hasOwnProperty"; str "__lookupGetter__"; str "__lookupSetter__";
   str "isPrototypeOf"; str "propertyIsEnumerable"; str "toString";
   str "valueOf"; str "__proto__"; str "toLocaleString"].

(** [k in Object.prototype] *)
Definition inherited (k : text) : bool := bool_decide (k ∈ Object_prototype).

(** ** versionRegExp = /^\s*\/\/ *(\{[^}]*\}) *\r?\n/ *)

(** The class [\s] on code units (the regular expression has no [u] flag):
    TAB, LF, VT, FF, CR, SP, NBSP, U+1680, U+2000..U+200A, U+2028, U+2029,
    U+202F, U+205F, U+3000 and U+FEFF. *)
Definition is_space (c : N) : bool :=
  ((9 <=? c) && (c <=? 13)) || (c =? 32) || (c =? 160) || (c =? 5760)
  || ((8192 <=? c) && (c <=? 8202)) || (c =? 8232) || (c =? 8233)
  || (c =? 8239) || (c =? 8287) || (c =? 12288) || (c =? 65279).

Definition is_blank (c : N) : bool := c =? c_space.

(** A greedy [x*]: the longest prefix in the class, and what follows it. *)
Fixpoint skip (p : N -> bool) (s : text) : text :=
  match s with
  | c :: s' => if p c then skip p s' else s
  | [] => []
  end.

(** [[^}]*\}]: the code units up to the first closing brace, and what
    follows that brace; no match when there is no closing brace. *)
Fixpoint until_rbrace (s : text) : option (text * text) :=
  match s with
  | [] => None
  | c :: s' =>
      if c =? c_rbrace then Some ([], s')
      else match until_rbrace s' with
           | Some (body, rest) => Some (c :: body, rest)
           | None => None
           end
  end.

(** [\r?\n] at the head of [s]. *)
Definition line_end (s : text) : bool :=
  match s with
  | c :: s' =>
      if c =? c_lf then true
      else if c =? c_cr then
        match s' with
        | c' :: _ => c' =? c_lf
        | [] => false
        end
      else false
  | [] => false
  end.

(** [versionRegExp.exec(code)]: [None] for [null], otherwise the capture
    group [result[1]].  Each greedy star is followed by a code unit outside
    its class, so the backtracking matcher has at most one way to match and
    the leftmost-longest reading below is the match it finds. *)
Definition versionRegExp_exec (code : text) : option text :=
  match skip is_space code with
  | c1 :: c2 :: s1 =>
      if (c1 =? c_slash) && (c2 =? c_slash) then
        match skip is_blank s1 with
        | c3 :: s2 =>
            if c3 =? c_lbrace then
              match until_rbrace s2 with
              | Some (body, s3) =>
                  if line_end (skip is_blank s3)
                  then Some (c_lbrace :: body ++ [c_rbrace])
                  else None
              | None => None
              end
            else None
        | [] => None
        end
      else None
  | _ => None
  end.

(** ** JSON texts *)

(** The syntax tree of a JSON text.  A number keeps its literal. *)
Inductive json : Type :=
| JNull
| JBool (b : bool)
| JNum (lit : text)
| JStr (s : text)
| JArr (elems : list json)
| JObj (members : list (text * json)).

(** The result of a parsing function: a value and the rest of the input,
    a syntax error, or an exhausted recursion budget. *)
Inductive presult (A : Type) : Type :=
| POk (a : A) (rest : text)
| PSyntax
| PFuel.
Arguments POk {A} a rest.
Arguments PSyntax {A}.
Arguments PFuel {A}.

Definition is_json_ws (c : N) : bool :=
  (c =? c_space) || (c =? c_tab) || (c =? c_lf) || (c =? c_cr).

Definition is_digit (c : N) : bool := (48 <=? c) && (c <=? 57).

Definition hex_digit (c : N) : option N :=
  if (48 <=? c) && (c <=? 57) then Some (c - 48)
  else if (65 <=? c) && (c <=? 70) then Some (c - 55)
  else if (97 <=? c) && (c <=? 102) then Some (c - 87)
  else None.

Definition hex4 (a b c d : N) : option N :=
  match hex_digit a, hex_digit b, hex_digit c, hex_digit d with
  | Some x, Some y, Some z, Some w => Some (((x * 16 + y) * 16 + z) * 16 + w)
  | _, _, _, _ => None
  end.

(** The characters of a string literal after its opening quote. *)
Fixpoint parse_chars (s : text) (acc : text) : presult text :=
  match s with
  | [] => PSyntax
  | c :: s' =>
      if c =? c_quote then POk (rev acc) s'
      else if c =? c_backslash then
        match s' with
        | e :: s'' =>
            if e =? 34 then parse_chars s'' (34 :: acc)
            else if e =? 92 then parse_chars s'' (92 :: acc)
            else if e =? 47 then parse_chars s'' (47 :: acc)
            else if e =? 98 then parse_chars s'' (8 :: acc)
            else if e =? 102 then parse_chars s'' (12 :: acc)
            else if e =? 110 then parse_chars s'' (10 :: acc)
            else if e =? 114 then parse_chars s'' (13 :: acc)
            else if e =? 116 then parse_chars s'' (9 :: acc)
            else if e =? 117 then
              match s'' with
              | h1 :: h2 :: h3 :: h4 :: s3 =>
                  match hex4 h1 h2 h3 h4 with
                  | Some u => parse_chars s3 (u :: acc)
                  | None => PSyntax
                  end
              | _ => PSyntax
              end
            else PSyntax
        | [] => PSyntax
        end
      else if c <? 32 then PSyntax
      else parse_chars s' (c :: acc)
  end.

(** The longest run of digits at the head of [s]. *)
Fixpoint digits (s : text) : text * text :=
  match s with
  | c :: s' =>
      if is_digit c then let '(ds, r) := digits s' in (c :: ds, r)
      else ([], s)
  | [] => ([], [])
  end.

(** A number literal: an optional minus sign, an integer part without a
    leading zero, an optional fraction and an optional exponent. *)
Definition parse_int (s : text) : presult text :=
  match s with
  | c :: s' =>
      if c =? 48 then POk [c] s'
      else if is_digit c then let '(ds, r) := digits s' in POk (c :: ds) r
      else PSyntax
  | [] => PSyntax
  end.

Definition parse_frac (s : text) : presult text :=
  match s with
  | c :: s' =>
      if c =? 46 then
        match digits s' with
        | ([], _) => PSyntax
        | (ds, r) => POk (c :: ds) r
        end
      else POk [] s
  | [] => POk [] s
  end.

Definition parse_exp (s : text) : presult text :=
  match s with
  | c :: s' =>
      if (c =? 101) || (c =? 69) then
        let '(sign, s1) :=
          match s' with
          | g :: s'' => if (g =? 43) || (g =? 45) then ([g], s'') else ([], s')
          | [] => ([], s')
          end in
        match digits s1 with
        | ([], _) => PSyntax
        | (ds, r) => POk (c :: sign ++ ds) r
        end
      else POk [] s
  | [] => POk [] s
  end.

Definition parse_number (s : text) : presult text :=
  let '(sign, s0) :=
    match s with
    | c :: s' => if c =? 45 then ([c], s') else ([], s)
    | [] => ([], s)
    end in
  match parse_int s0 with
  | POk i s1 =>
      match parse_frac s1 with
      | POk f s2 =>
          match parse_exp s2 with
          | POk e s3 => POk (sign ++ i ++ f ++ e) s3
          | PSyntax => PSyntax
          | PFuel => PFuel
          end
      | PSyntax => PSyntax
      | PFuel => PFuel
      end
  | PSyntax => PSyntax
  | PFuel => PFuel
  end.

(** [s] starts with the keyword [kw]: what follows it. *)
Fixpoint keyword (kw s : text) : option text :=
  match kw, s with
  | [], _ => Some s
  | k :: kw', c :: s' => if k =? c then keyword kw' s' else None
  | _ :: _, [] => None
  end.

(** The recursive descent over values, the elements of an array after its
    opening bracket and the members of an object after its opening brace.
    [fuel] bounds the depth of the calls. *)
Fixpoint parse_value (fuel : nat) (s : text) : presult json :=
  match fuel with
  | O => PFuel
  | S f =>
      match skip is_json_ws s with
      | [] => PSyntax
      | c :: s1 =>
          if c =? c_lbrace then
            match skip is_json_ws s1 with
            | c' :: s2 =>
                if c' =? c_rbrace then POk (JObj []) s2
                else match parse_members f (c' :: s2) with
                     | POk ms r => POk (JObj ms) r
                     | PSyntax => PSyntax
                     | PFuel => PFuel
                     end
            | [] => PSyntax
            end
          else if c =? c_lbracket then
            match skip is_json_ws s1 with
            | c' :: s2 =>
                if c' =? c_rbracket then POk (JArr []) s2
                else match parse_elems f (c' :: s2) with
                     | POk es r => POk (JArr es) r
                     | PSyntax => PSyntax
                     | PFuel => PFuel
                     end
            | [] => PSyntax
            end
          else if c =? c_quote then
            match parse_chars s1 [] with
            | POk x r => POk (JStr x) r
            | PSyntax => PSyntax
            | PFuel => PFuel
            end
          else if (c =? 45) || is_digit c then
            match parse_number (c :: s1) with
            | POk lit r => POk (JNum lit) r
            | PSyntax => PSyntax
            | PFuel => PFuel
            end
          else
            match keyword (str "true") (c :: s1) with
            | Some r => POk (JBool true) r
            | None =>
                match keyword (str "false") (c :: s1) with
                | Some r => POk (JBool false) r
                | None =>
                    match keyword (str "null") (c :: s1) with
                    | Some r => POk JNull r
                    | None => PSyntax
                    end
                end
            end
      end
  end
with parse_elems (fuel : nat) (s : text) : presult (list json) :=
  match fuel with
  | O => PFuel
  | S f =>
      match parse_value f s with
      | POk v r =>
          match skip is_json_ws r with
          | c :: r' =>
              if c =? c_comma then
                match parse_elems f r' with
                | POk vs r'' => POk (v :: vs) r''
                | PSyntax => PSyntax
                | PFuel => PFuel
                end
              else if c =? c_rbracket then POk [v] r'
              else PSyntax
          | [] => PSyntax
          end
      | PSyntax => PSyntax
      | PFuel => PFuel
      end
  end
with parse_members (fuel : nat) (s : text) : presult (list (text * json)) :=
  match fuel with
  | O => PFuel
  | S f =>
      match skip is_json_ws s with
      | c :: s1 =>
          if c =? c_quote then
            match parse_chars s1 [] with
            | POk k r =>
                match skip is_json_ws r with
                | c' :: r1 =>
                    if c' =? c_colon then
                      match parse_value f r1 with
                      | POk v r2 =>
                          match skip is_json_ws r2 with
                          | c'' :: r3 =>
                              if c'' =? c_comma then
                                match parse_members f r3 with
                                | POk ms r4 => POk ((k, v) :: ms) r4
                                | PSyntax => PSyntax
                                | PFuel => PFuel
                                end
                              else if c'' =? c_rbrace then POk [(k, v)] r3
                              else PSyntax
                          | [] => PSyntax
                          end
                      | PSyntax => PSyntax
                      | PFuel => PFuel
                      end
                    else PSyntax
                | [] => PSyntax
                end
            | PSyntax => PSyntax
            | PFuel => PFuel
            end
          else PSyntax
      | [] => PSyntax
      end
  end.

(** The whole text is one value between optional white space.  The budget
    [2 * length s + 2] is enough for every text ([parse_text_fuel]). *)
Definition parse_text (s : text) : presult json :=
  match parse_value (2 * length s + 2) s with
  | POk j r =>
      match skip is_json_ws r with
      | [] => POk j []
      | _ :: _ => PSyntax
      end
  | PSyntax => PSyntax
  | PFuel => PFuel
  end.

(** A result [r] of parsing [s] with the budget [f] is within bounds: what
    is left is shorter than [s], and the budget ran out only if it was
    below [2 * length s + margin]. *)
Definition parse_bounded {A : Type} (f : nat) (margin : nat) (s : text)
    (r : presult A) : Prop :=
  match r with
  | POk _ rest => (length rest < length s)%nat
  | PSyntax => True
  | PFuel => (f < 2 * length s + margin)%nat
  end.

(** *** The header, read off the regular expression *)

(** [body] is the capture of a match of [versionRegExp] at the start of
    [s]: white space, two slashes, blanks, an opening brace, code units
    other than a closing brace, a closing brace, blanks, an optional
    carriage return and a line feed. *)
Definition header_shape (s body : text) : Prop :=
  ∃ ws sp1 inner sp2 eol rest,
    s = ws ++ [c_slash; c_slash] ++ sp1 ++ [c_lbrace] ++ inner
          ++ [c_rbrace] ++ sp2 ++ eol ++ rest
    ∧ forallb is_space ws = true
    ∧ forallb is_blank sp1 = true
    ∧ forallb (fun c => negb (c =? c_rbrace)) inner = true
    ∧ forallb is_blank sp2 = true
    ∧ (eol = [c_lf] ∨ eol = [c_cr; c_lf])
    ∧ body = [c_lbrace] ++ inner ++ [c_rbrace].

(** *** The detector of the specification *)

(** The first line of a text: what precedes the first line feed, without
    a carriage return before that line feed. *)
Fixpoint first_line (s : text) : text :=
  match s with
  | [] => []
  | c :: s' =>
      if c =? c_lf then []
      else if (c =? c_cr) && (match s' with c' :: _ => c' =? c_lf | [] => false end)
      then []
      else c :: first_line s'
  end.

(** The detector as the specification words it: only the first line is
    inspected, and it has to be a comment that contains a single JSON
    object. *)
Definition spec_detect (code : text) : option json :=
  match skip is_blank (first_line code) with
  | c1 :: c2 :: s1 =>
      if (c1 =? c_slash) && (c2 =? c_slash) then
        match skip is_blank s1 with
        | c3 :: s2 =>
            if c3 =? c_lbrace then
              match until_rbrace s2 with
              | Some (body, s3) =>
                  match skip is_blank s3 with
                  | [] =>
                      match parse_text (c_lbrace :: body ++ [c_rbrace]) with
                      | POk j _ => Some j
                      | _ => None
                      end
                  | _ :: _ => None
                  end
              | None => None
              end
            else None
        | [] => None
        end
      else None
  | _ => None
  end.

(** The bundle text of the specification's example: the header line of a
    Rax bundle of version 1.0, then [rest]. *)
Definition rax_bundle (rest : text) : text :=
  dq "// {'framework':'Rax','version':'1.0'}" ++ c_lf :: rest.

(** ** The host *)

(** What the JavaScript engine and the embedding process supply: the
    numbers with the operations the module applies to them, the private
    state of the code outside the module, and the clock. *)
Class Host : Type := {
  number : Type;
  (** the Number value of a JSON number literal *)
  numberOfLiteral : text -> number;
  (** [String(n)] *)
  numberToString : number -> text;
  (** [Boolean(n)]: false for [0], [-0] and [NaN] *)
  numberToBoolean : number -> bool;
  (** the literal [JSON.stringify] prints; [None] when [n] is not finite *)
  numberToJSON : number -> option text;
  (** [String(o)] for the object outside the heap of that name *)
  nativeToString : text -> text;
  (** [JSON.stringify(o)] for the object outside the heap of that name, as
      a syntax tree: [None] when it throws, [Some None] when it returns
      [undefined], as it does for a function *)
  nativeToJSON : text -> option (option json);
  world : Type;
  (** [Date.now()] *)
  Date_now : world -> number
}.

(** A location of the heap. *)
Abbreviation loc := nat.

Section Runtime.
Context `{H : Host}.

(** ** Values and the heap *)

Inductive errkind : Type := Error | TypeError | SyntaxError.

Inductive value : Type :=
| VUndef
| VNull
| VBool (b : bool)
| VNum (n : number)
| VStr (s : text)
| VRef (l : loc)
| VError (k : errkind) (msg : text)
(** an object outside the heap, by name: a member of [Object.prototype],
    a function, an object of the embedder that holds functions *)
| VNative (name : text).

(** An object with its own enumerable properties in insertion order, or an
    array with its elements and its other own properties. *)
Inductive cell : Type :=
| CObj (props : list (text * value))
| CArr (elems : list value) (props : list (text * value)).

Definition cell_props (c : cell) : list (text * value) :=
  match c with
  | CObj ps => ps
  | CArr _ ps => ps
  end.

Definition cell_with_props (c : cell) (ps : list (text * value)) : cell :=
  match c with
  | CObj _ => CObj ps
  | CArr es _ => CArr es ps
  end.

Fixpoint assoc {A : Type} (k : text) (l : list (text * A)) : option A :=
  match l with
  | [] => None
  | (k', a) :: l' => if decide (k = k') then Some a else assoc k l'
  end.

(** [o[k] = a] on the own properties: an existing property keeps its
    place, a new one goes last. *)
Fixpoint assoc_set {A : Type} (k : text) (a : A) (l : list (text * A))
  : list (text * A) :=
  match l with
  | [] => [(k, a)]
  | (k', a') :: l' =>
      if decide (k = k') then (k, a) :: l' else (k', a') :: assoc_set k a l'
  end.

(** [Boolean(v)] *)
Definition toBoolean (v : value) : bool :=
  match v with
  | VUndef | VNull => false
  | VBool b => b
  | VNum n => numberToBoolean n
  | VStr s => match s with [] => false | _ :: _ => true end
  | VRef _ | VError _ _ | VNative _ => true
  end.

Fixpoint join (sep : N) (l : list text) : text :=
  match l with
  | [] => []
  | [x] => x
  | x :: l' => x ++ sep :: join sep l'
  end.

Definition errkind_name (k : errkind) : text :=
  match k with
  | Error => str "Error"
  | TypeError => str "TypeError"
  | SyntaxError => str "SyntaxError"
  end.

(** [String(v)].  An array is the join of its elements, where [null],
    [undefined] and an array that is already being joined give the empty
    string; [stack] holds the arrays being joined. *)
Fixpoint toStringF (fuel : nat) (stack : list loc) (h : list cell) (v : value)
  : text :=
  match v with
  | VUndef => str "undefined"
  | VNull => str "null"
  | VBool true => str "true"
  | VBool false => str "false"
  | VNum n => numberToString n
  | VStr s => s
  | VError k msg =>
      match msg with
      | [] => errkind_name k
      | _ :: _ => errkind_name k ++ str ": " ++ msg
      end
  | VNative name => nativeToString name
  | VRef l =>
      match h !! l with
      | Some (CArr es _) =>
          if existsb (Nat.eqb l) stack then []
          else match fuel with
               | O => []
               | S f =>
                   join c_comma
                     (List.map (fun e =>
                        match e with
                        | VUndef | VNull => []
                        | _ => toStringF f (l :: stack) h e
                        end) es)
               end
      | _ => str "[object Object]"
      end
  end.

Definition toString (h : list cell) (v : value) : text :=
  toStringF (S (length h)) [] h v.

(** [JSON.parse] builds the value of a syntax tree out of new cells.  A
    repeated member name keeps its first place and its last value. *)
Fixpoint alloc_json (j : json) (h : list cell) : value * list cell :=
  match j with
  | JNull => (VNull, h)
  | JBool b => (VBool b, h)
  | JNum lit => (VNum (numberOfLiteral lit), h)
  | JStr s => (VStr s, h)
  | JArr js =>
      let '(vs, h1) :=
        (fix elems (js : list json) (h : list cell) : list value * list cell :=
           match js with
           | [] => ([], h)
           | j :: js' =>
               let '(v, h1) := alloc_json j h in
               let '(vs, h2) := elems js' h1 in
               (v :: vs, h2)
           end) js h in
      (VRef (length h1), h1 ++ [CArr vs []])
  | JObj ms =>
      let '(ps, h1) :=
        (fix members (ms : list (text * json)) (h : list cell)
           : list (text * value) * list cell :=
           match ms with
           | [] => ([], h)
           | (k, j) :: ms' =>
               let '(v, h1) := alloc_json j h in
               let '(ps, h2) := members ms' h1 in
               ((k, v) :: ps, h2)
           end) ms h in
      (VRef (length h1),
       h1 ++ [CObj (fold_left (fun acc kv => assoc_set kv.1 kv.2 acc) ps [])])
  end.

(** [JSON.stringify] as the syntax tree of the text it prints: [None] when
    it throws (a cyclic structure), [Some None] when it returns
    [undefined].  A property whose value is [undefined] is left out, an
    element that is [undefined] prints as [null], a number that is not
    finite prints as [null]; an Error object has no enumerable property. *)
Fixpoint sequence {A : Type} (l : list (option A)) : option (list A) :=
  match l with
  | [] => Some []
  | None :: _ => None
  | Some a :: l' =>
      match sequence l' with
      | Some r => Some (a :: r)
      | None => None
      end
  end.

Definition number_json (n : number) : json :=
  match numberToJSON n with
  | Some lit => JNum lit
  | None => JNull
  end.

Fixpoint serialize (fuel : nat) (stack : list loc) (h : list cell) (v : value)
  : option (option json) :=
  match v with
  | VUndef => Some None
  | VNull => Some (Some JNull)
  | VBool b => Some (Some (JBool b))
  | VNum n => Some (Some (number_json n))
  | VStr s => Some (Some (JStr s))
  | VError _ _ => Some (Some (JObj []))
  | VNative name => nativeToJSON name
  | VRef l =>
      if existsb (Nat.eqb l) stack then None
      else
        match fuel with
        | O => None
        | S f =>
            match h !! l with
            | None => None
            | Some (CArr es _) =>
                match sequence (List.map (serialize f (l :: stack) h) es) with
                | Some js =>
                    Some (Some (JArr (List.map (fun o =>
                      match o with Some j => j | None => JNull end) js)))
                | None => None
                end
            | Some (CObj ps) =>
                match sequence
                        (List.map (fun kv => serialize f (l :: stack) h kv.2) ps) with
                | Some js =>
                    Some (Some (JObj (omap (fun kj =>
                      match kj.2 with Some j => Some (kj.1, j) | None => None end)
                      (combine (List.map fst ps) js))))
                | None => None
                end
            end
        end
  end.

Definition JSON_stringify_tree (h : list cell) (v : value) : option (option json) :=
  serialize (S (length h)) [] h v.

(** ** Code outside the module, and the state *)

Inductive outcome (A : Type) : Type :=
| Normal (a : A)
| Throw (e : value).
Arguments Normal {A} a.
Arguments Throw {A} e.

(** A function of the code outside the module: from the arguments, the
    heap and the world to a result or an exception, the cells it
    allocated and the new world. *)
Definition extfun : Type :=
  list value -> list cell -> world -> outcome value * list cell * world.

(** A backend: its methods by name. *)
Definition backend : Type := list (text * extfun).

(** A service: the hooks of [service.options]. *)
Record service : Type := {
  create : option extfun;
  refresh : option extfun;
  destroy : option extfun
}.

Inductive hook : Type := OnCreate | OnRefresh | OnDestroy.

(** The calls that leave the module, in the order they are made. *)
Inductive event : Type :=
| EBackend (name method : text) (args : list value)
| EService (index : nat) (h : hook) (args : list value)
| ERegisterElement (args : list value)
| EDebug (msg : text).

Record state : Type := {
  heap : list cell;
  (** [let frameworks] *)
  frameworks : list (text * backend);
  (** [const instanceMap = {}] *)
  instanceMap : gmap text value;
  (** the imports [services], [registerElement] and [runtimeConfig] *)
  services : list service;
  registerElement : extfun;
  runtimeConfig : value;
  (** [global.WXEnvironment] *)
  WXEnvironment : value;
  outside : world;
  trace : list event
}.

Definition set_heap (h : list cell) (st : state) : state :=
  {| heap := h; frameworks := frameworks st; instanceMap := instanceMap st;
     services := services st; registerElement := registerElement st;
     runtimeConfig := runtimeConfig st; WXEnvironment := WXEnvironment st;
     outside := outside st; trace := trace st |}.

Definition set_frameworks (f : list (text * backend)) (st : state) : state :=
  {| heap := heap st; frameworks := f; instanceMap := instanceMap st;
     services := services st; registerElement := registerElement st;
     runtimeConfig := runtimeConfig st; WXEnvironment := WXEnvironment st;
     outside := outside st; trace := trace st |}.

Definition set_instanceMap (m : gmap text value) (st : state) : state :=
  {| heap := heap st; frameworks := frameworks st; instanceMap := m;
     services := services st; registerElement := registerElement st;
     runtimeConfig := runtimeConfig st; WXEnvironment := WXEnvironment st;
     outside := outside st; trace := trace st |}.

Definition set_outside (w : world) (st : state) : state :=
  {| heap := heap st; frameworks := frameworks st; instanceMap := instanceMap st;
     services := services st; registerElement := registerElement st;
     runtimeConfig := runtimeConfig st; WXEnvironment := WXEnvironment st;
     outside := w; trace := trace st |}.

Definition set_trace (t : list event) (st : state) : state :=
  {| heap := heap st; frameworks := frameworks st; instanceMap := instanceMap st;
     services := services st; registerElement := registerElement st;
     runtimeConfig := runtimeConfig st; WXEnvironment := WXEnvironment st;
     outside := outside st; trace := t |}.

(** ** The monad of the module's code: state and exceptions *)

Definition M (A : Type) : Type := state -> outcome A * state.

Definition ret {A : Type} (a : A) : M A := fun st => (Normal a, st).

Definition bind {A B : Type} (m : M A) (k : A -> M B) : M B :=
  fun st =>
    match m st with
    | (Normal a, st') => k a st'
    | (Throw e, st') => (Throw e, st')
    end.

Definition throw {A : Type} (e : value) : M A := fun st => (Throw e, st).

(** [try { m } catch (e) { handler }] *)
Definition catch {A : Type} (m : M A) (handler : value -> M A) : M A :=
  fun st =>
    match m st with
    | (Normal a, st') => (Normal a, st')
    | (Throw e, st') => handler e st'
    end.

#[global] Instance M_ret : MRet M := @ret.
#[global] Instance M_bind : MBind M := fun A B k m => bind m k.

Definition gets {A : Type} (f : state -> A) : M A := fun st => (Normal (f st), st).
Definition modify (f : state -> state) : M unit := fun st => (Normal tt, f st).

Definition typeError : value := VError TypeError [].

(** ** Operations on objects *)

(** [v[k]] for a name [k] that no prototype defines *)
Definition prop (h : list cell) (v : value) (k : text) : value :=
  match v with
  | VRef l =>
      match h !! l with
      | Some c => match assoc k (cell_props c) with Some x => x | None => VUndef end
      | None => VUndef
      end
  | _ => VUndef
  end.

Definition getProp (v : value) (k : text) : M value :=
  match v with
  | VUndef | VNull => throw typeError
  | _ => gets (fun st => prop (heap st) v k)
  end.

Definition store (h : list cell) (l : loc) (k : text) (x : value) : list cell :=
  match h !! l with
  | Some c => <[l := cell_with_props c (assoc_set k x (cell_props c))]> h
  | None => h
  end.

(** [v[k] = x] in strict code *)
Definition setProp (v : value) (k : text) (x : value) : M unit :=
  match v with
  | VRef l => modify (fun st => set_heap (store (heap st) l k x) st)
  | VError _ _ | VNative _ => ret tt
  | _ => throw typeError
  end.

(** A new object with the given properties: an object literal or
    [Object.create(null)]. *)
Definition newObject (ps : list (text * value)) : M value :=
  fun st => (Normal (VRef (length (heap st))), set_heap (heap st ++ [CObj ps]) st).

(** [a || {}] *)
Definition orEmpty (a : value) : M value :=
  if toBoolean a then ret a else newObject [].

Definition JSON_stringify (v : value) : M (option json) :=
  fun st =>
    match JSON_stringify_tree (heap st) v with
    | Some t => (Normal t, st)
    | None => (Throw typeError, st)
    end.

(** [JSON.parse] of the text whose syntax tree is [t]; the text of
    [undefined] is no JSON text. *)
Definition JSON_parse_tree (t : option json) : M value :=
  match t with
  | Some j =>
      fun st => let '(v, h) := alloc_json j (heap st) in (Normal v, set_heap h st)
  | None => throw (VError SyntaxError [])
  end.

Definition JSON_parse (s : text) : M value :=
  match parse_text s with
  | POk j _ => JSON_parse_tree (Some j)
  | _ => throw (VError SyntaxError [])
  end.

Fixpoint decimalF (fuel : nat) (n : N) (acc : text) : text :=
  match fuel with
  | O => acc
  | S f =>
      let acc' := (48 + n mod 10) :: acc in
      if n / 10 =? 0 then acc' else decimalF f (n / 10) acc'
  end.

Definition decimal (n : nat) : text := decimalF (S n) (N.of_nat n) [].

(** The own enumerable properties [Object.assign] copies from [v]. *)
Definition own_props (h : list cell) (v : value) : list (text * value) :=
  match v with
  | VStr s => imap (fun i c => (decimal i, VStr [c])) s
  | VRef l =>
      match h !! l with
      | Some (CObj ps) => ps
      | Some (CArr es ps) => imap (fun i e => (decimal i, e)) es ++ ps
      | None => []
      end
  | _ => []
  end.

Fixpoint forEach {A : Type} (l : list A) (i : nat) (body : nat -> A -> M unit)
  : M unit :=
  match l with
  | [] => ret tt
  | a :: l' => body i a ;; forEach l' (S i) body
  end.

Definition Object_assign (target source : value) : M unit :=
  ps ← gets (fun st => own_props (heap st) source);
  forEach ps 0 (fun _ kv => setProp target kv.1 kv.2).

(** ** Calls that leave the module *)

Definition call (ev : list value -> event) (f : extfun) (args : list value)
  : M value :=
  fun st =>
    let '(r, new, w) := f args (heap st) (outside st) in
    (r, set_trace (trace st ++ [ev args])
          (set_outside w (set_heap (heap st ++ new) st))).

Definition console_debug (msg : text) : M unit :=
  modify (fun st => set_trace (trace st ++ [EDebug msg]) st).

(** [fws[name]] for the object [fws] of the backends: the backend of that
    name, or else the member of [Object.prototype] of that name, which is
    truthy and has none of the methods that the module calls. *)
Definition framework_lookup (fws : list (text * backend)) (name : text)
  : option (text * backend) :=
  match assoc name fws with
  | Some b => Some (name, b)
  | None => if inherited name then Some (name, []) else None
  end.

(** [frameworks[key]]: the name the key converts to, and the backend. *)
Definition lookupFramework (key : value) : M (option (text * backend)) :=
  gets (fun st => framework_lookup (frameworks st) (toString (heap st) key)).

(** [fw[method](...args)] *)
Definition callMethod (fw : option (text * backend)) (method : text)
    (args : list value) : M value :=
  match fw with
  | None => throw typeError
  | Some (name, b) =>
      match assoc method b with
      | Some f => call (EBackend name method) f args
      | None => throw typeError
      end
  end.

(** [m[key]] for the object [m] of the records, which is the literal
    [{}] with the properties that the module has added: the record of that
    name, or else the member of [Object.prototype] of that name. *)
Definition instance_lookup (m : gmap text value) (key : text) : value :=
  match m !! key with
  | Some info => info
  | None => if inherited key then VNative key else VUndef
  end.

(** [instanceMap[id]] *)
Definition lookupInstance (id : value) : M value :=
  gets (fun st => instance_lookup (instanceMap st) (toString (heap st) id)).

(** ** The module *)

Definition checkVersion (code : value) : M value :=
  s ← gets (fun st => toString (heap st) code);
  match versionRegExp_exec s with
  | Some body => catch (JSON_parse body) (fun _ => ret VUndef)
  | None => ret VUndef
  end.

Definition invalidInstanceId (id : value) : M value :=
  s ← gets (fun st => toString (heap st) id);
  ret (VError Error (str "invalid instance id " ++ c_quote :: s ++ [c_quote])).

(** Lines 42 to 47: [// Init instance info.] *)
Definition initInfo (id code : value) : M value :=
  v ← checkVersion code;
  info ← orEmpty v;
  fw ← getProp info (str "framework");
  b ← lookupFramework fw;
  (if b is None then setProp info (str "framework") (VStr (str "Weex")) else ret tt);;
  now ← gets (fun st => Date_now (outside st));
  setProp info (str "created") (VNum now);;
  key ← gets (fun st => toString (heap st) id);
  modify (fun st => set_instanceMap (<[key := info]> (instanceMap st)) st);;
  ret info.

(** Lines 50 to 53: [// Init instance config.] *)
Definition initConfig (info config : value) : M value :=
  c ← orEmpty config;
  t ← JSON_stringify c;
  config ← JSON_parse_tree t;
  version ← getProp info (str "version");
  setProp config (str "bundleVersion") version;;
  e ← gets WXEnvironment;
  e ← orEmpty e;
  t ← JSON_stringify e;
  env ← JSON_parse_tree t;
  setProp config (str "env") env;;
  fw ← getProp info (str "framework");
  bv ← getProp config (str "bundleVersion");
  msg ← gets (fun st =>
    str "[JS Framework] create an " ++ toString (heap st) fw ++ str "@"
    ++ toString (heap st) bv ++ str " instance from " ++ toString (heap st) bv);
  console_debug msg;;
  ret config.

(** Lines 56 to 63: [// Init JavaScript services for this instance.] *)
Definition initServices (id info config : value) : M value :=
  serviceObjects ← newObject [];
  ss ← gets services;
  forEach ss 0 (fun i service =>
    match create service with
    | Some f =>
        rt ← gets runtimeConfig;
        ctx ← newObject [(str "info", info); (str "runtime", rt)];
        result ← call (EService i OnCreate) f [id; ctx; config];
        Object_assign serviceObjects result
    | None => ret tt
    end);;
  ret serviceObjects.

Definition createInstance (id code config data : value) : M value :=
  info ← lookupInstance id;
  if negb (toBoolean info) then
    info ← initInfo id code;
    config ← initConfig info config;
    serviceObjects ← initServices id info config;
    fw ← getProp info (str "framework");
    b ← lookupFramework fw;
    callMethod b (str "createInstance") [id; code; config; data; serviceObjects]
  else invalidInstanceId id.

Definition isArray (h : list cell) (v : value) : bool :=
  match v with
  | VRef l => match h !! l with Some (CArr _ _) => true | _ => false end
  | _ => false
  end.

Definition elements (h : list cell) (v : value) : list value :=
  match v with
  | VRef l => match h !! l with Some (CArr es _) => es | _ => [] end
  | _ => []
  end.

Definition checkComponentMethods (components : value) : M unit :=
  arr ← gets (fun st => isArray (heap st) components);
  if (arr : bool) then
    es ← gets (fun st => elements (heap st) components);
    forEach es 0 (fun _ name =>
      if toBoolean name then
        type ← getProp name (str "type");
        if toBoolean type then
          methods ← getProp name (str "methods");
          if toBoolean methods then
            f ← gets registerElement;
            call ERegisterElement f [type; methods];; ret tt
          else ret tt
        else ret tt
      else ret tt)
  else ret tt.

Definition genInit (methodName : text) (args : list value) : M value :=
  (if decide (methodName = str "registerComponents")
   then checkComponentMethods (nth 0 args VUndef)
   else ret tt);;
  fws ← gets frameworks;
  forEach fws 0 (fun _ nf =>
    match assoc methodName nf.2 with
    | Some f => call (EBackend nf.1 methodName) f args;; ret tt
    | None => ret tt
    end);;
  ret VUndef.

Definition genInstance (methodName : text) (args : list value) : M value :=
  let id := nth 0 args VUndef in
  info ← lookupInstance id;
  if toBoolean info then
    fw ← getProp info (str "framework");
    b ← lookupFramework fw;
    if b is Some _ then
      result ← callMethod b methodName args;
      (if decide (methodName = str "refreshInstance") then
         ss ← gets services;
         forEach ss 0 (fun i service =>
           match refresh service with
           | Some f =>
               rt ← gets runtimeConfig;
               ctx ← newObject [(str "info", info); (str "runtime", rt)];
               call (EService i OnRefresh) f [id; ctx];; ret tt
           | None => ret tt
           end)
       else if decide (methodName = str "destroyInstance") then
         ss ← gets services;
         forEach ss 0 (fun i service =>
           match destroy service with
           | Some f =>
               rt ← gets runtimeConfig;
               ctx ← newObject [(str "info", info); (str "runtime", rt)];
               call (EService i OnDestroy) f [id; ctx];; ret tt
           | None => ret tt
           end);;
         key ← gets (fun st => toString (heap st) id);
         modify (fun st => set_instanceMap (delete key (instanceMap st)) st)
       else ret tt);;
      ret result
    else invalidInstanceId id
  else invalidInstanceId id.

Definition adaptInstance (methodName : text) (args : list value) : M value :=
  let id := nth 0 args VUndef in
  info ← lookupInstance id;
  if toBoolean info then
    fw ← getProp info (str "framework");
    b ← lookupFramework fw;
    if b is Some _ then callMethod b methodName args
    else invalidInstanceId id
  else invalidInstanceId id.

(** The table [methods] that [init] returns. *)
Definition fanout_names : list text :=
  [str "registerComponents"; str "registerModules"; str "registerMethods"].

Definition routed_names : list text :=
  [str "destroyInstance"; str "refreshInstance"; str "receiveTasks"; str "getRoot"].

Definition methods : list (text * (list value -> M value)) :=
  (str "createInstance",
   fun args => createInstance (nth 0 args VUndef) (nth 1 args VUndef)
                 (nth 2 args VUndef) (nth 3 args VUndef))
  :: List.map (fun m => (m, genInit m)) fanout_names
  ++ List.map (fun m => (m, genInstance m)) routed_names
  ++ [(str "callJS", adaptInstance (str "receiveTasks"))].

(** The backends of the object [fw]: its own properties in their order.
    A backend is an object outside the heap, whose methods [methods_of]
    gives by its name; a property with any other value has no method. *)
Definition framework_table (methods_of : text -> backend) (h : list cell)
    (fw : value) : list (text * backend) :=
  List.map
    (fun kv => (kv.1, match kv.2 with VNative n => methods_of n | _ => [] end))
    (own_props h fw).

Definition init (config : value) (methods_of : text -> backend)
  : M (list (text * (list value -> M value))) :=
  fw ← getProp config (str "frameworks");
  fws ← gets (fun st =>
    if toBoolean fw then framework_table methods_of (heap st) fw else []);
  modify (set_frameworks fws);;
  forEach fws 0 (fun _ nf => callMethod (Some nf) (str "init") [config];; ret tt);;
  ret methods.

(** ** The vocabulary of the properties *)

Implicit Types (st : state) (id v : value) (args : list value).

(** *** The routed entry points and the legacy alias *)

(** The error value of lines 67, 134 and 151. *)
Definition invalid_id (h : list cell) (id : value) : value :=
  VError Error (str "invalid instance id " ++ c_quote :: toString h id ++ [c_quote]).

(** The instance [id] is bound to the backend named [name]: its record's
    [framework] converts to [name] and [frameworks] has that name. *)
Definition backend_of st (info : value) : option (text * backend) :=
  framework_lookup (frameworks st)
    (toString (heap st) (prop (heap st) info (str "framework"))).

(** The entry points of [methods] that take an instance id first: the
    four routed names and the legacy alias. *)
Definition instance_entry (name : text) (f : list value -> M value) : Prop :=
  (name ∈ routed_names ∧ f = genInstance name)
  ∨ (name = str "callJS" ∧ f = adaptInstance (str "receiveTasks")).

(** *** The lifecycle hooks of lines 114 to 130 *)

(** [f] returns for every input. *)
Definition never_throws (f : extfun) : Prop :=
  ∀ a h w, ∃ v new w', f a h w = (Normal v, new, w').

(** The body of the two [services.forEach] loops of [genInstance]: [sel]
    is [refresh] or [destroy]. *)
Definition hook_body (sel : service -> option extfun) (hk : hook)
    (id info : value) (i : nat) (s : service) : M unit :=
  match sel s with
  | Some f =>
      rt ← gets runtimeConfig;
      ctx ← newObject [(str "info", info); (str "runtime", rt)];
      call (EService i hk) f [id; ctx];; ret tt
  | None => ret tt
  end.

(** The positions, from [i] on, of the services that have the hook. *)
Fixpoint hook_indices (sel : service -> option extfun) (i : nat)
    (ss : list service) : list nat :=
  match ss with
  | [] => []
  | s :: ss' =>
      (if sel s is Some _ then [i] else []) ++ hook_indices sel (S i) ss'
  end.

(** [e] is the call of hook [hk] of service [i] with [id] and a context
    object [{ info, runtime }] of the heap [h]. *)
Definition hook_event (hk : hook) (id info rt : value) (h : list cell)
    (e : event) (i : nat) : Prop :=
  ∃ c, e = EService i hk [id; VRef c]
       ∧ h !! c = Some (CObj [(str "info", info); (str "runtime", rt)]).

(** [st'] is [st] with the cells [new] and the events [es] added. *)
Definition extends st st' (new : list cell) (es : list event) : Prop :=
  heap st' = heap st ++ new ∧ trace st' = trace st ++ es
  ∧ frameworks st' = frameworks st ∧ instanceMap st' = instanceMap st
  ∧ services st' = services st ∧ registerElement st' = registerElement st
  ∧ runtimeConfig st' = runtimeConfig st ∧ WXEnvironment st' = WXEnvironment st.

(** What a routed call does for an id whose record is bound to the
    backend [b]: the source's lines 111 to 132. *)
Definition routed (m : text) (args : list value) (info : value)
    (name : text) (b : backend) : M value :=
  fun st =>
    let id := nth 0 args VUndef in
    match assoc m b with
    | None => (Throw typeError, st)
    | Some f =>
        match call (EBackend name m) f args st with
        | (Throw e, st1) => (Throw e, st1)
        | (Normal result, st1) =>
            if decide (m = str "refreshInstance") then
              match forEach (services st1) 0
                      (hook_body refresh OnRefresh id info) st1 with
              | (Normal _, st2) => (Normal result, st2)
              | (Throw e, st2) => (Throw e, st2)
              end
            else if decide (m = str "destroyInstance") then
              match forEach (services st1) 0
                      (hook_body destroy OnDestroy id info) st1 with
              | (Normal _, st2) =>
                  (Normal result,
                   set_instanceMap
                     (delete (toString (heap st2) id) (instanceMap st2)) st2)
              | (Throw e, st2) => (Throw e, st2)
              end
            else (Normal result, st1)
        end
    end.

(** *** The fan-out methods *)

(** A reference to a cell of the heap, or a primitive. *)
Definition valid (h : list cell) (v : value) : bool :=
  match v with
  | VRef l => bool_decide (l < length h)%nat
  | _ => true
  end.

(** The test of line 95 on an element of the components array. *)
Definition entry_ok (h : list cell) (e : value) : bool :=
  toBoolean e && toBoolean (prop h e (str "type"))
  && toBoolean (prop h e (str "methods")).

Definition register_event (h : list cell) (e : value) : event :=
  ERegisterElement [prop h e (str "type"); prop h e (str "methods")].

(** The body of the [forEach] of [checkComponentMethods]. *)
Definition component_body (i : nat) (name : value) : M unit :=
  if toBoolean name then
    type ← getProp name (str "type");
    if toBoolean type then
      methods ← getProp name (str "methods");
      if toBoolean methods then
        f ← gets registerElement;
        call ERegisterElement f [type; methods];; ret tt
      else ret tt
    else ret tt
  else ret tt.

(** The body of the loop over [frameworks] of [genInit]. *)
Definition fanout_body (m : text) (args : list value) (i : nat)
    (nf : text * backend) : M unit :=
  match assoc m nf.2 with
  | Some f => call (EBackend nf.1 m) f args;; ret tt
  | None => ret tt
  end.

Definition implements (m : text) (nf : text * backend) : bool :=
  if assoc m nf.2 is Some _ then true else false.

(** *** Cells, references and regions of the heap *)

Definition cell_values (c : cell) : list value :=
  match c with
  | CObj ps => List.map snd ps
  | CArr es ps => es ++ List.map snd ps
  end.

(** [v] is a primitive or a reference to a location of [[n, m)]. *)
Definition ref_within (n m : nat) (v : value) : Prop :=
  match v with
  | VRef l => (n <= l < m)%nat
  | _ => True
  end.

Definition cell_within (n m : nat) (c : cell) : Prop :=
  Forall (ref_within n m) (cell_values c).

(** The cells of [h] from [n] on refer to cells from [n] on only. *)
Definition region_closed (n : nat) (h : list cell) : Prop :=
  ∀ l c, (n <= l)%nat -> h !! l = Some c -> cell_within n (length h) c.

(** [h'] has the first [n] cells of [h] unchanged, and is no shorter. *)
Definition keeps (n : nat) (h h' : list cell) : Prop :=
  (length h <= length h')%nat ∧ ∀ l, (l < n)%nat -> h' !! l = h !! l.

(** *** [JSON.parse] allocates, [JSON.stringify] reads *)

Fixpoint alloc_elems (js : list json) (h : list cell) : list value * list cell :=
  match js with
  | [] => ([], h)
  | j :: js' =>
      let '(v, h1) := alloc_json j h in
      let '(vs, h2) := alloc_elems js' h1 in
      (v :: vs, h2)
  end.

Fixpoint alloc_members (ms : list (text * json)) (h : list cell)
  : list (text * value) * list cell :=
  match ms with
  | [] => ([], h)
  | (k, j) :: ms' =>
      let '(v, h1) := alloc_json j h in
      let '(ps, h2) := alloc_members ms' h1 in
      ((k, v) :: ps, h2)
  end.

(** [vs] and the cells [new] added to [h] refer to the added cells only. *)
Definition allocated (h : list cell) (vs : list value) (h' : list cell) : Prop :=
  ∃ new, h' = h ++ new
         ∧ Forall (ref_within (length h) (length h')) vs
         ∧ Forall (cell_within (length h) (length h')) new.

(** *** Creation: the record (lines 42 to 47) *)

(** The members of the descriptor of a bundle text, when the text has a
    header whose brace group is a JSON text. *)
Definition descriptor (s : text) : option (list (text * json)) :=
  match versionRegExp_exec s with
  | Some body =>
      match parse_text body with
      | POk (JObj ms) _ => Some ms
      | _ => None
      end
  | None => None
  end.

(** [checkVersion(code) || {}]: the object and the heap that holds it. *)
Definition info_alloc (s : text) (h : list cell) : value * list cell :=
  match descriptor s with
  | Some ms => alloc_json (JObj ms) h
  | None => (VRef (length h), h ++ [CObj []])
  end.

(** Lines 43 to 47 on the object at [l]. *)
Definition record_state (id : value) (l : loc) (st : state) : state :=
  let h := heap st in
  let name := toString h (prop h (VRef l) (str "framework")) in
  let h1 :=
    if framework_lookup (frameworks st) name is Some _ then h
    else store h l (str "framework") (VStr (str "Weex")) in
  let h2 := store h1 l (str "created") (VNum (Date_now (outside st))) in
  set_instanceMap (<[toString h2 id := VRef l]> (instanceMap st)) (set_heap h2 st).

(** [a || {}]: the value, and the heap with the new object if any. *)
Definition or_empty (a : value) (h : list cell) : value * list cell :=
  if toBoolean a then (a, h) else (VRef (length h), h ++ [CObj []]).

(** *** Creation: the configuration snapshot (lines 50 to 53) *)

(** Everything but the heap and the trace is the same. *)
Definition same_fields st st' : Prop :=
  frameworks st' = frameworks st ∧ instanceMap st' = instanceMap st
  ∧ services st' = services st ∧ registerElement st' = registerElement st
  ∧ runtimeConfig st' = runtimeConfig st ∧ WXEnvironment st' = WXEnvironment st
  ∧ outside st' = outside st.

(** *** Creation: the services (lines 56 to 63) and the delegation *)

(** The module's own variables and imports are the same. *)
Definition same_module st st' : Prop :=
  frameworks st' = frameworks st ∧ instanceMap st' = instanceMap st
  ∧ services st' = services st ∧ registerElement st' = registerElement st
  ∧ runtimeConfig st' = runtimeConfig st ∧ WXEnvironment st' = WXEnvironment st.

(** The body of the [forEach] of line 57. *)
Definition create_body (id info config serviceObjects : value) (i : nat)
    (s : service) : M unit :=
  match create s with
  | Some f =>
      rt ← gets runtimeConfig;
      ctx ← newObject [(str "info", info); (str "runtime", rt)];
      result ← call (EService i OnCreate) f [id; ctx; config];
      Object_assign serviceObjects result
  | None => ret tt
  end.

(** [e] is a call of a create hook with the id and the snapshot. *)
Definition create_event (id config : value) (e : event) : Prop :=
  ∃ i ctx, e = EService i OnCreate [id; VRef ctx; config].

(** [e] is a call that receives the snapshot [config]: a create hook, or
    the backend's [createInstance]. *)
Definition snapshot_event (id code config data : value) (e : event) : Prop :=
  create_event id config e
  ∨ ∃ name so, e = EBackend name (str "createInstance") [id; code; config; data; so].

(** *** Creation: the binding of the instance *)

Definition primitive (v : value) : bool :=
  match v with
  | VRef _ => false
  | _ => true
  end.

(** The framework the record ends with: the one the descriptor names when
    it is registered, and Weex otherwise. *)
Definition bound_framework (fws : list (text * backend)) (h : list cell)
    (info : value) : value :=
  let declared := prop h info (str "framework") in
  if framework_lookup fws (toString h declared) is Some _ then declared
  else VStr (str "Weex").

(** The member [k] of a descriptor: the last one of that name. *)
Definition json_member (k : text) (ms : list (text * json)) : option json :=
  assoc k (fold_left (fun acc kv => assoc_set kv.1 kv.2 acc) ms []).

(** A property and the member it was built from: the same name, and the
    same string when the member is a string. *)
Definition built_from (kv : text * value) (kj : text * json) : Prop :=
  kv.1 = kj.1 ∧ ∀ x, kj.2 = JStr x -> kv.2 = VStr x.

(** *** Creation: the snapshot and the caller's object *)

(** Every reference stored in the heap is to a cell of the heap. *)
Definition heap_wf (h : list cell) : bool :=
  forallb (fun c => forallb (valid h) (cell_values c)) h.

(** The nesting of a syntax tree. *)
Fixpoint json_depth (j : json) : nat :=
  match j with
  | JArr js => S (fold_right (fun j d => Nat.max (json_depth j) d) 0%nat js)
  | JObj ms => S (fold_right (fun kj d => Nat.max (json_depth kj.2) d) 0%nat ms)
  | _ => 0%nat
  end.

(** A syntax tree that [JSON.stringify] prints: the names of the members
    of an object are distinct, and a number literal is the one that
    [JSON.stringify] prints for the number it denotes. *)
Fixpoint canonical (j : json) : bool :=
  match j with
  | JNum lit => bool_decide (numberToJSON (numberOfLiteral lit) = Some lit)
  | JArr js => forallb canonical js
  | JObj ms =>
      bool_decide (NoDup (List.map fst ms)) && forallb (fun kj => canonical kj.2) ms
  | _ => true
  end.

(** [JSON.parse] gives back what [JSON.stringify] printed: for a number,
    the literal printed denotes a number that prints the same; an object
    outside the heap prints a tree of that kind. *)
Definition json_roundtrip : Prop :=
  (∀ n lit, numberToJSON n = Some lit ->
            numberToJSON (numberOfLiteral lit) = Some lit)
  ∧ (∀ name j, nativeToJSON name = Some (Some j) -> canonical j = true).

(** The properties of every object of the heap have distinct names. *)
Definition distinct_keys (h : list cell) : bool :=
  forallb (fun c => bool_decide (NoDup (List.map fst (cell_props c)))) h.

(** *** The vocabulary of the further properties *)

(** The record of [id] and the backend it is bound to, when the test of
    lines 110 and 148 passes. *)
Definition live st id : option (value * (text * backend)) :=
  let info := instance_lookup (instanceMap st) (toString (heap st) id) in
  if toBoolean info then (fun nb => (info, nb)) <$> backend_of st info else None.

(** An id without record for which the test of the lines 110 and 148
    fails: a member of [Object.prototype] that the id names has no
    [framework], so that the backend looked for is the one named
    [undefined]. *)
Definition unused_id st id : Prop :=
  instanceMap st !! toString (heap st) id = None
  ∧ (inherited (toString (heap st) id) = false
     ∨ assoc (str "undefined") (frameworks st) = None).

(** [config.frameworks || {}], line 156, as the backends of [init]. *)
Definition config_frameworks (methods_of : text -> backend) (h : list cell)
    (config : value) : list (text * backend) :=
  let fw := prop h config (str "frameworks") in
  if toBoolean fw then framework_table methods_of h fw else [].

(** The body of the loop over [frameworks] of [init]. *)
Definition init_body (config : value) (i : nat) (nf : text * backend) : M unit :=
  callMethod (Some nf) (str "init") [config];; ret tt.

(** The backend has an [init] method that returns. *)
Definition initialises (nf : text * backend) : Prop :=
  ∃ f, assoc (str "init") nf.2 = Some f ∧ never_throws f.


(** The JSON text of a string, a boolean or [null]: the values that
    [JSON.parse(JSON.stringify(v))] gives back as they are. *)
Definition scalar (v : value) : option json :=
  match v with
  | VNull => Some JNull
  | VBool b => Some (JBool b)
  | VStr s => Some (JStr s)
  | _ => None
  end.

(** A property and the member it was built from: the same name, and the
    same value when the member is the text of a scalar. *)
Definition copied_from (kv : text * value) (kj : text * json) : Prop :=
  kv.1 = kj.1 ∧ ∀ x, scalar x = Some kj.2 -> kv.2 = x.

(** The members [JSON.stringify] prints for the properties [ps], given
    the texts [js] of their values. *)
Definition printed_members (ps : list (text * value)) (js : list (option json))
  : list (text * json) :=
  omap (fun kj => match kj.2 with Some j => Some (kj.1, j) | None => None end)
    (combine (List.map fst ps) js).

(** A boolean, a number or a string. *)
Definition plain (v : value) : bool :=
  match v with
  | VBool _ | VNum _ | VStr _ => true
  | _ => false
  end.

End Runtime.

Arguments Normal {H A} a.
Arguments Throw {H A} e.

(** ** A host and a few states to run the module on *)

Module Examples.

(** Numbers as their literals, the objects outside the heap as functions,
    except [Object.prototype] itself, a world that counts the calls it
    receives and stands for the clock. *)
#[local] Instance host : Host := {|
  number := text;
  numberOfLiteral := fun lit => lit;
  numberToString := fun n => n;
  numberToBoolean := fun n =>
    negb (forallb (fun c => (c =? 48) || (c =? 45) || (c =? 46)) n);
  numberToJSON := fun n => Some n;
  nativeToString := fun n =>
    if decide (n = str "__proto__") then str "[object Object]"
    else str "function " ++ n ++ str "() { [native code] }";
  nativeToJSON := fun n =>
    if decide (n = str "__proto__") then Some (Some (JObj [])) else Some None;
  world := nat;
  Date_now := fun w => decimal w
|}.

Definition returns (v : value) : extfun := fun _ _ w => (Normal v, [], S w).
Definition throws (v : value) : extfun := fun _ _ w => (Throw v, [], S w).

Definition rax : backend :=
  [(str "init", returns VUndef);
   (str "createInstance", returns (VStr (str "rax instance")));
   (str "destroyInstance", returns VUndef);
   (str "refreshInstance", returns VUndef);
   (str "receiveTasks", returns VUndef);
   (str "getRoot", returns VUndef)].

(** A backend without [destroyInstance] whose [refreshInstance] throws. *)
Definition weex : backend :=
  [(str "init", returns VUndef);
   (str "createInstance", returns (VStr (str "weex instance")));
   (str "refreshInstance", throws (VError Error (str "refresh failed")));
   (str "registerComponents", returns VUndef)].

Definition logger : service :=
  {| create := Some (returns VUndef);
     refresh := Some (returns VUndef);
     destroy := Some (returns VUndef) |}.

Definition quiet : service :=
  {| create := None; refresh := None; destroy := None |}.

Definition boot (fws : list (text * backend)) (ss : list service) : state := {|
  heap := [];
  frameworks := fws;
  instanceMap := ∅;
  services := ss;
  registerElement := returns VUndef;
  runtimeConfig := VUndef;
  WXEnvironment := VUndef;
  outside := 0%nat;
  trace := []
|}.

Definition st0 : state :=
  boot [(str "Weex", weex); (str "Rax", rax)] [logger; quiet; logger].

Definition rax_header : text :=
  dq "// {'framework':'Rax','version':'1.0'}" ++ [c_lf].

Definition id1 : value := VStr (str "1").
Definition id2 : value := VStr (str "2").

(** [st0] after creating instance 1 from a Rax bundle and instance 2 from
    a bundle without header. *)
Definition st1 : state :=
  (createInstance id1 (VStr (rax_header ++ str "rest")) VUndef VUndef st0).2.

Definition st2 : state :=
  (createInstance id2 (VStr (str "var a = 1")) VUndef VUndef st1).2.

(** A runtime whose only backend is Rax, after creating instance 2 from a
    bundle without header: the record names the backend Weex, which is
    not registered. *)
Definition st_orphan : state :=
  (createInstance id2 (VStr (str "var a = 1")) VUndef VUndef
     (boot [(str "Rax", rax)] [logger])).2.

(** [st0] with the array [components] at location 5. *)
Definition st_components : state :=
  (JSON_parse (dq "[{'type':'Foo','methods':['bar']},{'type':'Baz'},5,{'type':'','methods':[]}]")
     st0).2.

(** [st0] with the caller's configuration object [{ debug, tags }] at
    location 1 and its array at location 0. *)
Definition st_cfg : state :=
  (JSON_parse (dq "{'debug':true,'tags':['a','b']}") st0).2.

Definition vue_header : text :=
  dq "// {'framework':'Vue','version':'2.5'}" ++ [c_lf].

(** A backend with the two registration methods, of which
    [registerMethods] throws, and a backend that has [registerMethods]
    only. *)
Definition vue : backend :=
  [(str "init", returns VUndef);
   (str "registerModules", returns VUndef);
   (str "registerMethods", throws (VError Error (str "no methods")))].

Definition late : backend :=
  [(str "init", returns VUndef);
   (str "registerMethods", returns VUndef)].

Definition st_vue : state :=
  boot [(str "Weex", weex); (str "Vue", vue); (str "Late", late)] [].

(** [st_components] with a [registerElement] that throws. *)
Definition st_strict : state := {|
  heap := heap st_components;
  frameworks := frameworks st_components;
  instanceMap := instanceMap st_components;
  services := services st_components;
  registerElement := throws (VError Error (str "unknown element"));
  runtimeConfig := runtimeConfig st_components;
  WXEnvironment := WXEnvironment st_components;
  outside := outside st_components;
  trace := trace st_components
|}.

(** [st0] with an object at location 0 that holds itself. *)
Definition st_cyclic : state := set_heap [CObj [(str "self", VRef 0%nat)]] st0.

(** A service whose refresh and destroy hooks throw. *)
Definition faulty : service :=
  {| create := None;
     refresh := Some (throws (VError Error (str "hook failed")));
     destroy := Some (throws (VError Error (str "hook failed"))) |}.

(** A runtime with the services logger, faulty and logger, after creating
    instance 1 from a Rax bundle. *)
Definition st_faulty : state :=
  (createInstance id1 (VStr rax_header) VUndef VUndef
     (boot [(str "Rax", rax)] [logger; faulty; logger])).2.

(** A runtime whose [global.WXEnvironment] is the object at location 0. *)
Definition st_env : state := {|
  heap := [CObj [(str "platform", VStr (str "Web"))]];
  frameworks := frameworks st0;
  instanceMap := ∅;
  services := services st0;
  registerElement := registerElement st0;
  runtimeConfig := VUndef;
  WXEnvironment := VRef 0%nat;
  outside := 0%nat;
  trace := []
|}.

(** The backends outside the heap, by name. *)
Definition backends (n : text) : backend :=
  if decide (n = str "weex") then weex
  else if decide (n = str "rax") then rax
  else [].

(** A runtime before [init], with the configuration
    [{ frameworks: { Weex, Rax } }] at location 1. *)
Definition st_init : state :=
  set_heap
    [CObj [(str "Weex", VNative (str "weex")); (str "Rax", VNative (str "rax"))];
     CObj [(str "frameworks", VRef 0%nat)]]
    (boot [] [logger; quiet; logger]).


(** A runtime with a backend registered under the name [undefined]. *)
Definition st_undefined : state :=
  boot [(str "Weex", weex); (str "undefined", rax)] [logger].

(** A header that declares a framework with the name of a member of
    [Object.prototype]. *)
Definition toString_header : text :=
  dq "// {'framework':'toString','version':'1.0'}" ++ [c_lf].

Definition id_constructor : value := VStr (str "constructor").

(** A state that [createInstance] does not lead to: a record under the
    name [constructor], and a backend registered under the name
    [undefined]. *)
Definition st_taken : state := {|
  heap := [CObj [(str "framework", VStr (str "Rax"))]];
  frameworks := [(str "Rax", rax); (str "undefined", rax)];
  instanceMap := {[str "constructor" := VRef 0%nat]};
  services := [];
  registerElement := returns VUndef;
  runtimeConfig := VUndef;
  WXEnvironment := VUndef;
  outside := 0%nat;
  trace := []
|}.

(** [st0] after creating instance 1 from a bundle with that header: the
    creation threw, and the record names [toString]. *)
Definition st_toString : state :=
  (createInstance id1 (VStr toString_header) VUndef VUndef st0).2.

End Examples.

(** * Properties *)

Example parse_text_rax :
  parse_text (dq "{'framework':'Rax','version':'1.0'}")
  = POk (JObj [(str "framework", JStr (str "Rax")); (str "version", JStr (str "1.0"))]) [].
Proof. vm_compute. reflexivity. Qed.

(** Induction on syntax trees, with the property for the parts of an
    array and of an object. *)
Lemma json_ind' (P : json -> Prop) :
  P JNull -> (∀ b, P (JBool b)) -> (∀ lit, P (JNum lit)) -> (∀ s, P (JStr s)) ->
  (∀ js, Forall P js -> P (JArr js)) ->
  (∀ ms, Forall (fun kv => P kv.2) ms -> P (JObj ms)) ->
  ∀ j, P j.
Proof.
  intros HNull HBool HNum HStr HArr HObj. fix IH 1. intros [| b | lit | s | js | ms].
  - exact HNull.
  - apply HBool.
  - apply HNum.
  - apply HStr.
  - apply HArr. induction js as [| j js IHjs]; constructor; [apply IH | exact IHjs].
  - apply HObj. induction ms as [| [k j] ms IHms]; constructor; [apply IH | exact IHms].
Qed.

(** ** The recursion budget of the parser *)

Lemma skip_length p (s : text) : (length (skip p s) <= length s)%nat.
Proof.
  induction s as [| c s IH]; [done |]. cbn [skip].
  destruct (p c); cbn [length]; lia.
Qed.

Lemma keyword_length kw : ∀ s r,
  keyword kw s = Some r -> length s = (length kw + length r)%nat.
Proof.
  induction kw as [| k kw IH]; intros s r; cbn [keyword].
  - by intros [= ->].
  - destruct s as [| c s]; [done |]. destruct (k =? c); [| done].
    intros Hk%IH. cbn [length]. lia.
Qed.

Lemma digits_length (s : text) : (length (digits s).2 <= length s)%nat.
Proof.
  induction s as [| c s IH]; [done |]. cbn [digits].
  destruct (is_digit c); [| done]. destruct (digits s) as [ds r]. cbn in *. lia.
Qed.

Lemma parse_chars_ok n : ∀ s acc,
  (length s <= n)%nat ->
  match parse_chars s acc with
  | POk _ r => (length r < length s)%nat
  | PSyntax => True
  | PFuel => False
  end.
Proof.
  induction n as [| n IH]; intros s acc Hn.
  - destruct s; [done | cbn in Hn; lia].
  - destruct s as [| c s]; [done |]. cbn [parse_chars].
    destruct (c =? c_quote); [cbn; lia |].
    destruct (c =? c_backslash).
    + destruct s as [| e s]; [done |].
      assert (Hrec : ∀ a, match parse_chars s a with
                          | POk _ r => (length r < length (c :: e :: s))%nat
                          | PSyntax => True
                          | PFuel => False
                          end).
      { intros a. assert (Hs : (length s <= n)%nat) by (cbn [length] in Hn; lia).
        specialize (IH s a Hs).
        destruct (parse_chars s a); [cbn [length]; lia | done..]. }
      repeat (match goal with
              | |- context [if ?b then _ else _] => destruct b; [by apply Hrec |]
              end).
      destruct (e =? 117); [| done].
      destruct s as [| h1 [| h2 [| h3 [| h4 s3]]]]; try done.
      destruct (hex4 h1 h2 h3 h4); [| done].
      assert (Hs : (length s3 <= n)%nat) by (cbn [length] in Hn; lia).
      specialize (IH s3 (n0 :: acc) Hs).
      destruct (parse_chars s3 _); [cbn [length]; lia | done..].
    + destruct (c <? 32); [done |].
      assert (Hs : (length s <= n)%nat) by (cbn [length] in Hn; lia).
      specialize (IH s (c :: acc) Hs).
      destruct (parse_chars s _); [cbn [length]; lia | done..].
Qed.

Lemma parse_number_ok (s : text) :
  match parse_number s with
  | POk _ r => (length r < length s)%nat
  | PSyntax => True
  | PFuel => False
  end.
Proof.
  unfold parse_number.
  assert (Hint : ∀ s0, match parse_int s0 with
                       | POk _ r => (length r < length s0)%nat
                       | PSyntax => True
                       | PFuel => False
                       end).
  { intros [| c s0]; [done |]. cbn [parse_int].
    destruct (c =? 48); [cbn; lia |]. destruct (is_digit c); [| done].
    pose proof (digits_length s0). destruct (digits s0). cbn in *. lia. }
  assert (Hfrac : ∀ s0, match parse_frac s0 with
                        | POk _ r => (length r <= length s0)%nat
                        | PSyntax => True
                        | PFuel => False
                        end).
  { intros [| c s0]; [cbn; lia |]. cbn [parse_frac].
    destruct (c =? 46); [| cbn; lia].
    pose proof (digits_length s0). destruct (digits s0) as [[| d ds] r]; [done |].
    cbn in *. lia. }
  assert (Hexp : ∀ s0, match parse_exp s0 with
                       | POk _ r => (length r <= length s0)%nat
                       | PSyntax => True
                       | PFuel => False
                       end).
  { intros [| c s0]; [cbn; lia |]. cbn [parse_exp].
    destruct ((c =? 101) || (c =? 69)); [| cbn; lia].
    destruct s0 as [| g s'']; [done |].
    destruct ((g =? 43) || (g =? 45)).
    - pose proof (digits_length s''). destruct (digits s'') as [[| d ds] r]; [done |].
      cbn in *. lia.
    - pose proof (digits_length (g :: s'')).
      destruct (digits (g :: s'')) as [[| d ds] r]; [done |]. cbn in *. lia. }
  destruct (match s with [] => _ | _ => _ end) as [sg s0] eqn:Hs.
  assert (Hs0 : (length s0 <= length s)%nat).
  { destruct s as [| c s']; [by injection Hs as _ <- |].
    destruct (c =? 45); injection Hs as _ <-; cbn; lia. }
  specialize (Hint s0). destruct (parse_int s0) as [i s1 | |]; [| done..].
  specialize (Hfrac s1). destruct (parse_frac s1) as [fr s2 | |]; [| done..].
  specialize (Hexp s2). destruct (parse_exp s2) as [e s3 | |]; [| done..].
  lia.
Qed.

Ltac open_skip s c r :=
  let Hlen := fresh "Hlen" in
  pose proof (skip_length is_json_ws s) as Hlen;
  destruct (skip is_json_ws s) as [| c r]; [done |]; cbn [length] in Hlen.

(** Every result is within bounds, with margin 1 for a value and 2 for
    elements and members. *)
Lemma parse_budget f :
  (∀ s, parse_bounded f 1 s (parse_value f s))
  ∧ (∀ s, parse_bounded f 2 s (parse_elems f s))
  ∧ (∀ s, parse_bounded f 2 s (parse_members f s)).
Proof.
  induction f as [| f (IHv & IHe & IHm)].
  { repeat split; intros s; cbn; lia. }
  split; [| split]; intros s.
  - cbn [parse_value]. open_skip s c s1.
    destruct (c =? c_lbrace).
    { open_skip s1 c' s2. destruct (c' =? c_rbrace); [cbn; lia |].
      specialize (IHm (c' :: s2)). unfold parse_bounded in *.
      destruct (parse_members f (c' :: s2)); cbn [length] in *; try done; lia. }
    destruct (c =? c_lbracket).
    { open_skip s1 c' s2. destruct (c' =? c_rbracket); [cbn; lia |].
      specialize (IHe (c' :: s2)). unfold parse_bounded in *.
      destruct (parse_elems f (c' :: s2)); cbn [length] in *; try done; lia. }
    destruct (c =? c_quote).
    { pose proof (parse_chars_ok (length s1) s1 [] (le_n _)) as Hc.
      destruct (parse_chars s1 []); cbn in *; try done; lia. }
    destruct ((c =? 45) || is_digit c).
    { pose proof (parse_number_ok (c :: s1)) as Hn.
      destruct (parse_number (c :: s1)); cbn [length] in *; cbn; try done; lia. }
    destruct (keyword (str "true") (c :: s1)) as [r |] eqn:Ht.
    { apply keyword_length in Ht. cbn in *. lia. }
    destruct (keyword (str "false") (c :: s1)) as [r |] eqn:Hf.
    { apply keyword_length in Hf. cbn in *. lia. }
    destruct (keyword (str "null") (c :: s1)) as [r |] eqn:Hn; [| done].
    apply keyword_length in Hn. cbn in *. lia.
  - cbn [parse_elems]. specialize (IHv s). unfold parse_bounded in *.
    destruct (parse_value f s) as [v r | |]; [| done | lia].
    open_skip r c r'. destruct (c =? c_comma).
    { specialize (IHe r').
      destruct (parse_elems f r'); cbn [length] in *; try done; lia. }
    destruct (c =? c_rbracket); [lia | done].
  - cbn [parse_members]. unfold parse_bounded in *. open_skip s c s1.
    destruct (c =? c_quote); [| done].
    pose proof (parse_chars_ok (length s1) s1 [] (le_n _)) as Hc.
    destruct (parse_chars s1 []) as [k r | |]; [| done..].
    open_skip r c' r1. destruct (c' =? c_colon); [| done].
    specialize (IHv r1).
    destruct (parse_value f r1) as [v r2 | |]; [| done | lia].
    open_skip r2 c'' r3. destruct (c'' =? c_comma).
    { specialize (IHm r3).
      destruct (parse_members f r3); cbn [length] in *; try done; lia. }
    destruct (c'' =? c_rbrace); [lia | done].
Qed.

(** The budget of [parse_text] is enough: a text is accepted or has a
    syntax error. *)
Lemma parse_text_fuel (s : text) : parse_text s ≠ PFuel.
Proof.
  unfold parse_text.
  destruct (parse_budget (2 * length s + 2)) as [Hv _]. specialize (Hv s).
  unfold parse_bounded in Hv.
  destruct (parse_value _ s) as [j r | |]; [| done | lia].
  by destruct (skip is_json_ws r).
Qed.

Section Properties.
Context `{H : Host}.

Implicit Types (st : state) (id v : value) (args : list value).

Lemma bind_run {A B : Type} (m : M A) (k : A -> M B) st :
  (m ≫= k) st =
  match m st with
  | (Normal a, st') => k a st'
  | (Throw e, st') => (Throw e, st')
  end.
Proof. reflexivity. Qed.

(** A run is its outcome and the state it ends in. *)
Lemma run_outcome {A : Type} (m : M A) st (o : outcome A) :
  (m st).1 = o -> m st = (o, (m st).2).
Proof. intros <-. apply surjective_pairing. Qed.

(** Run the first computation of a sequence. *)
Ltac bind_step :=
  match goal with
  | |- context [@mbind _ _ ?A ?B ?k ?m ?st] => rewrite (@bind_run A B m k st)
  end.

(** *** The regular expression *)

Lemma skip_split p (s : text) :
  ∃ pre, s = pre ++ skip p s ∧ forallb p pre = true
         ∧ match skip p s with c :: _ => p c = false | [] => True end.
Proof.
  induction s as [| c s (pre & Hs & Hpre & Hhd)].
  - by exists [].
  - cbn [skip]. destruct (p c) eqn:Hc.
    + exists (c :: pre). cbn. rewrite Hc, Hpre. split; [by rewrite <- Hs | done].
    + exists []. by rewrite Hc.
Qed.

Lemma skip_app p (pre : text) c s :
  forallb p pre = true -> p c = false -> skip p (pre ++ c :: s) = c :: s.
Proof.
  intros Hpre Hc. induction pre as [| a pre IH]; cbn in *.
  - by rewrite Hc.
  - apply andb_true_iff in Hpre as [-> Hpre]. by apply IH.
Qed.

Lemma until_rbrace_Some s body rest :
  until_rbrace s = Some (body, rest)
  ↔ s = body ++ c_rbrace :: rest
    ∧ forallb (fun c => negb (c =? c_rbrace)) body = true.
Proof.
  revert body. induction s as [| c s IH]; intros body; cbn [until_rbrace].
  - split; [discriminate | intros [Hs _]; by destruct body].
  - destruct (c =? c_rbrace) eqn:Hc.
    + apply N.eqb_eq in Hc as ->. split.
      * by intros [= <- <-].
      * intros [Hs Hbody]. destruct body as [| b body]; [by injection Hs as -> |].
        injection Hs as <- _. cbn in Hbody. try rewrite N.eqb_refl in Hbody. done.
    + destruct (until_rbrace s) as [[body' rest'] |] eqn:Hs; split.
      * intros [= <- <-]. destruct (proj1 (IH body') eq_refl) as [-> Hb].
        cbn. by rewrite Hc.
      * intros [Heq Hbody]. destruct body as [| b body].
        { injection Heq as -> _. by rewrite N.eqb_refl in Hc. }
        injection Heq as <- Heq. cbn in Hbody.
        apply andb_true_iff in Hbody as [_ Hbody].
        assert (Some (body', rest') = Some (body, rest)) as [= -> ->]; [| done].
        by apply (IH body).
      * discriminate.
      * intros [Heq Hbody]. destruct body as [| b body].
        { injection Heq as -> _. by rewrite N.eqb_refl in Hc. }
        injection Heq as <- Heq. cbn in Hbody.
        apply andb_true_iff in Hbody as [_ Hbody].
        assert (None = Some (body, rest)) as [=]. by apply (IH body).
Qed.

Lemma line_end_true s :
  line_end s = true ↔ ∃ eol rest, s = eol ++ rest ∧ (eol = [c_lf] ∨ eol = [c_cr; c_lf]).
Proof.
  unfold line_end. split.
  - destruct s as [| c s]; [discriminate |].
    destruct (c =? c_lf) eqn:Hlf.
    { apply N.eqb_eq in Hlf as ->. intros _. exists [c_lf], s. auto. }
    destruct (c =? c_cr) eqn:Hcr; [| discriminate].
    apply N.eqb_eq in Hcr as ->.
    destruct s as [| c' s]; [discriminate |].
    intros ->%N.eqb_eq. exists [c_cr; c_lf], s. auto.
  - intros (eol & rest & -> & [-> | ->]); reflexivity.
Qed.

(** The matcher finds exactly the matches of the regular expression. *)
Lemma versionRegExp_exec_shape s body :
  versionRegExp_exec s = Some body ↔ header_shape s body.
Proof.
  unfold versionRegExp_exec, header_shape. split.
  - destruct (skip_split is_space s) as (ws & Hs & Hws & _).
    destruct (skip is_space s) as [| c1 [| c2 s1]]; [discriminate.. |].
    destruct ((c1 =? c_slash) && (c2 =? c_slash)) eqn:Hsl; [| discriminate].
    apply andb_true_iff in Hsl as [->%N.eqb_eq ->%N.eqb_eq].
    destruct (skip_split is_blank s1) as (sp1 & Hs1 & Hsp1 & _).
    destruct (skip is_blank s1) as [| c3 s2]; [discriminate |].
    destruct (c3 =? c_lbrace) eqn:Hlb; [| discriminate].
    apply N.eqb_eq in Hlb as ->.
    destruct (until_rbrace s2) as [[inner s3] |] eqn:Hu; [| discriminate].
    apply until_rbrace_Some in Hu as [Hs2 Hinner].
    destruct (skip_split is_blank s3) as (sp2 & Hs3 & Hsp2 & _).
    destruct (line_end (skip is_blank s3)) eqn:Hle; [| discriminate].
    apply line_end_true in Hle as (eol & rest & Hrest & Heol).
    intros [= <-]. exists ws, sp1, inner, sp2, eol, rest.
    repeat split; try done.
    rewrite Hs, Hs1, Hs2, Hs3, Hrest. cbn. rewrite <- ?app_assoc. reflexivity.
  - intros (ws & sp1 & inner & sp2 & eol & rest & -> & Hws & Hsp1 & Hinner & Hsp2 & Heol & ->).
    cbn [app]. rewrite (skip_app is_space ws c_slash) by done.
    cbn [N.eqb Pos.eqb c_slash andb].
    assert (Hsp1' : skip is_blank (sp1 ++ c_lbrace :: inner ++ c_rbrace :: sp2 ++ eol ++ rest)
                    = c_lbrace :: inner ++ c_rbrace :: sp2 ++ eol ++ rest)
      by by apply skip_app.
    rewrite Hsp1'. cbn [N.eqb Pos.eqb c_lbrace].
    assert (Hu : until_rbrace (inner ++ c_rbrace :: sp2 ++ eol ++ rest)
                 = Some (inner, sp2 ++ eol ++ rest))
      by by apply until_rbrace_Some.
    rewrite Hu.
    assert (Hle : line_end (skip is_blank (sp2 ++ eol ++ rest)) = true).
    { destruct Heol as [-> | ->]; cbn [app]; by rewrite skip_app. }
    by rewrite Hle.
Qed.

(** *** The version detector *)

Lemma parse_text_rest s j r : parse_text s = POk j r -> r = [].
Proof.
  unfold parse_text. destruct (parse_value _ s) as [j' r' | |]; [| done..].
  destruct (skip is_json_ws r'); [| done]. by intros [= _ <-].
Qed.

(** A text that starts with an opening brace parses to an object. *)
Lemma parse_text_object s j r :
  parse_text (c_lbrace :: s) = POk j r -> ∃ ms, j = JObj ms.
Proof.
  unfold parse_text.
  replace (2 * length (c_lbrace :: s) + 2)%nat with (S (2 * length s + 3))%nat
    by (cbn [length]; lia).
  cbn [parse_value skip is_json_ws c_lbrace c_space c_tab c_lf c_cr N.eqb Pos.eqb orb].
  destruct (skip is_json_ws s) as [| c' s2]; [done |].
  destruct (c' =? c_rbrace).
  - destruct (skip is_json_ws s2); [| done]. intros [= <- _]. by eexists.
  - destruct (parse_members _ _) as [ms r' | |]; [| done..].
    destruct (skip is_json_ws r'); [| done]. intros [= <- _]. by eexists.
Qed.

Lemma checkVersion_run code st :
  checkVersion code st
  = match versionRegExp_exec (toString (heap st) code) with
    | Some body =>
        match parse_text body with
        | POk j _ =>
            (Normal (alloc_json j (heap st)).1,
             set_heap (alloc_json j (heap st)).2 st)
        | _ => (Normal VUndef, st)
        end
    | None => (Normal VUndef, st)
    end.
Proof.
  unfold checkVersion. bind_step. unfold gets at 1. cbv beta iota.
  destruct (versionRegExp_exec _) as [body |]; [| reflexivity].
  unfold catch, JSON_parse.
  destruct (parse_text body) as [j r | |]; [| reflexivity..].
  unfold JSON_parse_tree. by destruct (alloc_json j (heap st)).
Qed.

(** *** The routed entry points and the legacy alias *)

Lemma invalidInstanceId_run id st :
  invalidInstanceId id st = (Normal (invalid_id (heap st) id), st).
Proof. reflexivity. Qed.

Lemma lookupInstance_run id st :
  lookupInstance id st
  = (Normal (instance_lookup (instanceMap st) (toString (heap st) id)), st).
Proof. reflexivity. Qed.

Lemma instance_lookup_own (m : gmap text value) k info :
  m !! k = Some info -> instance_lookup m k = info.
Proof. unfold instance_lookup. by intros ->. Qed.

Lemma instance_lookup_free (m : gmap text value) k :
  m !! k = None -> inherited k = false -> instance_lookup m k = VUndef.
Proof. unfold instance_lookup. by intros -> ->. Qed.

Lemma instance_lookup_inherited (m : gmap text value) k :
  m !! k = None -> inherited k = true -> instance_lookup m k = VNative k.
Proof. unfold instance_lookup. by intros -> ->. Qed.

Lemma framework_lookup_own fws name b :
  assoc name fws = Some b -> framework_lookup fws name = Some (name, b).
Proof. unfold framework_lookup. by intros ->. Qed.

Lemma framework_lookup_free fws name :
  assoc name fws = None -> inherited name = false ->
  framework_lookup fws name = None.
Proof. unfold framework_lookup. by intros -> ->. Qed.

Lemma framework_lookup_inherited fws name :
  assoc name fws = None -> inherited name = true ->
  framework_lookup fws name = Some (name, []).
Proof. unfold framework_lookup. by intros -> ->. Qed.

Lemma framework_lookup_name fws name nb :
  framework_lookup fws name = Some nb -> nb.1 = name.
Proof.
  unfold framework_lookup. destruct (assoc name fws); [by intros [= <-] |].
  destruct (inherited name); [by intros [= <-] | done].
Qed.

(** A member of [Object.prototype] has no [framework]: the backend that
    the entry points look for is the one named [undefined]. *)
Lemma backend_of_native st k :
  backend_of st (VNative k) = framework_lookup (frameworks st) (str "undefined").
Proof. reflexivity. Qed.

Lemma genInstance_unknown m args st :
  unused_id st (nth 0 args VUndef) ->
  genInstance m args st = (Normal (invalid_id (heap st) (nth 0 args VUndef)), st).
Proof.
  intros [Hnone Hfree]. unfold genInstance. cbv zeta.
  bind_step. rewrite lookupInstance_run.
  destruct (inherited (toString (heap st) (nth 0 args VUndef))) eqn:Hin.
  - rewrite instance_lookup_inherited by done. cbn [toBoolean]. cbv beta iota.
    destruct Hfree as [? | Hundef]; [done |].
    bind_step. cbn [getProp]. unfold gets at 1. cbv beta iota.
    bind_step. unfold lookupFramework, gets at 1.
    change (toString (heap st) (prop (heap st) (VNative _) (str "framework")))
      with (str "undefined").
    by rewrite framework_lookup_free.
  - by rewrite instance_lookup_free.
Qed.

Lemma adaptInstance_unknown m args st :
  unused_id st (nth 0 args VUndef) ->
  adaptInstance m args st = (Normal (invalid_id (heap st) (nth 0 args VUndef)), st).
Proof.
  intros [Hnone Hfree]. unfold adaptInstance. cbv zeta.
  bind_step. rewrite lookupInstance_run.
  destruct (inherited (toString (heap st) (nth 0 args VUndef))) eqn:Hin.
  - rewrite instance_lookup_inherited by done. cbn [toBoolean]. cbv beta iota.
    destruct Hfree as [? | Hundef]; [done |].
    bind_step. cbn [getProp]. unfold gets at 1. cbv beta iota.
    bind_step. unfold lookupFramework, gets at 1.
    change (toString (heap st) (prop (heap st) (VNative _) (str "framework")))
      with (str "undefined").
    by rewrite framework_lookup_free.
  - by rewrite instance_lookup_free.
Qed.

Lemma genInstance_unbound m args st l :
  instanceMap st !! toString (heap st) (nth 0 args VUndef) = Some (VRef l) ->
  backend_of st (VRef l) = None ->
  genInstance m args st = (Normal (invalid_id (heap st) (nth 0 args VUndef)), st).
Proof.
  intros Hsome Hnone. unfold genInstance. cbv zeta.
  bind_step. rewrite lookupInstance_run, (instance_lookup_own _ _ _ Hsome).
  cbn [toBoolean]. cbv beta iota.
  bind_step. cbn [getProp]. unfold gets at 1. cbv beta iota.
  bind_step. unfold lookupFramework, gets at 1.
  unfold backend_of in Hnone. rewrite Hnone. reflexivity.
Qed.

Lemma adaptInstance_unbound m args st l :
  instanceMap st !! toString (heap st) (nth 0 args VUndef) = Some (VRef l) ->
  backend_of st (VRef l) = None ->
  adaptInstance m args st = (Normal (invalid_id (heap st) (nth 0 args VUndef)), st).
Proof.
  intros Hsome Hnone. unfold adaptInstance. cbv zeta.
  bind_step. rewrite lookupInstance_run, (instance_lookup_own _ _ _ Hsome).
  cbn [toBoolean]. cbv beta iota.
  bind_step. cbn [getProp]. unfold gets at 1. cbv beta iota.
  bind_step. unfold lookupFramework, gets at 1.
  unfold backend_of in Hnone. rewrite Hnone. reflexivity.
Qed.

Lemma instance_entry_methods name f :
  instance_entry name f -> assoc name methods = Some f.
Proof.
  intros [[Hin ->] | [-> ->]].
  - unfold routed_names in Hin.
    repeat (apply elem_of_cons in Hin as [-> | Hin]; [reflexivity |]).
    by apply elem_of_nil in Hin.
  - reflexivity.
Qed.

(** C2.  Creating an id whose record exists returns the invalid-id error
    value and changes nothing: the registry, the heap and the trace of
    calls to backends and services are those before the call. *)
Theorem createInstance_existing_id id code config data st l :
  instanceMap st !! toString (heap st) id = Some (VRef l) ->
  createInstance id code config data st
  = (Normal (invalid_id (heap st) id), st).
Proof.
  intros Hsome. unfold createInstance.
  bind_step. rewrite lookupInstance_run, (instance_lookup_own _ _ _ Hsome).
  reflexivity.
Qed.

(** C3, amended.  For an id without a record, each routed entry point and
    the legacy alias is in the method table and returns the invalid-id
    error value in an unchanged state: nothing is added to the trace, so
    no backend method and no service hook is called, and the registry is
    the same.  When the id is the name of a member of [Object.prototype],
    this holds provided that no backend is registered under the name
    [undefined]. *)
Theorem unknown_id_rejected name f args st :
  instance_entry name f ->
  instanceMap st !! toString (heap st) (nth 0 args VUndef) = None ->
  inherited (toString (heap st) (nth 0 args VUndef)) = false
  ∨ assoc (str "undefined") (frameworks st) = None ->
  assoc name methods = Some f
  ∧ f args st = (Normal (invalid_id (heap st) (nth 0 args VUndef)), st).
Proof.
  intros He Hnone Hfree. split; [by apply instance_entry_methods |].
  destruct He as [[_ ->] | [_ ->]].
  - by apply genInstance_unknown.
  - by apply adaptInstance_unknown.
Qed.

(** C9, amended.  When the record of an id names a backend that
    [frameworks] does not have at the time of the call, and that is not
    the name of a member of [Object.prototype] either, each routed entry
    point and the legacy alias returns the invalid-id error value in an
    unchanged state and delegates nothing. *)
Theorem unbound_backend_rejected name f args st l :
  instance_entry name f ->
  instanceMap st !! toString (heap st) (nth 0 args VUndef) = Some (VRef l) ->
  let declared := toString (heap st) (prop (heap st) (VRef l) (str "framework")) in
  assoc declared (frameworks st) = None ->
  inherited declared = false ->
  assoc name methods = Some f
  ∧ f args st = (Normal (invalid_id (heap st) (nth 0 args VUndef)), st).
Proof.
  intros He Hsome declared Hunreg Hown. split; [by apply instance_entry_methods |].
  assert (Hnone : backend_of st (VRef l) = None).
  { unfold backend_of. by apply framework_lookup_free. }
  destruct He as [[_ ->] | [_ ->]].
  - by eapply genInstance_unbound.
  - by eapply adaptInstance_unbound.
Qed.

(** *** The lifecycle hooks of lines 114 to 130 *)

Lemma extends_refl st : extends st st [] [].
Proof. unfold extends. rewrite !app_nil_r. tauto. Qed.

Lemma extends_trans st st1 st2 n1 n2 e1 e2 :
  extends st st1 n1 e1 -> extends st1 st2 n2 e2 ->
  extends st st2 (n1 ++ n2) (e1 ++ e2).
Proof.
  unfold extends. intros (-> & -> & -> & -> & -> & -> & -> & ->).
  intros (-> & -> & -> & -> & -> & -> & -> & ->).
  rewrite !app_assoc. tauto.
Qed.

Lemma call_run ev f args st :
  call ev f args st
  = let '(r, new, w) := f args (heap st) (outside st) in
    (r, set_trace (trace st ++ [ev args])
          (set_outside w (set_heap (heap st ++ new) st))).
Proof. reflexivity. Qed.

Lemma call_extends ev f args st out st' :
  call ev f args st = (out, st') ->
  ∃ new, extends st st' new [ev args]
         ∧ ∃ w, f args (heap st) (outside st) = (out, new, w).
Proof.
  rewrite call_run. destruct (f args (heap st) (outside st)) as [[r new] w].
  intros [= <- <-]. exists new. split; [| by exists w].
  unfold extends. cbn. tauto.
Qed.

Lemma hook_event_grow hk id info rt h new e i :
  hook_event hk id info rt h e i -> hook_event hk id info rt (h ++ new) e i.
Proof.
  intros (c & -> & Hc). exists c. split; [done |].
  by apply lookup_app_l_Some.
Qed.

Lemma hooks_run sel hk id info ss : ∀ i st out st',
  forEach ss i (hook_body sel hk id info) st = (out, st') ->
  ∃ new es idxs,
    extends st st' new es
    ∧ idxs `prefix_of` hook_indices sel i ss
    ∧ Forall2 (hook_event hk id info (runtimeConfig st) (heap st')) es idxs
    ∧ (∀ u, out = Normal u -> idxs = hook_indices sel i ss).
Proof.
  induction ss as [| s ss IH]; intros i st out st' Hrun.
  - cbn in Hrun. injection Hrun as <- <-.
    exists [], [], []. split; [apply extends_refl |]. repeat split; auto.
  - cbn [forEach] in Hrun. revert Hrun. bind_step.
    unfold hook_body at 1. cbn [hook_indices].
    destruct (sel s) as [f |].
    + bind_step. unfold gets at 1. cbv beta iota.
      bind_step. unfold newObject at 1. cbv beta iota.
      bind_step.
      set (ctx := VRef (length (heap st))).
      set (st1 := set_heap _ st).
      destruct (call (EService i hk) f [id; ctx] st1) as [o st2] eqn:Hcall.
      apply call_extends in Hcall as (new & Hext & _).
      assert (Hst1 : extends st st1 [CObj [(str "info", info); (str "runtime", runtimeConfig st)]] []).
      { unfold extends, st1. cbn. rewrite app_nil_r. tauto. }
      pose proof (extends_trans _ _ _ _ _ _ _ Hst1 Hext) as Hst2.
      assert (Hev : hook_event hk id info (runtimeConfig st) (heap st2)
                      (EService i hk [id; ctx]) i).
      { exists (length (heap st)). split; [done |].
        destruct Hst2 as (-> & _). cbn.
        rewrite lookup_app_r by lia.
        by rewrite Nat.sub_diag. }
      destruct o as [u | e].
      * cbv beta iota. unfold ret at 1. cbv beta iota. intros Hrun.
        apply IH in Hrun as (new' & es' & idxs & Hext' & Hpre & Hall & Hfull).
        pose proof (extends_trans _ _ _ _ _ _ _ Hst2 Hext') as Hst'.
        exists (([CObj [(str "info", info); (str "runtime", runtimeConfig st)]] ++ new) ++ new'),
          (([] ++ [EService i hk [id; ctx]]) ++ es'), (i :: idxs).
        split; [exact Hst' |]. split; [by apply prefix_cons |]. split.
        -- cbn. constructor.
           ++ destruct Hext' as (-> & _). by apply hook_event_grow.
           ++ destruct Hst2 as (_ & _ & _ & _ & _ & _ & <- & _). exact Hall.
        -- intros u' Hu. by rewrite (Hfull u' Hu).
      * cbv beta iota. intros [= <- <-].
        exists ([CObj [(str "info", info); (str "runtime", runtimeConfig st)]] ++ new),
          ([] ++ [EService i hk [id; ctx]]), [i].
        split; [exact Hst2 |]. split.
        { cbn. apply prefix_cons, prefix_nil. }
        split; [| discriminate].
        cbn. constructor; [exact Hev | constructor].
    + unfold ret at 1. cbv beta iota. cbn [app]. intros Hrun.
      by apply IH in Hrun.
Qed.

Lemma genInstance_bound m args st l name b :
  instanceMap st !! toString (heap st) (nth 0 args VUndef) = Some (VRef l) ->
  backend_of st (VRef l) = Some (name, b) ->
  genInstance m args st = routed m args (VRef l) name b st.
Proof.
  intros Hsome Hb. unfold genInstance, routed. cbv zeta.
  bind_step. rewrite lookupInstance_run, (instance_lookup_own _ _ _ Hsome). cbn [toBoolean]. cbv beta iota.
  bind_step. cbn [getProp]. unfold gets at 1. cbv beta iota.
  bind_step. unfold lookupFramework, gets at 1.
  unfold backend_of in Hb. rewrite Hb. cbv beta iota.
  bind_step. cbn [callMethod].
  destruct (assoc m b) as [f |]; [| reflexivity].
  destruct (call (EBackend name m) f args st) as [[result | e] st1]; [| reflexivity].
  bind_step.
  destruct (decide (m = str "refreshInstance")) as [_ | _].
  - bind_step. unfold gets at 1. cbv beta iota.
    fold (hook_body refresh OnRefresh (nth 0 args VUndef) (VRef l)).
    destruct (forEach _ _ _ st1) as [[[] | e] st2]; reflexivity.
  - destruct (decide (m = str "destroyInstance")) as [_ | _]; [| reflexivity].
    bind_step. unfold gets at 1. cbv beta iota. bind_step.
    fold (hook_body destroy OnDestroy (nth 0 args VUndef) (VRef l)).
    destruct (forEach _ _ _ st1) as [[[] | e] st2]; reflexivity.
Qed.

(** The routed call returns when the backend method and the hooks do. *)
Lemma hooks_return sel hk id info ss : ∀ i st,
  Forall (fun s => ∀ f, sel s = Some f -> never_throws f) ss ->
  ∃ st', forEach ss i (hook_body sel hk id info) st = (Normal (), st').
Proof.
  induction ss as [| s ss IH]; intros i st Hss; [by eexists |].
  apply Forall_cons in Hss as [Hs Hss]. cbn [forEach]. bind_step.
  unfold hook_body at 1. destruct (sel s) as [f |].
  - bind_step. unfold gets at 1. cbv beta iota.
    bind_step. unfold newObject at 1. cbv beta iota.
    bind_step. rewrite call_run.
    destruct (Hs f eq_refl [id; VRef (length (heap st))]
                (heap (set_heap (heap st ++ [CObj [(str "info", info);
                                                   (str "runtime", runtimeConfig st)]]) st))
                (outside st)) as (u & new & w & Hf).
    cbn [heap outside set_heap] in *. rewrite Hf. cbv beta iota.
    unfold ret at 1. cbv beta iota. by apply IH.
  - unfold ret at 1. cbv beta iota. by apply IH.
Qed.

Lemma genInstance_returns m args st l name b f :
  instanceMap st !! toString (heap st) (nth 0 args VUndef) = Some (VRef l) ->
  backend_of st (VRef l) = Some (name, b) ->
  assoc m b = Some f ->
  never_throws f ->
  Forall (fun s => ∀ g, refresh s = Some g -> never_throws g) (services st) ->
  Forall (fun s => ∀ g, destroy s = Some g -> never_throws g) (services st) ->
  ∃ r st', genInstance m args st = (Normal r, st').
Proof.
  intros Hsome Hb Hf Hnt Hrefresh Hdestroy.
  rewrite (genInstance_bound _ _ _ _ _ _ Hsome Hb). unfold routed. rewrite Hf. cbv zeta.
  destruct (call (EBackend name m) f args st) as [o st1] eqn:Hcall.
  apply call_extends in Hcall as (new & Hext & w & Hfw).
  destruct (Hnt args (heap st) (outside st)) as (u & new' & w' & Hu).
  rewrite Hu in Hfw. injection Hfw as <- _ _.
  destruct Hext as (_ & _ & _ & _ & Hss & _).
  destruct (decide (m = str "refreshInstance")).
  - destruct (hooks_return refresh OnRefresh (nth 0 args VUndef) (VRef l)
                (services st1) 0 st1) as [st2 ->]; [by rewrite Hss |].
    by eexists _, _.
  - destruct (decide (m = str "destroyInstance")); [| by eexists _, _].
    destruct (hooks_return destroy OnDestroy (nth 0 args VUndef) (VRef l)
                (services st1) 0 st1) as [st2 ->]; [by rewrite Hss |].
    by eexists _, _.
Qed.

(** C4, amended.  For a live instance whose backend has the method,
    when [refreshInstance] (or [destroyInstance]) returns, whatever the
    value the backend returned, the calls it made are the backend call
    followed by one call of the refresh (or destroy) hook of each service
    that has one, in registration order, each with the id and a context
    object holding the record and the runtime configuration. *)
Theorem lifecycle_hooks_after_backend m sel hk args st l name b f r st' :
  (m = str "refreshInstance" ∧ sel = refresh ∧ hk = OnRefresh)
  ∨ (m = str "destroyInstance" ∧ sel = destroy ∧ hk = OnDestroy) ->
  instanceMap st !! toString (heap st) (nth 0 args VUndef) = Some (VRef l) ->
  backend_of st (VRef l) = Some (name, b) ->
  assoc m b = Some f ->
  genInstance m args st = (Normal r, st') ->
  (f args (heap st) (outside st)).1.1 = Normal r
  ∧ ∃ es,
      trace st' = trace st ++ EBackend name m args :: es
      ∧ Forall2 (hook_event hk (nth 0 args VUndef) (VRef l) (runtimeConfig st) (heap st'))
          es (hook_indices sel 0 (services st)).
Proof.
  intros Hm Hsome Hb Hf. rewrite (genInstance_bound _ _ _ _ _ _ Hsome Hb).
  unfold routed. rewrite Hf. cbv zeta.
  destruct (call (EBackend name m) f args st) as [[result | e] st1] eqn:Hcall;
    [| discriminate].
  apply call_extends in Hcall as (new & Hext & w & Hfw).
  rewrite Hfw. cbn [fst].
  assert (Hloop : ∀ out st2,
            forEach (services st1) 0 (hook_body sel hk (nth 0 args VUndef) (VRef l)) st1
            = (Normal out, st2) ->
            ∃ es, trace st2 = trace st ++ EBackend name m args :: es
                  ∧ Forall2 (hook_event hk (nth 0 args VUndef) (VRef l)
                               (runtimeConfig st) (heap st2))
                      es (hook_indices sel 0 (services st))).
  { intros out st2 Hrun.
    apply hooks_run in Hrun as (new' & es & idxs & Hext' & _ & Hall & Hfull).
    rewrite (Hfull out eq_refl) in Hall.
    destruct Hext as (_ & Ht & _ & _ & Hs & _ & Hrt & _).
    destruct Hext' as (_ & Ht' & _).
    exists es. rewrite Ht', Ht, <- app_assoc. split; [done |].
    by rewrite <- Hs, <- Hrt. }
  destruct Hm as [(-> & -> & ->) | (-> & -> & ->)].
  - destruct (decide (str "refreshInstance" = str "refreshInstance")) as [_ | []];
      [| done].
    destruct (forEach _ _ _ st1) as [[[] | e] st2] eqn:Hrun; [| discriminate].
    intros [= <- <-]. split; [done |]. by eapply Hloop.
  - destruct (decide (str "destroyInstance" = str "refreshInstance")) as [Heq | _];
      [discriminate Heq |].
    destruct (decide (str "destroyInstance" = str "destroyInstance")) as [_ | []];
      [| done].
    destruct (forEach _ _ _ st1) as [[[] | e] st2] eqn:Hrun; [| discriminate].
    intros [= <- <-]. split; [done |]. cbn [trace heap set_instanceMap].
    by eapply Hloop.
Qed.

(** C1, amended.  For a live instance whose backend is registered, when
    [destroyInstance] returns (the backend has the method, and neither it
    nor a destroy hook throws), the record of the id is removed, the
    other records stay, and every later routed call and legacy call with
    that id returns the invalid-id error value.  The last part holds
    for an id that is not the name of a member of [Object.prototype], as
    the id of every record that [createInstance] makes, and for any id
    when no backend is registered under the name [undefined]. *)
Theorem destroyInstance_frees_slot args st l name b r st' :
  instanceMap st !! toString (heap st) (nth 0 args VUndef) = Some (VRef l) ->
  backend_of st (VRef l) = Some (name, b) ->
  genInstance (str "destroyInstance") args st = (Normal r, st') ->
  let key := toString (heap st') (nth 0 args VUndef) in
  instanceMap st' = delete key (instanceMap st)
  ∧ instanceMap st' !! key = None
  ∧ (inherited key = false ∨ assoc (str "undefined") (frameworks st') = None ->
     ∀ name' f' args',
       instance_entry name' f' ->
       nth 0 args' VUndef = nth 0 args VUndef ->
       f' args' st' = (Normal (invalid_id (heap st') (nth 0 args VUndef)), st')).
Proof.
  intros Hsome Hb. rewrite (genInstance_bound _ _ _ _ _ _ Hsome Hb).
  unfold routed. cbv zeta.
  destruct (assoc _ b) as [f |]; [| discriminate].
  destruct (call _ f args st) as [[result | e] st1] eqn:Hcall; [| discriminate].
  apply call_extends in Hcall as (new & Hext & _).
  destruct (decide (str "destroyInstance" = str "refreshInstance")) as [Heq | _];
    [discriminate Heq |].
  destruct (decide (str "destroyInstance" = str "destroyInstance")) as [_ | []];
    [| done].
  destruct (forEach _ _ _ st1) as [[[] | e] st2] eqn:Hrun; [| discriminate].
  apply hooks_run in Hrun as (new' & es & idxs & Hext' & _).
  intros [= <- <-]. cbn [heap instanceMap set_instanceMap].
  destruct Hext as (_ & _ & _ & Hm & _). destruct Hext' as (_ & _ & _ & Hm' & _).
  assert (Hnone : delete (toString (heap st2) (nth 0 args VUndef)) (instanceMap st2)
                  !! toString (heap st2) (nth 0 args VUndef) = None)
    by apply lookup_delete_eq.
  split; [by rewrite Hm', Hm |]. split; [exact Hnone |].
  intros Hown name' f' args' He Hid.
  set (st3 := set_instanceMap _ st2).
  assert (Hst3 : unused_id st3 (nth 0 args' VUndef)).
  { unfold unused_id, st3. cbn [heap instanceMap frameworks set_instanceMap].
    rewrite Hid. by split. }
  rewrite <- Hid. change (heap st2) with (heap st3).
  destruct He as [[_ ->] | [_ ->]].
  - by apply genInstance_unknown.
  - by apply adaptInstance_unknown.
Qed.

(** *** The fan-out methods *)

Lemma prop_grow h new v k : valid h v = true -> prop (h ++ new) v k = prop h v k.
Proof.
  destruct v as [| | | | | l | |]; try reflexivity. cbn.
  intros Hl%bool_decide_eq_true. by rewrite lookup_app_l.
Qed.

Lemma getProp_run v k st :
  toBoolean v = true -> getProp v k st = (Normal (prop (heap st) v k), st).
Proof. by destruct v. Qed.

Lemma component_body_run i e st :
  component_body i e st
  = if entry_ok (heap st) e
    then match call ERegisterElement (registerElement st)
                 [prop (heap st) e (str "type"); prop (heap st) e (str "methods")] st with
         | (Normal _, st') => (Normal tt, st')
         | (Throw x, st') => (Throw x, st')
         end
    else (Normal tt, st).
Proof.
  unfold component_body, entry_ok.
  destruct (toBoolean e) eqn:He; [| reflexivity]. cbn [andb].
  bind_step. rewrite getProp_run by done. cbv beta iota.
  destruct (toBoolean (prop (heap st) e (str "type"))); [| reflexivity]. cbn [andb].
  bind_step. rewrite getProp_run by done. cbv beta iota.
  destruct (toBoolean (prop (heap st) e (str "methods"))); [| reflexivity].
  bind_step. unfold gets at 1. cbv beta iota. bind_step.
  destruct (call _ _ _ st) as [[u | x] st']; reflexivity.
Qed.

Lemma components_run es : ∀ i st out st',
  forallb (valid (heap st)) es = true ->
  forEach es i component_body st = (out, st') ->
  ∃ new done,
    extends st st' new (List.map (register_event (heap st)) done)
    ∧ done `prefix_of` List.filter (entry_ok (heap st)) es
    ∧ (∀ u, out = Normal u -> done = List.filter (entry_ok (heap st)) es)
    ∧ (∀ x, out = Throw x ->
         ∃ a h w, (registerElement st a h w).1.1 = Throw x).
Proof.
  induction es as [| e es IH]; intros i st out st' Hvalid Hrun.
  - cbn in Hrun. injection Hrun as <- <-. exists [], [].
    split; [apply extends_refl |]. repeat split; [done | discriminate].
  - cbn [forallb] in Hvalid. apply andb_true_iff in Hvalid as [He Hes].
    cbn [forEach] in Hrun. revert Hrun. bind_step.
    rewrite component_body_run. cbn [List.filter].
    destruct (entry_ok (heap st) e) eqn:Hok.
    + destruct (call _ _ _ st) as [[u | x] st1] eqn:Hcall.
      * apply call_extends in Hcall as (new & Hext & _).
        cbv beta iota. intros Hrun.
        pose proof Hext as (Hh & _ & _ & _ & _ & Hreg & _).
        apply IH in Hrun as (new' & done & Hext' & Hpre & Hfull & Hthrow).
        2:{ rewrite Hh. clear -Hes. induction es as [| a es IHes]; [done |].
            cbn [forallb] in *. apply andb_true_iff in Hes as [Ha Hes].
            rewrite (IHes Hes), andb_true_r.
            destruct a; try done. cbn in *.
            apply bool_decide_eq_true in Ha. apply bool_decide_eq_true.
            rewrite length_app. lia. }
        assert (Hsame : ∀ a, In a es -> entry_ok (heap st1) a = entry_ok (heap st) a
                              ∧ register_event (heap st1) a = register_event (heap st) a).
        { intros a Ha. rewrite forallb_forall in Hes. specialize (Hes a Ha).
          unfold entry_ok, register_event. rewrite Hh.
          by rewrite !prop_grow. }
        assert (Hfilter : List.filter (entry_ok (heap st1)) es
                          = List.filter (entry_ok (heap st)) es).
        { clear -Hsame. induction es as [| a es IHes]; [done |]. cbn.
          destruct (Hsame a (or_introl eq_refl)) as [-> _].
          rewrite IHes; [done |]. intros b Hb. apply Hsame. by right. }
        rewrite Hfilter in Hpre, Hfull.
        assert (Hmap : List.map (register_event (heap st1)) done
                       = List.map (register_event (heap st)) done).
        { apply map_ext_in. intros a Ha. apply Hsame.
          destruct Hpre as [k Hk].
          assert (Hin : In a (List.filter (entry_ok (heap st)) es)).
          { rewrite Hk. apply in_or_app. by left. }
          by apply filter_In in Hin as [Hin _]. }
        rewrite Hmap in Hext'.
        exists (new ++ new'), (e :: done). split.
        { exact (extends_trans _ _ _ _ _ _ _ Hext Hext'). }
        split; [by apply prefix_cons |]. split.
        -- intros u' Hu. by rewrite (Hfull u' Hu).
        -- intros x Hx. destruct (Hthrow x Hx) as (a & h & w & Ha).
           rewrite Hreg in Ha. by exists a, h, w.
      * apply call_extends in Hcall as (new & Hext & w & Hf).
        cbv beta iota. intros [= <- <-].
        exists new, [e]. split; [exact Hext |]. split.
        { apply prefix_cons, prefix_nil. }
        split; [discriminate |].
        intros x' [= <-]. eexists _, _, _. by rewrite Hf.
    + cbv beta iota. intros Hrun. by eapply IH.
Qed.

Lemma fanout_run m args fws : ∀ i st out st',
  forEach fws i (fanout_body m args) st = (out, st') ->
  ∃ new done,
    extends st st' new (List.map (fun nf => EBackend nf.1 m args) done)
    ∧ done `prefix_of` List.filter (implements m) fws
    ∧ (∀ u, out = Normal u -> done = List.filter (implements m) fws)
    ∧ (∀ x, out = Throw x ->
         ∃ nf f a h w, In nf fws ∧ assoc m nf.2 = Some f
                       ∧ (f a h w).1.1 = Throw x).
Proof.
  induction fws as [| nf fws IH]; intros i st out st' Hrun.
  - cbn in Hrun. injection Hrun as <- <-. exists [], [].
    split; [apply extends_refl |]. repeat split; [done | discriminate].
  - cbn [forEach] in Hrun. revert Hrun. bind_step.
    unfold fanout_body at 1. cbn [List.filter].
    destruct (assoc m nf.2) as [f |] eqn:Hf.
    + assert (Himp : implements m nf = true) by (unfold implements; by rewrite Hf).
      rewrite Himp. bind_step.
      destruct (call _ f args st) as [[u | x] st1] eqn:Hcall;
        apply call_extends in Hcall as (new & Hext & w & Hfw).
      * cbv beta iota. unfold ret at 1. cbv beta iota. intros Hrun.
        apply IH in Hrun as (new' & done & Hext' & Hpre & Hfull & Hthrow).
        exists (new ++ new'), (nf :: done). split.
        { exact (extends_trans _ _ _ _ _ _ _ Hext Hext'). }
        split; [by apply prefix_cons |]. split.
        -- intros u' Hu. by rewrite (Hfull u' Hu).
        -- intros x Hx.
           destruct (Hthrow x Hx) as (nf' & f' & a & h & w' & Hin & Hf' & Hx').
           exists nf', f', a, h, w'. split; [by right | done].
      * cbv beta iota. intros [= <- <-]. exists new, [nf].
        split; [exact Hext |]. split; [apply prefix_cons, prefix_nil |].
        split; [discriminate |]. intros x' [= <-].
        exists nf, f, args, (heap st), (outside st).
        split; [by left |]. split; [done |]. by rewrite Hfw.
    + assert (Himp : implements m nf = false) by (unfold implements; by rewrite Hf).
      rewrite Himp. unfold ret at 1. cbv beta iota. intros Hrun.
      apply IH in Hrun as (new' & done & Hext' & Hpre & Hfull & Hthrow).
      exists new', done. split; [done |]. split; [done |]. split; [done |].
      intros x Hx.
      destruct (Hthrow x Hx) as (nf' & f' & a & h & w' & Hin & Hf' & Hx').
      exists nf', f', a, h, w'. split; [by right | done].
Qed.

Lemma checkComponentMethods_run components st :
  checkComponentMethods components st
  = forEach (elements (heap st) components) 0 component_body st.
Proof.
  unfold checkComponentMethods. bind_step. unfold gets at 1. cbv beta iota.
  destruct (isArray (heap st) components) eqn:Harr.
  - bind_step. unfold gets at 1. cbv beta iota. reflexivity.
  - assert (Hes : elements (heap st) components = []).
    { destruct components as [| | | | | l | |]; try reflexivity. cbn in *.
      by destruct (heap st !! l) as [[] |]. }
    by rewrite Hes.
Qed.

(** C8.  [registerComponents(components, ...)], when [registerElement] and
    the backends' [registerComponents] do not throw, returns and has
    called, in this order: [registerElement(type, methods)] once for each
    element of the array [components] that has a truthy [type] and a
    truthy [methods] (no call when [components] is not an array, and none
    for the other elements), then [registerComponents] with the same
    arguments on each backend that has the method. *)
Theorem registerComponents_fanout args st :
  let m := str "registerComponents" in
  let comps := elements (heap st) (nth 0 args VUndef) in
  forallb (valid (heap st)) comps = true ->
  never_throws (registerElement st) ->
  (∀ nf f, In nf (frameworks st) -> assoc m nf.2 = Some f -> never_throws f) ->
  ∃ st' new,
    genInit m args st = (Normal VUndef, st')
    ∧ extends st st' new
        (List.map (register_event (heap st)) (List.filter (entry_ok (heap st)) comps)
         ++ List.map (fun nf => EBackend nf.1 m args)
              (List.filter (implements m) (frameworks st))).
Proof.
  intros m comps Hvalid Hreg Hfws. subst m comps. unfold genInit.
  destruct (decide (str "registerComponents" = str "registerComponents")) as [_ | []];
    [| done].
  bind_step. rewrite checkComponentMethods_run.
  destruct (forEach _ 0 component_body st) as [out st1] eqn:Hrun1.
  apply components_run in Hrun1 as (new1 & done1 & Hext1 & _ & Hfull1 & Hthrow1);
    [| exact Hvalid].
  destruct out as [[] | x].
  2:{ destruct (Hthrow1 x eq_refl) as (a & h & w & Hx).
      destruct (Hreg a h w) as (v & n & w' & Hv). by rewrite Hv in Hx. }
  rewrite (Hfull1 () eq_refl) in Hext1. cbv beta iota.
  bind_step. unfold gets at 1. cbv beta iota. bind_step.
  change (forEach (frameworks st1) 0 _ st1)
    with (forEach (frameworks st1) 0 (fanout_body (str "registerComponents") args) st1).
  destruct (forEach (frameworks st1) 0 _ st1) as [out st2] eqn:Hrun2.
  apply fanout_run in Hrun2 as (new2 & done2 & Hext2 & _ & Hfull2 & Hthrow2).
  pose proof Hext1 as (_ & _ & Hfw & _).
  destruct out as [[] | x].
  2:{ destruct (Hthrow2 x eq_refl) as (nf & f & a & h & w & Hin & Hf & Hx).
      rewrite Hfw in Hin.
      destruct (Hfws nf f Hin Hf a h w) as (v & n & w' & Hv). by rewrite Hv in Hx. }
  rewrite (Hfull2 () eq_refl), Hfw in Hext2.
  exists st2, (new1 ++ new2). split; [reflexivity |].
  exact (extends_trans _ _ _ _ _ _ _ Hext1 Hext2).
Qed.

(** C5, amended.  [checkVersion] never throws.  It returns the object
    that [JSON.parse] builds exactly when the text starts with a match of
    [versionRegExp] (white space that may include line breaks, [//],
    blanks, a brace group without an inner closing brace, blanks and a
    line end) whose brace group is a JSON text; in every other case,
    malformed JSON included, it returns [undefined] and changes nothing. *)
Theorem checkVersion_detects code st :
  (∀ body j,
     header_shape (toString (heap st) code) body ->
     parse_text body = POk j [] ->
     checkVersion code st
     = (Normal (alloc_json j (heap st)).1, set_heap (alloc_json j (heap st)).2 st)
     ∧ ∃ ms l, j = JObj ms ∧ (alloc_json j (heap st)).1 = VRef l)
  ∧ ((∀ body j, header_shape (toString (heap st) code) body ->
                parse_text body ≠ POk j []) ->
     checkVersion code st = (Normal VUndef, st)).
Proof.
  split.
  - intros body j Hshape Hparse.
    pose proof Hshape as (_ & _ & inner & _ & _ & _ & _ & _ & _ & _ & _ & _ & Hbody).
    apply versionRegExp_exec_shape in Hshape.
    rewrite checkVersion_run, Hshape, Hparse. split; [reflexivity |].
    rewrite Hbody in Hparse. apply parse_text_object in Hparse as [ms ->].
    exists ms. cbn [alloc_json]. destruct (_ ms (heap st)) as [ps h1]. by eexists.
  - intros Hnone. rewrite checkVersion_run.
    destruct (versionRegExp_exec _) as [body |] eqn:Hexec; [| reflexivity].
    apply versionRegExp_exec_shape in Hexec.
    destruct (parse_text body) as [j r | |] eqn:Hparse; [| reflexivity..].
    pose proof (parse_text_rest _ _ _ Hparse) as ->.
    by destruct (Hnone body j Hexec).
Qed.

(** *** Cells, references and regions of the heap *)

Lemma keeps_refl n h : keeps n h h.
Proof. by split. Qed.

Lemma keeps_trans n h1 h2 h3 : keeps n h1 h2 -> keeps n h2 h3 -> keeps n h1 h3.
Proof.
  intros [Hl1 H1] [Hl2 H2]. split; [lia |].
  intros l Hl. by rewrite H2, H1.
Qed.

Lemma keeps_le n n' h h' : (n <= n')%nat -> keeps n' h h' -> keeps n h h'.
Proof. intros Hn [Hl Hk]. split; [done |]. intros l Hlt. apply Hk. lia. Qed.

Lemma keeps_app n h new : (n <= length h)%nat -> keeps n h (h ++ new).
Proof.
  intros Hn. split; [rewrite length_app; lia |].
  intros l Hl. apply lookup_app_l. lia.
Qed.

Lemma store_length h l k x : length (store h l k x) = length h.
Proof. unfold store. destruct (h !! l); [apply length_insert | done]. Qed.

Lemma store_lookup_ne h l l' k x : l ≠ l' -> store h l k x !! l' = h !! l'.
Proof.
  intros Hne. unfold store. destruct (h !! l); [| done].
  by apply list_lookup_insert_ne.
Qed.

Lemma store_lookup_eq h l k x c :
  h !! l = Some c ->
  store h l k x !! l = Some (cell_with_props c (assoc_set k x (cell_props c))).
Proof.
  intros Hc. unfold store. rewrite Hc. apply list_lookup_insert_eq.
  by apply lookup_lt_Some in Hc.
Qed.

Lemma keeps_store n h l k x : (n <= l)%nat -> keeps n h (store h l k x).
Proof.
  intros Hn. split; [by rewrite store_length |].
  intros l' Hl'. apply store_lookup_ne. lia.
Qed.

Lemma assoc_set_same {A : Type} k (a : A) ps : assoc k (assoc_set k a ps) = Some a.
Proof.
  induction ps as [| [k' a'] ps IH]; cbn.
  - by destruct (decide (k = k)).
  - destruct (decide (k = k')) as [-> | Hne]; cbn.
    + by destruct (decide (k' = k')).
    + by destruct (decide (k = k')).
Qed.

Lemma assoc_set_other {A : Type} k k' (a : A) ps :
  k ≠ k' -> assoc k' (assoc_set k a ps) = assoc k' ps.
Proof.
  intros Hne. induction ps as [| [k0 a0] ps IH]; cbn.
  - by destruct (decide (k' = k)) as [-> |].
  - destruct (decide (k = k0)) as [-> | Hne0]; cbn.
    + by destruct (decide (k' = k0)) as [-> |].
    + destruct (decide (k' = k0)); [done | apply IH].
Qed.

Lemma cell_props_with c ps : cell_props (cell_with_props c ps) = ps.
Proof. by destruct c. Qed.

Lemma prop_store_same h l k x c :
  h !! l = Some c -> prop (store h l k x) (VRef l) k = x.
Proof.
  intros Hc. cbn. rewrite (store_lookup_eq _ _ _ _ _ Hc), cell_props_with.
  by rewrite assoc_set_same.
Qed.

Lemma prop_store_other h l k k' x v :
  k ≠ k' -> prop (store h l k x) v k' = prop h v k'.
Proof.
  intros Hne. destruct v as [| | | | | l' | |]; try reflexivity. cbn.
  destruct (decide (l = l')) as [<- | Hl].
  - destruct (h !! l) as [c |] eqn:Hc.
    + rewrite (store_lookup_eq _ _ _ _ _ Hc), cell_props_with.
      by rewrite assoc_set_other.
    + unfold store. rewrite Hc. by rewrite Hc.
  - by rewrite store_lookup_ne.
Qed.

Lemma prop_keeps n h h' l k :
  (l < n)%nat -> keeps n h h' -> prop h' (VRef l) k = prop h (VRef l) k.
Proof. intros Hl [_ Hk]. cbn. by rewrite Hk. Qed.

Lemma ref_within_mono n m n' m' v :
  (n' <= n)%nat -> (m <= m')%nat -> ref_within n m v -> ref_within n' m' v.
Proof. destruct v; cbn; try done. lia. Qed.

Lemma cell_within_mono n m n' m' c :
  (n' <= n)%nat -> (m <= m')%nat -> cell_within n m c -> cell_within n' m' c.
Proof.
  intros Hn Hm Hc. unfold cell_within. eapply Forall_impl; [exact Hc |].
  intros v. by apply ref_within_mono.
Qed.

Lemma region_closed_app n h new :
  region_closed n h ->
  Forall (cell_within n (length (h ++ new))) new ->
  region_closed n (h ++ new).
Proof.
  intros Hh Hnew l c Hl Hc.
  destruct (decide (l < length h)%nat) as [Hlt | Hge].
  - rewrite lookup_app_l in Hc by done.
    eapply cell_within_mono; [| | by eapply Hh]; [done |].
    rewrite length_app. lia.
  - rewrite lookup_app_r in Hc by lia.
    rewrite Forall_forall in Hnew. apply Hnew.
    by eapply list_elem_of_lookup_2.
Qed.

Lemma assoc_set_values {A : Type} (P : A -> Prop) k a ps :
  P a -> Forall P (List.map snd ps) -> Forall P (List.map snd (assoc_set k a ps)).
Proof.
  intros Ha. induction ps as [| [k' a'] ps IH]; cbn; intros Hps.
  - by constructor.
  - apply Forall_cons in Hps as [Ha' Hps].
    destruct (decide (k = k')); cbn; constructor; auto.
Qed.

Lemma cell_within_set n m c k x :
  cell_within n m c -> ref_within n m x ->
  cell_within n m (cell_with_props c (assoc_set k x (cell_props c))).
Proof.
  unfold cell_within. destruct c as [ps | es ps]; cbn; intros Hc Hx.
  - by apply assoc_set_values.
  - apply Forall_app in Hc as [Hes Hps]. apply Forall_app. split; [done |].
    by apply assoc_set_values.
Qed.

Lemma region_closed_store n h l k x :
  region_closed n h -> ref_within n (length h) x ->
  region_closed n (store h l k x).
Proof.
  intros Hh Hx l' c Hl' Hc. rewrite store_length.
  destruct (decide (l = l')) as [<- | Hne].
  - destruct (h !! l) as [c0 |] eqn:Hc0.
    + rewrite (store_lookup_eq _ _ _ _ _ Hc0) in Hc. injection Hc as <-.
      apply cell_within_set; [by eapply Hh | done].
    + unfold store in Hc. rewrite Hc0 in Hc. cbv beta iota in Hc. congruence.
  - rewrite store_lookup_ne in Hc by done. by eapply Hh.
Qed.

(** A value stored in a closed region refers into the region. *)
Lemma prop_within n h l k :
  region_closed n h -> (n <= l)%nat -> ref_within n (length h) (prop h (VRef l) k).
Proof.
  intros Hh Hl. cbn. destruct (h !! l) as [c |] eqn:Hc; [| done].
  destruct (assoc k (cell_props c)) as [x |] eqn:Hx; [| done].
  specialize (Hh l c Hl Hc). unfold cell_within in Hh.
  rewrite Forall_forall in Hh. apply Hh.
  assert (Hin : In x (List.map snd (cell_props c))).
  { clear -Hx. induction (cell_props c) as [| [k' a] ps IH]; [done |].
    cbn in *. destruct (decide (k = k')); [left; congruence | right; auto]. }
  apply list_elem_of_In. destruct c; cbn in *; [done |].
  apply in_or_app. by right.
Qed.

(** *** [JSON.parse] allocates, [JSON.stringify] reads *)

Lemma alloc_json_arr js h :
  alloc_json (JArr js) h
  = let '(vs, h1) := alloc_elems js h in (VRef (length h1), h1 ++ [CArr vs []]).
Proof. reflexivity. Qed.

Lemma alloc_json_obj ms h :
  alloc_json (JObj ms) h
  = let '(ps, h1) := alloc_members ms h in
    (VRef (length h1),
     h1 ++ [CObj (fold_left (fun acc kv => assoc_set kv.1 kv.2 acc) ps [])]).
Proof. reflexivity. Qed.

Lemma allocated_step h v h1 vs h2 :
  allocated h [v] h1 -> allocated h1 vs h2 -> allocated h (v :: vs) h2.
Proof.
  intros (new1 & -> & Hv & Hn1) (new2 & -> & Hvs & Hn2).
  exists (new1 ++ new2). rewrite app_assoc. split; [done |].
  rewrite !length_app in *. split.
  - constructor.
    + apply Forall_inv in Hv. eapply ref_within_mono; [| | exact Hv]; lia.
    + eapply Forall_impl; [exact Hvs |]. intros x. apply ref_within_mono; lia.
  - apply Forall_app. split.
    + eapply Forall_impl; [exact Hn1 |]. intros c. apply cell_within_mono; lia.
    + eapply Forall_impl; [exact Hn2 |]. intros c. apply cell_within_mono; lia.
Qed.

Lemma fold_assoc_set_values (P : value -> Prop) ps : ∀ acc,
  Forall P (List.map snd ps) -> Forall P (List.map snd acc) ->
  Forall P (List.map snd (fold_left (fun acc kv => assoc_set kv.1 kv.2 acc) ps acc)).
Proof.
  induction ps as [| [k v] ps IH]; intros acc Hps Hacc; [done |].
  cbn in *. apply Forall_cons in Hps as [Hv Hps].
  apply IH; [done |]. by apply assoc_set_values.
Qed.

Lemma alloc_json_allocated j : ∀ h,
  allocated h [(alloc_json j h).1] (alloc_json j h).2.
Proof.
  induction j as [| b | lit | s | js IHjs | ms IHms] using json_ind'; intros h;
    try (exists []; rewrite app_nil_r; repeat split; by repeat constructor).
  - assert (Hel : ∀ h, allocated h (alloc_elems js h).1 (alloc_elems js h).2).
    { clear h. induction js as [| j js IH]; intros h.
      - exists []. rewrite app_nil_r. by repeat split.
      - apply Forall_cons in IHjs as [Hj Hjs]. cbn [alloc_elems].
        specialize (Hj h). destruct (alloc_json j h) as [v h1].
        specialize (IH Hjs h1). destruct (alloc_elems js h1) as [vs h2].
        by eapply allocated_step. }
    rewrite alloc_json_arr. specialize (Hel h).
    destruct (alloc_elems js h) as [vs h1]. cbn [fst snd] in Hel.
    destruct Hel as (new & -> & Hvs & Hnew). cbn [fst snd]. exists (new ++ [CArr vs []]). rewrite app_assoc.
    split; [done |]. rewrite !length_app in *. cbn [length]. split.
    + constructor; [unfold ref_within; lia | constructor].
    + apply Forall_app. split.
      * eapply Forall_impl; [exact Hnew |]. intros c. apply cell_within_mono; lia.
      * constructor; [| constructor]. unfold cell_within. cbn. rewrite app_nil_r.
        eapply Forall_impl; [exact Hvs |]. intros x. apply ref_within_mono; lia.
  - assert (Hel : ∀ h, allocated h (List.map snd (alloc_members ms h).1)
                         (alloc_members ms h).2).
    { clear h. induction ms as [| [k j] ms IH]; intros h.
      - exists []. rewrite app_nil_r. by repeat split.
      - apply Forall_cons in IHms as [Hj Hms]. cbn [alloc_members].
        specialize (Hj h). cbn [snd] in Hj. destruct (alloc_json j h) as [v h1].
        specialize (IH Hms h1). destruct (alloc_members ms h1) as [ps h2].
        cbn [fst snd List.map] in *. by eapply allocated_step. }
    rewrite alloc_json_obj. specialize (Hel h).
    destruct (alloc_members ms h) as [ps h1]. cbn [fst snd] in Hel.
    destruct Hel as (new & -> & Hvs & Hnew). cbn [fst snd].
    exists (new ++ [CObj (fold_left (fun acc kv => assoc_set kv.1 kv.2 acc) ps [])]).
    rewrite app_assoc. split; [done |]. rewrite !length_app in *. cbn [length]. split.
    + constructor; [unfold ref_within; lia | constructor].
    + apply Forall_app. split.
      * eapply Forall_impl; [exact Hnew |]. intros c. apply cell_within_mono; lia.
      * constructor; [| constructor]. unfold cell_within. cbn [cell_values].
        apply fold_assoc_set_values; [| constructor].
        eapply Forall_impl; [exact Hvs |]. intros x. apply ref_within_mono; lia.
Qed.

(** [JSON.stringify] reads the cells it reaches only: on two heaps that
    agree on a set of locations closed under the references of the first,
    it gives the same tree for a value of that set. *)
Lemma serialize_agree (P : loc -> Prop) h h2 :
  (∀ l, P l -> h2 !! l = h !! l) ->
  (∀ l c, P l -> h !! l = Some c ->
          Forall (fun v => ∀ l', v = VRef l' -> P l') (cell_values c)) ->
  ∀ fuel stack v, (∀ l', v = VRef l' -> P l') ->
    serialize fuel stack h2 v = serialize fuel stack h v.
Proof.
  intros Hagree Hclosed. induction fuel as [| f IH]; intros stack v Hv;
    destruct v as [| | | | | l | |]; try reflexivity.
  cbn [serialize]. destruct (existsb _ stack); [reflexivity |].
  rewrite (Hagree l (Hv l eq_refl)).
  destruct (h !! l) as [c |] eqn:Hc; [| reflexivity].
  pose proof (Hclosed l c (Hv l eq_refl) Hc) as Hvals.
  rewrite Forall_forall in Hvals. destruct c as [ps | es ps]; cbn [cell_values] in Hvals.
  - assert (Hmap : List.map (fun kv => serialize f (l :: stack) h2 kv.2) ps
                   = List.map (fun kv => serialize f (l :: stack) h kv.2) ps).
    { apply map_ext_in. intros [k x] Hin. apply IH. apply Hvals.
      apply list_elem_of_In. by apply (in_map snd) in Hin. }
    by rewrite Hmap.
  - assert (Hmap : List.map (serialize f (l :: stack) h2) es
                   = List.map (serialize f (l :: stack) h) es).
    { apply map_ext_in. intros x Hin. apply IH. apply Hvals.
      apply list_elem_of_In. apply in_or_app. by left. }
    by rewrite Hmap.
Qed.

(** *** Creation: the record (lines 42 to 47) *)

Lemma orEmpty_run a st :
  orEmpty a st
  = (Normal (or_empty a (heap st)).1, set_heap (or_empty a (heap st)).2 st).
Proof.
  unfold orEmpty, or_empty. destruct (toBoolean a); [| reflexivity].
  by destruct st.
Qed.

Lemma versionRegExp_exec_brace s body :
  versionRegExp_exec s = Some body -> ∃ x, body = c_lbrace :: x.
Proof.
  unfold versionRegExp_exec.
  repeat match goal with
         | |- context [match ?x with _ => _ end] => destruct x; try discriminate
         end.
  intros [= <-]. by eexists.
Qed.

Lemma checkVersion_descriptor code st :
  checkVersion code st
  = match descriptor (toString (heap st) code) with
    | Some ms =>
        (Normal (alloc_json (JObj ms) (heap st)).1,
         set_heap (alloc_json (JObj ms) (heap st)).2 st)
    | None => (Normal VUndef, st)
    end.
Proof.
  rewrite checkVersion_run. unfold descriptor.
  destruct (versionRegExp_exec _) as [body |] eqn:Hexec; [| reflexivity].
  destruct (parse_text body) as [j r | |] eqn:Hparse; [| reflexivity..].
  apply versionRegExp_exec_brace in Hexec as [x ->].
  by destruct (parse_text_object _ _ _ Hparse) as [ms ->].
Qed.

Lemma initInfo_run id code st :
  ∃ l hA,
    info_alloc (toString (heap st) code) (heap st) = (VRef l, hA)
    ∧ initInfo id code st = (Normal (VRef l), record_state id l (set_heap hA st)).
Proof.
  unfold initInfo, info_alloc. bind_step. rewrite checkVersion_descriptor.
  destruct (descriptor _) as [ms |].
  - rewrite alloc_json_obj. destruct (alloc_members ms (heap st)) as [ps h1].
    cbn [fst snd]. eexists _, _. split; [reflexivity |].
    bind_step. rewrite orEmpty_run. unfold or_empty.
    cbn [toBoolean fst snd heap set_heap]. cbv beta iota.
    bind_step. cbn [getProp]. unfold gets at 1. cbv beta iota.
    bind_step. unfold lookupFramework, gets at 1. cbv beta iota.
    unfold record_state. cbn [heap frameworks set_heap outside instanceMap].
    destruct (framework_lookup (frameworks st) _) as [b |]; reflexivity.
  - eexists _, _. split; [reflexivity |].
    bind_step. rewrite orEmpty_run. unfold or_empty.
    cbn [toBoolean fst snd heap set_heap]. cbv beta iota.
    bind_step. cbn [getProp]. unfold gets at 1. cbv beta iota.
    bind_step. unfold lookupFramework, gets at 1. cbv beta iota.
    unfold record_state. cbn [heap frameworks set_heap outside instanceMap].
    destruct (framework_lookup (frameworks st) _) as [b |]; reflexivity.
Qed.

Lemma info_alloc_allocated s h l hA :
  info_alloc s h = (VRef l, hA) ->
  allocated h [VRef l] hA ∧ ∃ ps, hA !! l = Some (CObj ps).
Proof.
  unfold info_alloc. destruct (descriptor s) as [ms |].
  - intros Halloc. pose proof (alloc_json_allocated (JObj ms) h) as Hal.
    rewrite Halloc in Hal. split; [exact Hal |].
    rewrite alloc_json_obj in Halloc. destruct (alloc_members ms h) as [ps h1].
    injection Halloc as <- <-. eexists.
    rewrite lookup_app_r by lia. by rewrite Nat.sub_diag.
  - intros [= <- <-]. split.
    + exists [CObj []]. split; [done |]. rewrite length_app. cbn. split.
      * constructor; [unfold ref_within; lia | constructor].
      * constructor; [| constructor]. constructor.
    + eexists. rewrite lookup_app_r by lia. by rewrite Nat.sub_diag.
Qed.

(** *** Creation: the configuration snapshot (lines 50 to 53) *)

Lemma same_fields_set_heap st h : same_fields st (set_heap h st).
Proof. by repeat split. Qed.

Lemma alloc_json_value j h :
  match (alloc_json j h).1 with
  | VError _ _ | VUndef | VNative _ => False
  | _ => True
  end.
Proof.
  destruct j as [| b | lit | s | js | ms]; try exact I.
  - rewrite alloc_json_arr. by destruct (alloc_elems js h).
  - rewrite alloc_json_obj. by destruct (alloc_members ms h).
Qed.

Lemma region_closed_alloc n0 h vs h' :
  (n0 <= length h)%nat -> region_closed n0 h -> allocated h vs h' ->
  region_closed n0 h' ∧ keeps (length h) h h'
  ∧ Forall (ref_within n0 (length h')) vs.
Proof.
  intros Hn Hh (new & -> & Hvs & Hnew). split; [| split].
  - apply region_closed_app; [done |].
    eapply Forall_impl; [exact Hnew |]. intros c. by apply cell_within_mono.
  - by apply keeps_app.
  - eapply Forall_impl; [exact Hvs |]. intros x. by apply ref_within_mono.
Qed.

Lemma region_closed_empty n0 h :
  region_closed n0 h -> region_closed n0 (h ++ [CObj []]).
Proof.
  intros Hh. apply region_closed_app; [done |].
  constructor; [| constructor]. constructor.
Qed.

Lemma initConfig_spec n0 l config st out st' :
  (n0 <= l < length (heap st))%nat ->
  initConfig (VRef l) config st = (out, st') ->
  same_fields st st'
  ∧ keeps (length (heap st)) (heap st) (heap st')
  ∧ (region_closed n0 (heap st) -> region_closed n0 (heap st'))
  ∧ match out with
    | Normal cfg =>
        ∃ lc, cfg = VRef lc
              ∧ (length (heap st) <= lc < length (heap st'))%nat
              ∧ prop (heap st') cfg (str "bundleVersion")
                = prop (heap st) (VRef l) (str "version")
              ∧ ∃ msg, trace st' = trace st ++ [EDebug msg]
    | Throw _ => trace st' = trace st
    end.
Proof.
  intros Hl. unfold initConfig.
  (* c = config || {} *)
  bind_step. rewrite orEmpty_run.
  destruct (or_empty config (heap st)) as [c ha] eqn:Hor. cbn [fst snd]. cbv beta iota.
  assert (Hka : keeps (length (heap st)) (heap st) ha).
  { unfold or_empty in Hor. destruct (toBoolean config); injection Hor as <- <-;
      [apply keeps_refl | by apply keeps_app]. }
  assert (Hca : region_closed n0 (heap st) -> region_closed n0 ha).
  { unfold or_empty in Hor. destruct (toBoolean config); injection Hor as <- <-;
      [done | apply region_closed_empty]. }
  assert (Hla : (length (heap st) <= length ha)%nat) by apply Hka.
  (* JSON.stringify *)
  bind_step. unfold JSON_stringify at 1. cbn [heap set_heap].
  destruct (JSON_stringify_tree ha c) as [[j1 |] |]; cbv beta iota.
  2,3: intros [= <- <-]; cbn [heap trace set_heap];
    (split; [apply same_fields_set_heap |]);
    (split; [assumption |]); (split; [assumption | reflexivity]).
  (* JSON.parse *)
  bind_step. unfold JSON_parse_tree at 1. cbn [heap set_heap].
  pose proof (alloc_json_allocated j1 ha) as Hal1.
  pose proof (alloc_json_value j1 ha) as Hv1.
  destruct (alloc_json j1 ha) as [cfg hb]. cbn [fst snd] in Hal1, Hv1. cbv beta iota.
  assert (Hkb : keeps (length (heap st)) (heap st) hb).
  { eapply keeps_trans; [exact Hka |]. destruct Hal1 as (new & -> & _).
    apply keeps_app. lia. }
  assert (Hcb : region_closed n0 (heap st) -> region_closed n0 hb).
  { intros Hc. eapply region_closed_alloc; [| by apply Hca | exact Hal1]. lia. }
  assert (Hlb : (length ha <= length hb)%nat).
  { destruct Hal1 as (new & -> & _). rewrite length_app. lia. }
  (* config.bundleVersion = info.version *)
  bind_step. cbn [getProp]. unfold gets at 1. cbn [heap set_heap]. cbv beta iota.
  bind_step.
  destruct cfg as [| | b | n | t | lc | k msg | nm]; cbv beta iota in Hv1; try done;
    try (cbn [setProp]; unfold throw; cbv beta iota; intros [= <- <-];
         cbn [heap trace set_heap];
         (split; [by repeat split |]);
         (split; [assumption |]); (split; [assumption | reflexivity])).
  cbn [setProp]. unfold modify at 1. cbn [heap set_heap]. cbv beta iota.
  assert (Hlc : (length ha <= lc < length hb)%nat).
  { destruct Hal1 as (new & _ & Hvs & _). by apply Forall_inv in Hvs. }
  set (version := prop hb (VRef l) (str "version")).
  set (hc := store hb lc (str "bundleVersion") version).
  assert (Hkc : keeps (length (heap st)) (heap st) hc).
  { eapply keeps_trans; [exact Hkb |]. apply keeps_store. lia. }
  assert (Hcc : region_closed n0 (heap st) -> region_closed n0 hc).
  { intros Hc. apply region_closed_store; [by apply Hcb |].
    apply prop_within; [by apply Hcb | lia]. }
  assert (Hversion : version = prop (heap st) (VRef l) (str "version")).
  { unfold version. eapply prop_keeps; [| exact Hkb]. lia. }
  assert (Hbv : prop hc (VRef lc) (str "bundleVersion") = version).
  { destruct (lookup_lt_is_Some_2 hb lc) as [cb Hcb']; [lia |].
    by eapply prop_store_same. }
  assert (Hlen_c : length hc = length hb) by apply store_length.
  (* config.env = JSON.parse(JSON.stringify(global.WXEnvironment || {})) *)
  bind_step. unfold gets at 1. cbn [WXEnvironment set_heap]. cbv beta iota.
  bind_step. rewrite orEmpty_run. cbn [heap set_heap].
  destruct (or_empty (WXEnvironment st) hc) as [e hd] eqn:Hor'. cbn [fst snd].
  cbv beta iota.
  assert (Hkd : keeps (length hc) hc hd).
  { unfold or_empty in Hor'. destruct (toBoolean _); injection Hor' as <- <-;
      [apply keeps_refl | by apply keeps_app]. }
  assert (Hcd : region_closed n0 (heap st) -> region_closed n0 hd).
  { intros Hc. unfold or_empty in Hor'.
    destruct (toBoolean _); injection Hor' as <- <-; [by apply Hcc |].
    apply region_closed_empty. by apply Hcc. }
  set (sd := set_heap hd _).
  bind_step. unfold JSON_stringify at 1. replace (heap sd) with hd by reflexivity.
  assert (Hthrow : same_fields st sd
                   ∧ keeps (length (heap st)) (heap st) (heap sd)
                   ∧ (region_closed n0 (heap st) -> region_closed n0 (heap sd))
                   ∧ trace sd = trace st).
  { cbn [heap trace set_heap]. split; [by repeat split |].
    split; [| split; [assumption | reflexivity]].
    eapply keeps_trans; [exact Hkc |]. eapply keeps_le; [| exact Hkd].
    destruct Hkc. lia. }
  destruct (JSON_stringify_tree hd e) as [[j2 |] |]; cbv beta iota.
  2,3: by intros [= <- <-].
  bind_step. unfold JSON_parse_tree at 1. replace (heap sd) with hd by reflexivity.
  pose proof (alloc_json_allocated j2 hd) as Hal2.
  destruct (alloc_json j2 hd) as [env he]. cbn [fst snd] in Hal2. cbv beta iota.
  bind_step. cbn [setProp]. unfold modify at 1. cbn [heap set_heap]. cbv beta iota.
  set (hf := store he lc (str "env") env).
  bind_step. cbn [getProp]. unfold gets at 1. cbv beta iota.
  bind_step. cbn [getProp]. unfold gets at 1. cbv beta iota.
  bind_step. unfold gets at 1. cbv beta iota.
  bind_step. unfold console_debug, modify at 1. cbv beta iota.
  unfold ret. intros [= <- <-]. cbn [heap trace set_heap set_trace].
  assert (Hld : (length hc <= length hd)%nat) by apply Hkd.
  assert (Hle : (length hd <= length he)%nat).
  { destruct Hal2 as (new & -> & _). rewrite length_app. lia. }
  assert (Hke : keeps (length hd) hd he).
  { destruct Hal2 as (new & -> & _). by apply keeps_app. }
  assert (Hlf : length hf = length he) by apply store_length.
  split; [by repeat split |]. split; [| split].
  - destruct Hkc as [Hlenc Hkc']. pose proof (conj Hlenc Hkc') as Hkc.
    eapply keeps_trans; [exact Hkc |].
    eapply keeps_trans; [eapply keeps_le; [| exact Hkd]; lia |].
    eapply keeps_trans; [eapply keeps_le; [| exact Hke]; lia |].
    apply keeps_store. lia.
  - intros Hc.
    destruct (region_closed_alloc n0 hd [env] he) as (Hce & _ & Henv);
      [lia | by apply Hcd | exact Hal2 |].
    apply region_closed_store; [exact Hce | by apply Forall_inv in Henv].
  - exists lc. split; [done |]. split; [lia |]. split; [| by eexists].
    rewrite <- Hversion, <- Hbv. unfold hf.
    rewrite prop_store_other by done.
    transitivity (prop hd (VRef lc) (str "bundleVersion")).
    + eapply prop_keeps; [| exact Hke]. lia.
    + eapply prop_keeps; [| exact Hkd]. lia.
Qed.

(** *** Creation: the services (lines 56 to 63) and the delegation *)

Lemma same_module_refl st : same_module st st.
Proof. by repeat split. Qed.

Lemma same_module_trans st1 st2 st3 :
  same_module st1 st2 -> same_module st2 st3 -> same_module st1 st3.
Proof.
  unfold same_module. intros (-> & -> & -> & -> & -> & ->) (-> & -> & -> & -> & -> & ->).
  by repeat split.
Qed.

Lemma extends_same_module st st' new es : extends st st' new es -> same_module st st'.
Proof. unfold extends, same_module. tauto. Qed.

Lemma assign_props_run t ps : ∀ i st,
  ∃ h', forEach ps i (fun _ kv => setProp (VRef t) kv.1 kv.2) st
        = (Normal (), set_heap h' st)
        ∧ length h' = length (heap st)
        ∧ ∀ l, l ≠ t -> h' !! l = heap st !! l.
Proof.
  induction ps as [| [k x] ps IH]; intros i st.
  - exists (heap st). cbn. split; [by destruct st | done].
  - cbn [forEach]. bind_step. cbn [setProp fst snd]. unfold modify at 1.
    cbv beta iota. cbn [fst snd].
    destruct (IH (S i) (set_heap (store (heap st) t k x) st)) as (h' & Hrun & Hlen & Hne).
    cbn [setProp] in Hrun. exists h'. rewrite Hrun. cbn [heap set_heap] in *. split; [done |].
    rewrite Hlen, store_length. split; [done |].
    intros l Hl. rewrite Hne by done. by apply store_lookup_ne.
Qed.

Lemma Object_assign_run t source st :
  ∃ h', Object_assign (VRef t) source st = (Normal (), set_heap h' st)
        ∧ length h' = length (heap st)
        ∧ ∀ l, l ≠ t -> h' !! l = heap st !! l.
Proof.
  unfold Object_assign. bind_step. unfold gets at 1. cbv beta iota.
  apply assign_props_run.
Qed.

Lemma create_hooks_run id info config t n ss : ∀ i st out st',
  (n <= t)%nat -> (n <= length (heap st))%nat ->
  forEach ss i (create_body id info config (VRef t)) st = (out, st') ->
  same_module st st'
  ∧ keeps n (heap st) (heap st')
  ∧ ∃ es, trace st' = trace st ++ es ∧ Forall (create_event id config) es.
Proof.
  induction ss as [| s ss IH]; intros i st out st' Ht Hn Hrun.
  - cbn in Hrun. injection Hrun as <- <-.
    split; [apply same_module_refl |]. split; [apply keeps_refl |].
    exists []. by rewrite app_nil_r.
  - cbn [forEach] in Hrun. revert Hrun. bind_step. unfold create_body at 1.
    destruct (create s) as [f |].
    + bind_step. unfold gets at 1. cbv beta iota.
      bind_step. unfold newObject at 1. cbv beta iota.
      set (ctx := length (heap st)). set (st1 := set_heap _ st).
      bind_step.
      destruct (call (EService i OnCreate) f [id; VRef ctx; config] st1)
        as [o st2] eqn:Hcall.
      apply call_extends in Hcall as (new & Hext & _).
      assert (H12 : same_module st st2 ∧ keeps n (heap st) (heap st2)
                    ∧ trace st2 = trace st ++ [EService i OnCreate [id; VRef ctx; config]]).
      { pose proof (extends_same_module _ _ _ _ Hext) as Hsm.
        destruct Hext as (Hh & Htr & _). rewrite Hh, Htr. unfold st1 in *.
        cbn [heap trace set_heap] in *. split; [exact Hsm |]. split; [| done].
        rewrite <- app_assoc. by apply keeps_app. }
      destruct H12 as (Hsm2 & Hk2 & Htr2).
      destruct o as [result | e]; cbv beta iota.
      * destruct (Object_assign_run t result st2) as (h3 & Hrun3 & Hlen3 & Hne3).
        rewrite Hrun3. cbv beta iota. intros Hrun.
        apply IH in Hrun as (Hsm & Hk & es & Htr & Hes); [| done |].
        2:{ cbn [heap set_heap]. rewrite Hlen3. destruct Hk2. lia. }
        cbn [heap trace set_heap] in *.
        split; [by eapply same_module_trans |]. split.
        -- eapply keeps_trans; [exact Hk2 |]. eapply keeps_trans; [| exact Hk].
           split; [lia |]. intros l Hl. apply Hne3. lia.
        -- exists (EService i OnCreate [id; VRef ctx; config] :: es).
           rewrite Htr, Htr2, <- app_assoc. split; [done |].
           constructor; [by eexists _, _ | done].
      * intros [= <- <-]. split; [done |]. split; [done |].
        eexists. split; [exact Htr2 |]. constructor; [by eexists _, _ | constructor].
    + unfold ret at 1. cbv beta iota. intros Hrun. by eapply IH.
Qed.

(** What [createInstance] does for an id without record: the record, the
    snapshot, then the create hooks and the backend. *)
Lemma createInstance_fresh id code config data st out st' :
  instanceMap st !! toString (heap st) id = None ->
  inherited (toString (heap st) id) = false ->
  createInstance id code config data st = (out, st') ->
  ∃ l hA oc st_c,
    let st_i := record_state id l (set_heap hA st) in
    info_alloc (toString (heap st) code) (heap st) = (VRef l, hA)
    ∧ initConfig (VRef l) config st_i = (oc, st_c)
    ∧ keeps (length (heap st_c)) (heap st_c) (heap st')
    ∧ same_module st_c st'
    ∧ match oc with
      | Throw e => out = Throw e ∧ st' = st_c
      | Normal cfg =>
          ∃ es, trace st' = trace st_c ++ es
                ∧ Forall (snapshot_event id code cfg data) es
                ∧ ∀ r, out = Normal r ->
                    ∃ name b so es',
                      assoc name (frameworks st) = Some b
                      ∧ (∀ f, prop (heap st_i) (VRef l) (str "framework") = VStr f
                              -> name = f)
                      ∧ es = es' ++ [EBackend name (str "createInstance")
                                       [id; code; cfg; data; so]]
      end.
Proof.
  intros Hnone Hown. unfold createInstance.
  bind_step. rewrite lookupInstance_run, (instance_lookup_free _ _ Hnone Hown).
  cbn [toBoolean negb]. cbv beta iota.
  bind_step. destruct (initInfo_run id code st) as (l & hA & Halloc & ->).
  cbv beta iota.
  set (st_i := record_state id l (set_heap hA st)).
  assert (Hli : (0 <= l < length (heap st_i))%nat).
  { destruct (info_alloc_allocated _ _ _ _ Halloc) as [(new & Hnew & Hv & _) _].
    apply Forall_inv in Hv.
    unfold st_i, record_state. cbn [heap set_heap set_instanceMap].
    rewrite store_length.
    destruct (framework_lookup _ _); [| rewrite store_length]; split; try lia;
      apply Hv. }
  bind_step. destruct (initConfig (VRef l) config st_i) as [oc st_c] eqn:Hcfg.
  intros Hrun. exists l, hA, oc, st_c. cbv zeta. fold st_i.
  split; [done |]. split; [done |]. revert Hrun.
  destruct oc as [cfg | e]; cbv beta iota.
  2:{ intros [= <- <-]. split; [apply keeps_refl |].
      split; [apply same_module_refl | done]. }
  destruct (initConfig_spec 0 l config st_i _ _ Hli Hcfg) as ((Hfw & _) & Hki & _).
  change (frameworks st_i) with (frameworks st) in Hfw.
  (* initServices *)
  bind_step. unfold initServices. bind_step. unfold newObject at 1. cbv beta iota.
  set (t := length (heap st_c)). set (st1 := set_heap _ st_c).
  bind_step. unfold gets at 1. cbv beta iota. bind_step.
  change (forEach (services st1) 0 _ st1)
    with (forEach (services st1) 0 (create_body id (VRef l) cfg (VRef t)) st1).
  destruct (forEach (services st1) 0 _ st1) as [o st2] eqn:Hloop.
  apply (create_hooks_run _ _ _ t t) in Hloop as (Hsm2 & Hk2 & es & Htr2 & Hes);
    [| done | unfold st1; cbn [heap set_heap]; rewrite length_app; lia].
  assert (Hk12 : keeps t (heap st_c) (heap st2)).
  { eapply keeps_trans; [| exact Hk2]. unfold st1. cbn [heap set_heap].
    by apply keeps_app. }
  assert (Hsm12 : same_module st_c st2).
  { eapply same_module_trans; [| exact Hsm2]. by repeat split. }
  assert (Htr12 : trace st2 = trace st_c ++ es) by (by rewrite Htr2).
  assert (Hes' : Forall (snapshot_event id code cfg data) es).
  { eapply Forall_impl; [exact Hes |]. intros ev Hev. by left. }
  destruct o as [[] | e]; cbv beta iota.
  2:{ intros [= <- <-]. split; [done |]. split; [done |].
      exists es. split; [done |]. split; [done | discriminate]. }
  unfold ret at 1. cbv beta iota.
  (* the delegation *)
  bind_step. cbn [getProp]. unfold gets at 1. cbv beta iota.
  bind_step. unfold lookupFramework, gets at 1. cbv beta iota.
  set (name := toString (heap st2) (prop (heap st2) (VRef l) (str "framework"))).
  destruct Hsm12 as (Hfw2 & Hrest2). rewrite Hfw2.
  destruct (framework_lookup (frameworks st_c) name) as [[name' b] |] eqn:Hfound;
    cbn [callMethod].
  2:{ unfold throw. intros [= <- <-]. split; [done |]. split; [by split |].
      exists es. split; [done |]. split; [done | discriminate]. }
  pose proof (framework_lookup_name _ _ _ Hfound) as Hname. cbn [fst] in Hname.
  subst name'.
  destruct (assoc (str "createInstance") b) as [f |] eqn:Hcreate.
  2:{ unfold throw. intros [= <- <-]. split; [done |]. split; [by split |].
      exists es. split; [done |]. split; [done | discriminate]. }
  assert (Hb : assoc name (frameworks st_c) = Some b).
  { unfold framework_lookup in Hfound.
    destruct (assoc name (frameworks st_c)); [by injection Hfound as <- |].
    destruct (inherited name); [| done].
    injection Hfound as <-. discriminate Hcreate. }
  intros Hcall. apply call_extends in Hcall as (new & Hext & _).
  pose proof (extends_same_module _ _ _ _ Hext) as Hsm3.
  destruct Hext as (Hh3 & Htr3 & _).
  split.
  { eapply keeps_trans; [exact Hk12 |]. rewrite Hh3. apply keeps_app.
    destruct Hk12. unfold t. lia. }
  split; [eapply same_module_trans; [| exact Hsm3]; by split |].
  exists (es ++ [EBackend name (str "createInstance") [id; code; cfg; data; VRef t]]).
  split; [by rewrite Htr3, Htr12, app_assoc |]. split.
  { apply Forall_app. split; [done |]. constructor; [| constructor].
    right. by eexists _, _. }
  intros r _. exists name, b, (VRef t), es. rewrite <- Hfw. split; [done |].
  split; [| done].
  intros f' Hf'. unfold name.
  assert (Hprop : prop (heap st2) (VRef l) (str "framework")
                  = prop (heap st_i) (VRef l) (str "framework")).
  { transitivity (prop (heap st_c) (VRef l) (str "framework")).
    - eapply prop_keeps; [| exact Hk12]. unfold t. destruct Hki. lia.
    - eapply prop_keeps; [| exact Hki]. lia. }
  by rewrite Hprop, Hf'.
Qed.

(** An id that names a member of [Object.prototype] is refused. *)
Lemma createInstance_inherited id code config data st :
  instanceMap st !! toString (heap st) id = None ->
  inherited (toString (heap st) id) = true ->
  createInstance id code config data st = (Normal (invalid_id (heap st) id), st).
Proof.
  intros Hnone Hin. unfold createInstance.
  bind_step. by rewrite lookupInstance_run, instance_lookup_inherited.
Qed.

(** A creation that makes a call is the creation of an id that names no
    member of [Object.prototype]. *)
Lemma createInstance_event_fresh id code config data st out st' es e :
  instanceMap st !! toString (heap st) id = None ->
  createInstance id code config data st = (out, st') ->
  trace st' = trace st ++ es ->
  In e es ->
  inherited (toString (heap st) id) = false.
Proof.
  intros Hnone Hrun Htrace Hin.
  destruct (inherited (toString (heap st) id)) eqn:Hown; [| done].
  rewrite createInstance_inherited in Hrun by done. injection Hrun as _ <-.
  assert (Hes : es = []).
  { apply (app_inv_head (trace st)). by rewrite app_nil_r. }
  by rewrite Hes in Hin.
Qed.

(** *** Creation: the binding of the instance *)

Lemma toString_primitive h h' v : primitive v = true -> toString h v = toString h' v.
Proof. by destruct v as [| | [] | | | | |]. Qed.

Lemma record_state_facts id l hA st :
  allocated (heap st) [VRef l] hA ->
  (∃ ps, hA !! l = Some (CObj ps)) ->
  let st_i := record_state id l (set_heap hA st) in
  instanceMap st_i = <[toString (heap st_i) id := VRef l]> (instanceMap st)
  ∧ trace st_i = trace st
  ∧ frameworks st_i = frameworks st
  ∧ length (heap st_i) = length hA
  ∧ keeps (length (heap st)) (heap st) (heap st_i)
  ∧ region_closed (length (heap st)) (heap st_i)
  ∧ prop (heap st_i) (VRef l) (str "version") = prop hA (VRef l) (str "version")
  ∧ prop (heap st_i) (VRef l) (str "framework")
    = bound_framework (frameworks st) hA (VRef l).
Proof.
  intros Hal [ps Hps] st_i.
  pose proof Hal as (new & Hnew & Hv & Hcells). apply Forall_inv in Hv.
  unfold ref_within in Hv.
  assert (HcA : region_closed (length (heap st)) hA).
  { rewrite Hnew. intros l' c Hl' Hc. rewrite lookup_app_r in Hc by done.
    rewrite Forall_forall in Hcells. rewrite <- Hnew. apply Hcells.
    by eapply list_elem_of_lookup_2. }
  assert (HkA : keeps (length (heap st)) (heap st) hA).
  { rewrite Hnew. by apply keeps_app. }
  unfold st_i, record_state, bound_framework.
  cbn [heap frameworks instanceMap trace outside set_heap set_instanceMap].
  set (name := toString hA (prop hA (VRef l) (str "framework"))).
  set (h1 := if framework_lookup (frameworks st) name is Some _ then hA
             else store hA l (str "framework") (VStr (str "Weex"))).
  assert (Hlen1 : length h1 = length hA).
  { unfold h1. destruct (framework_lookup _ _); [done | apply store_length]. }
  assert (Hk1 : keeps (length (heap st)) hA h1).
  { unfold h1. destruct (framework_lookup _ _); [apply keeps_refl | apply keeps_store; lia]. }
  assert (Hc1 : region_closed (length (heap st)) h1).
  { unfold h1. destruct (framework_lookup _ _); [done | by apply region_closed_store]. }
  split; [done |]. split; [done |]. split; [done |].
  split; [by rewrite store_length |]. split.
  { eapply keeps_trans; [exact HkA |]. eapply keeps_trans; [exact Hk1 |].
    apply keeps_store. lia. }
  split; [by apply region_closed_store |]. split.
  - rewrite prop_store_other by done. unfold h1.
    destruct (framework_lookup _ _); [done | by rewrite prop_store_other].
  - rewrite prop_store_other by done. unfold h1.
    destruct (framework_lookup _ _); [done | by eapply prop_store_same].
Qed.

(** The record and the delegation of a creation, for an id without
    record.  [info] is the object of the descriptor (an empty object when
    there is none) and [hA] the heap that holds it. *)
Lemma createInstance_binding id code config data st out st' info hA :
  instanceMap st !! toString (heap st) id = None ->
  inherited (toString (heap st) id) = false ->
  primitive id = true ->
  info_alloc (toString (heap st) code) (heap st) = (info, hA) ->
  createInstance id code config data st = (out, st') ->
  instanceMap st' = <[toString (heap st) id := info]> (instanceMap st)
  ∧ prop (heap st') info (str "framework") = bound_framework (frameworks st) hA info
  ∧ ∃ es,
      trace st' = trace st ++ es
      ∧ (∀ e cfg, In e es -> snapshot_event id code cfg data e ->
           prop (heap st') cfg (str "bundleVersion") = prop hA info (str "version"))
      ∧ (∀ r, out = Normal r ->
           ∃ name b so cfg es',
             assoc name (frameworks st) = Some b
             ∧ (∀ f, bound_framework (frameworks st) hA info = VStr f -> name = f)
             ∧ es = es' ++ [EBackend name (str "createInstance")
                              [id; code; cfg; data; so]]).
Proof.
  intros Hnone Hown Hprim Halloc Hrun.
  destruct (createInstance_fresh _ _ _ _ _ _ _ Hnone Hown Hrun)
    as (l & hA' & oc & st_c & Halloc' & Hcfg & Hkc & Hsmc & Hout).
  rewrite Halloc in Halloc'. injection Halloc' as -> <-.
  destruct (info_alloc_allocated _ _ _ _ Halloc) as [Hal Hps].
  destruct (record_state_facts id l hA st Hal Hps)
    as (Hmap & Htr & Hfw & Hlen & Hki & Hci & Hver & Hbound).
  set (st_i := record_state id l (set_heap hA st)) in *.
  assert (Hli : (0 <= l < length (heap st_i))%nat).
  { rewrite Hlen. destruct Hal as (new & _ & Hv & _). apply Forall_inv in Hv.
    unfold ref_within in Hv. lia. }
  destruct (initConfig_spec 0 l config st_i _ _ Hli Hcfg) as (Hsf & Hkic & _ & Hspec).
  assert (Hinfo : ∀ k, prop (heap st') (VRef l) k = prop (heap st_i) (VRef l) k).
  { intros k. transitivity (prop (heap st_c) (VRef l) k).
    - eapply prop_keeps; [| exact Hkc]. destruct Hkic. lia.
    - eapply prop_keeps; [| exact Hkic]. lia. }
  split.
  { destruct Hsmc as (_ & -> & _). destruct Hsf as (_ & -> & _). rewrite Hmap.
    by rewrite (toString_primitive (heap st_i) (heap st)). }
  split; [by rewrite Hinfo |].
  destruct oc as [cfg | e].
  - destruct Hspec as (lc & -> & Hlc & Hbv & msg & Htrc).
    destruct Hout as (es & Htr' & Hes & Hret).
    exists (EDebug msg :: es). split.
    { rewrite Htr', Htrc, Htr, <- app_assoc. done. }
    split.
    + intros e cfg [<- | Hin] Hev.
      { destruct Hev as [(i & ctx & [=]) | (name & so & [=])]. }
      rewrite Forall_forall in Hes.
      assert (Hcfg' : cfg = VRef lc).
      { specialize (Hes e (proj2 (list_elem_of_In _ _) Hin)).
        destruct Hes as [(i & ctx & ->) | (name & so & ->)];
          destruct Hev as [(i' & ctx' & [=]) | (name' & so' & [=])]; by subst. }
      subst cfg. rewrite <- Hver, <- Hbv.
      eapply prop_keeps; [| exact Hkc]. lia.
    + intros r Hr. destruct (Hret r Hr) as (name & b & so & es' & Hb & Hname & ->).
      exists name, b, so, (VRef lc), (EDebug msg :: es'). split; [done |].
      split; [| done]. intros f Hf. apply Hname. by rewrite Hbound.
  - destruct Hout as [-> ->]. exists []. rewrite app_nil_r.
    split; [by rewrite Hspec |]. split; [by intros e' cfg [] | discriminate].
Qed.

Lemma alloc_members_built ms : ∀ h, Forall2 built_from (alloc_members ms h).1 ms.
Proof.
  induction ms as [| [k j] ms IH]; intros h; [constructor |].
  cbn [alloc_members].
  assert (Hj : ∀ x, j = JStr x -> (alloc_json j h).1 = VStr x) by (by intros x ->).
  destruct (alloc_json j h) as [v h1]. specialize (IH h1).
  destruct (alloc_members ms h1) as [ps h2]. constructor; [by split | done].
Qed.

Lemma assoc_set_built k v j acc acc' :
  built_from (k, v) (k, j) -> Forall2 built_from acc acc' ->
  Forall2 built_from (assoc_set k v acc) (assoc_set k j acc').
Proof.
  intros Hkv. induction 1 as [| [k1 v1] [k2 j2] acc acc' [Hk Hv] Hacc IH]; cbn.
  - constructor; [exact Hkv | constructor].
  - cbn in Hk. subst k2. destruct (decide (k = k1)); constructor; try done.
Qed.

Lemma fold_built ps ms : ∀ acc acc',
  Forall2 built_from ps ms -> Forall2 built_from acc acc' ->
  Forall2 built_from (fold_left (fun a kv => assoc_set kv.1 kv.2 a) ps acc)
    (fold_left (fun a kv => assoc_set kv.1 kv.2 a) ms acc').
Proof.
  intros acc acc' Hps. revert acc acc'.
  induction Hps as [| [k v] [k' j] ps ms [Hk Hv] Hps IH]; intros acc acc' Hacc; [done |].
  cbn in Hk. subst k'. cbn [fold_left fst snd]. apply IH.
  by apply assoc_set_built.
Qed.

Lemma assoc_built k x ps ms :
  Forall2 built_from ps ms -> assoc k ms = Some (JStr x) -> assoc k ps = Some (VStr x).
Proof.
  induction 1 as [| [k1 v1] [k2 j2] ps ms [Hk Hv] Hps IH]; [done |].
  cbn in *. subst k2. destruct (decide (k = k1)); [| done].
  intros [= ->]. by rewrite (Hv x eq_refl).
Qed.

Lemma prop_json_member ms h info hA k x :
  alloc_json (JObj ms) h = (info, hA) ->
  json_member k ms = Some (JStr x) ->
  prop hA info k = VStr x.
Proof.
  rewrite alloc_json_obj. pose proof (alloc_members_built ms h) as Hb.
  destruct (alloc_members ms h) as [ps h1]. intros [= <- <-] Hm.
  cbn [prop]. rewrite lookup_app_r by lia. rewrite Nat.sub_diag. cbn.
  erewrite assoc_built; [done | | exact Hm].
  apply fold_built; [exact Hb | constructor].
Qed.

Lemma descriptor_rax rest :
  descriptor (rax_bundle rest)
  = Some [(str "framework", JStr (str "Rax")); (str "version", JStr (str "1.0"))].
Proof. vm_compute. reflexivity. Qed.

Lemma descriptor_None s :
  versionRegExp_exec s = None
  ∨ (∃ body, versionRegExp_exec s = Some body ∧ ∀ j r, parse_text body ≠ POk j r) ->
  descriptor s = None.
Proof.
  unfold descriptor. intros [-> | (body & -> & Hbad)]; [done |].
  destruct (parse_text body) as [j r | |] eqn:Hp; [| done..].
  by destruct (Hbad j r).
Qed.

(** C6, amended.  Creating an instance, for an id without record (a
    string or another primitive) that is not the name of a member of
    [Object.prototype], from the bundle text of the example binds it to
    Rax when Rax is registered and to
    Weex when it is not, with [bundleVersion] 1.0 in both cases; from a
    text without header, or with a header whose brace group is not a JSON
    text, it binds it to Weex with [bundleVersion] [undefined] (no backend
    being registered under the name [undefined]).  The record names that
    backend, every call that receives the configuration snapshot receives
    one with that [bundleVersion], and when [createInstance] returns, its
    last call was the [createInstance] of that backend. *)
Theorem createInstance_header_binding id code config data st out st' fw ver :
  instanceMap st !! toString (heap st) id = None ->
  inherited (toString (heap st) id) = false ->
  primitive id = true ->
  ((∃ rest, toString (heap st) code = rax_bundle rest)
   ∧ ver = VStr (str "1.0")
   ∧ ((is_Some (assoc (str "Rax") (frameworks st)) ∧ fw = str "Rax")
      ∨ (assoc (str "Rax") (frameworks st) = None ∧ fw = str "Weex")))
  ∨ ((versionRegExp_exec (toString (heap st) code) = None
      ∨ ∃ body, versionRegExp_exec (toString (heap st) code) = Some body
                ∧ ∀ j r, parse_text body ≠ POk j r)
     ∧ assoc (str "undefined") (frameworks st) = None
     ∧ ver = VUndef ∧ fw = str "Weex") ->
  createInstance id code config data st = (out, st') ->
  ∃ info es,
    instanceMap st' = <[toString (heap st) id := info]> (instanceMap st)
    ∧ prop (heap st') info (str "framework") = VStr fw
    ∧ trace st' = trace st ++ es
    ∧ (∀ e cfg, In e es -> snapshot_event id code cfg data e ->
         prop (heap st') cfg (str "bundleVersion") = ver)
    ∧ (∀ r, out = Normal r ->
         ∃ b so cfg es',
           assoc fw (frameworks st) = Some b
           ∧ es = es' ++ [EBackend fw (str "createInstance")
                            [id; code; cfg; data; so]]).
Proof.
  intros Hnone Hown Hprim Hcase Hrun.
  destruct (info_alloc (toString (heap st) code) (heap st)) as [info hA] eqn:Halloc.
  destruct (createInstance_binding _ _ _ _ _ _ _ _ _ Hnone Hown Hprim Halloc Hrun)
    as (Hmap & Hfw & es & Htr & Hsnap & Hret).
  assert (Hfacts : bound_framework (frameworks st) hA info = VStr fw
                   ∧ prop hA info (str "version") = ver).
  { unfold info_alloc in Halloc.
    destruct Hcase as [([rest Hs] & -> & Hreg) | (Hnodesc & Hundef & -> & ->)].
    - rewrite Hs, descriptor_rax in Halloc.
      split; [| by eapply prop_json_member].
      unfold bound_framework.
      rewrite (prop_json_member _ _ _ _ (str "framework") (str "Rax") Halloc eq_refl).
      change (toString hA (VStr (str "Rax"))) with (str "Rax").
      unfold framework_lookup.
      by destruct Hreg as [[[b ->] ->] | [-> ->]].
    - rewrite (descriptor_None _ Hnodesc) in Halloc. injection Halloc as <- <-.
      unfold bound_framework. cbn [prop].
      rewrite lookup_app_r by lia. rewrite Nat.sub_diag. cbn [lookup list_lookup cell_props assoc].
      change (toString _ VUndef) with (str "undefined").
      unfold framework_lookup. by rewrite Hundef. }
  destruct Hfacts as [Hbound Hver].
  exists info, es. split; [done |]. split; [by rewrite Hfw |]. split; [done |].
  split; [by rewrite <- Hver |].
  intros r Hr. destruct (Hret r Hr) as (name & b & so & cfg & es' & Hb & Hname & ->).
  rewrite (Hname fw Hbound) in *. by exists b, so, cfg, es'.
Qed.

(** The create hooks return when none of them throws. *)
Lemma create_hooks_return id info config t ss : ∀ i st,
  Forall (fun s => ∀ f, create s = Some f -> never_throws f) ss ->
  ∃ st', forEach ss i (create_body id info config (VRef t)) st = (Normal (), st').
Proof.
  induction ss as [| s ss IH]; intros i st Hss; [by eexists |].
  apply Forall_cons in Hss as [Hs Hss]. cbn [forEach]. bind_step.
  unfold create_body at 1. destruct (create s) as [f |].
  - bind_step. unfold gets at 1. cbv beta iota.
    bind_step. unfold newObject at 1. cbv beta iota.
    bind_step. rewrite call_run.
    destruct (Hs f eq_refl [id; VRef (length (heap st)); config]
                (heap (set_heap (heap st ++ [CObj [(str "info", info);
                                                   (str "runtime", runtimeConfig st)]]) st))
                (outside st)) as (u & new & w & Hf).
    cbn [heap outside set_heap] in *. rewrite Hf. cbv beta iota.
    match goal with
    | |- context [Object_assign (VRef t) u ?s1] =>
        destruct (Object_assign_run t u s1) as (h3 & -> & _)
    end.
    cbv beta iota. by apply IH.
  - unfold ret at 1. cbv beta iota. by apply IH.
Qed.

(** When the configuration phase has ended, which [console.debug] shows,
    and no create hook throws, [createInstance] of the backend that the
    record names is called, whatever it does. *)
Lemma createInstance_delegates id code config data st out st' l hA fw b g es msg :
  instanceMap st !! toString (heap st) id = None ->
  inherited (toString (heap st) id) = false ->
  info_alloc (toString (heap st) code) (heap st) = (VRef l, hA) ->
  bound_framework (frameworks st) hA (VRef l) = VStr fw ->
  assoc fw (frameworks st) = Some b ->
  assoc (str "createInstance") b = Some g ->
  Forall (fun s => ∀ f, create s = Some f -> never_throws f) (services st) ->
  createInstance id code config data st = (out, st') ->
  trace st' = trace st ++ es ->
  In (EDebug msg) es ->
  ∃ es' cfg so,
    es = es' ++ [EBackend fw (str "createInstance") [id; code; cfg; data; so]].
Proof.
  intros Hnone Hown Halloc Hbound Hb Hg Hss. unfold createInstance.
  bind_step. rewrite lookupInstance_run, (instance_lookup_free _ _ Hnone Hown).
  cbn [toBoolean negb]. cbv beta iota.
  bind_step. destruct (initInfo_run id code st) as (l' & hA' & Halloc' & ->).
  rewrite Halloc in Halloc'. injection Halloc' as <- <-.
  cbv beta iota.
  destruct (info_alloc_allocated _ _ _ _ Halloc) as [Hal Hps].
  destruct (record_state_facts id l hA st Hal Hps)
    as (_ & Htri & Hfwi & Hleni & _ & _ & _ & Hfwname).
  set (st_i := record_state id l (set_heap hA st)) in *.
  assert (Hli : (0 <= l < length (heap st_i))%nat).
  { rewrite Hleni. destruct Hal as (new & _ & Hv & _). apply Forall_inv in Hv.
    unfold ref_within in Hv. lia. }
  bind_step. destruct (initConfig (VRef l) config st_i) as [oc st_c] eqn:Hcfg.
  destruct (initConfig_spec 0 l config st_i _ _ Hli Hcfg) as (Hsf & Hki & _ & Hspec).
  destruct oc as [cfg | e]; cbv beta iota.
  2:{ intros [= <- <-] Htrace Hin. rewrite Hspec, Htri in Htrace.
      assert (Hes : es = []).
      { apply (app_inv_head (trace st)). by rewrite app_nil_r. }
      by rewrite Hes in Hin. }
  destruct Hspec as (lc & -> & _ & _ & msg' & Htrc).
  destruct Hsf as (Hfwc & _ & Hssc & _).
  change (frameworks st_i) with (frameworks st) in Hfwc.
  change (services st_i) with (services st) in Hssc.
  (* initServices *)
  bind_step. unfold initServices. bind_step. unfold newObject at 1. cbv beta iota.
  set (t := length (heap st_c)). set (st1 := set_heap _ st_c).
  bind_step. unfold gets at 1. cbv beta iota. bind_step.
  change (forEach (services st1) 0 _ st1)
    with (forEach (services st1) 0 (create_body id (VRef l) (VRef lc) (VRef t)) st1).
  destruct (create_hooks_return id (VRef l) (VRef lc) t (services st1) 0 st1)
    as [st2 Hloop].
  { unfold st1. cbn [services set_heap]. by rewrite Hssc. }
  rewrite Hloop. cbv beta iota.
  apply (create_hooks_run _ _ _ t t) in Hloop as ((Hfw2 & _) & Hk2 & es2 & Htr2 & _);
    [| done | unfold st1; cbn [heap set_heap]; rewrite length_app; lia].
  unfold st1 in Hfw2, Htr2. cbn [frameworks trace set_heap] in Hfw2, Htr2.
  assert (Hk12 : keeps t (heap st_c) (heap st2)).
  { eapply keeps_trans; [| exact Hk2]. unfold st1. cbn [heap set_heap].
    by apply keeps_app. }
  unfold ret at 1. cbv beta iota.
  (* the delegation *)
  bind_step. cbn [getProp]. unfold gets at 1. cbv beta iota.
  bind_step. unfold lookupFramework, gets at 1. cbv beta iota.
  assert (Hprop : prop (heap st2) (VRef l) (str "framework") = VStr fw).
  { rewrite <- Hbound, <- Hfwname.
    transitivity (prop (heap st_c) (VRef l) (str "framework")).
    - eapply prop_keeps; [| exact Hk12]. unfold t. destruct Hki. lia.
    - eapply prop_keeps; [| exact Hki]. lia. }
  rewrite Hprop, Hfw2, Hfwc.
  change (toString (heap st2) (VStr fw)) with fw.
  rewrite (framework_lookup_own _ _ _ Hb). cbn [callMethod]. rewrite Hg.
  intros Hcall Htrace Hin. apply call_extends in Hcall as (new & Hext & _).
  destruct Hext as (_ & Htr3 & _).
  exists (EDebug msg' :: es2), (VRef lc), (VRef t).
  apply (app_inv_head (trace st)).
  rewrite <- Htrace, Htr3, Htr2, Htrc, Htri. by rewrite <- !app_assoc.
Qed.

(** C10, amended.  When the descriptor of the bundle names a framework
    that is not registered and is not the name of a member of
    [Object.prototype], and a version, creating an instance for an id
    without record (a string or another primitive that names no member
    of [Object.prototype]) binds it to Weex and keeps the version: the
    record's [framework] is Weex, every call that receives the
    configuration snapshot receives one whose [bundleVersion] is the
    declared version, once the configuration phase has ended and when no
    create hook throws the [createInstance] of Weex is called last, and
    when [createInstance] returns, its last call was the
    [createInstance] of Weex. *)
Theorem unregistered_framework_keeps_version id code config data st out st' ms f ver :
  instanceMap st !! toString (heap st) id = None ->
  inherited (toString (heap st) id) = false ->
  primitive id = true ->
  descriptor (toString (heap st) code) = Some ms ->
  json_member (str "framework") ms = Some (JStr f) ->
  assoc f (frameworks st) = None ->
  inherited f = false ->
  json_member (str "version") ms = Some (JStr ver) ->
  createInstance id code config data st = (out, st') ->
  ∃ info es,
    instanceMap st' = <[toString (heap st) id := info]> (instanceMap st)
    ∧ prop (heap st') info (str "framework") = VStr (str "Weex")
    ∧ trace st' = trace st ++ es
    ∧ (∀ e cfg, In e es -> snapshot_event id code cfg data e ->
         prop (heap st') cfg (str "bundleVersion") = VStr ver)
    ∧ (∀ msg b g,
         In (EDebug msg) es ->
         Forall (fun s => ∀ h, create s = Some h -> never_throws h) (services st) ->
         assoc (str "Weex") (frameworks st) = Some b ->
         assoc (str "createInstance") b = Some g ->
         ∃ es' cfg so,
           es = es' ++ [EBackend (str "Weex") (str "createInstance")
                          [id; code; cfg; data; so]])
    ∧ (∀ r, out = Normal r ->
         ∃ b so cfg es',
           assoc (str "Weex") (frameworks st) = Some b
           ∧ es = es' ++ [EBackend (str "Weex") (str "createInstance")
                            [id; code; cfg; data; so]]).
Proof.
  intros Hnone Hown Hprim Hdesc Hf Hunreg Hfown Hv Hrun.
  destruct (info_alloc (toString (heap st) code) (heap st)) as [info hA] eqn:Halloc.
  destruct (createInstance_binding _ _ _ _ _ _ _ _ _ Hnone Hown Hprim Halloc Hrun)
    as (Hmap & Hfw & es & Htr & Hsnap & Hret).
  pose proof Halloc as Halloc0.
  unfold info_alloc in Halloc. rewrite Hdesc in Halloc.
  assert (Hbound : bound_framework (frameworks st) hA info = VStr (str "Weex")).
  { unfold bound_framework. rewrite (prop_json_member _ _ _ _ _ _ Halloc Hf).
    change (toString hA (VStr f)) with f. by rewrite framework_lookup_free. }
  exists info, es. split; [done |]. split; [by rewrite Hfw |]. split; [done |].
  split.
  { intros e cfg Hin Hev. rewrite (Hsnap e cfg Hin Hev).
    by eapply prop_json_member. }
  split.
  { intros msg b g Hin Hss Hb Hg.
    destruct (initInfo_run id code st) as (l & hA' & Halloc' & _).
    rewrite Halloc0 in Halloc'. injection Halloc' as -> <-.
    by eapply createInstance_delegates. }
  intros r Hr. destruct (Hret r Hr) as (name & b & so & cfg & es' & Hb & Hname & ->).
  rewrite (Hname _ Hbound) in *. by exists b, so, cfg, es'.
Qed.

(** *** Creation: the snapshot and the caller's object *)

Lemma heap_wf_closed h : heap_wf h = true -> region_closed 0 h.
Proof.
  unfold heap_wf. rewrite forallb_forall. intros Hwf l c _ Hc.
  apply list_elem_of_lookup_2, list_elem_of_In, Hwf in Hc.
  rewrite forallb_forall in Hc. apply Forall_forall. intros x Hx.
  apply list_elem_of_In, Hc in Hx. destruct x; try done. cbn in *.
  apply bool_decide_eq_true in Hx. lia.
Qed.

(** *** The recursion budgets of [String] and [JSON.stringify] *)

Lemma existsb_eqb_false (l : loc) stack :
  existsb (Nat.eqb l) stack = false -> l ∉ stack.
Proof.
  intros Hex Hin%list_elem_of_In.
  assert (existsb (Nat.eqb l) stack = true); [| congruence].
  apply existsb_exists. exists l. split; [done | apply Nat.eqb_refl].
Qed.

(** A stack of distinct locations of the heap is no longer than the heap. *)
Lemma stack_length (h : list cell) stack :
  NoDup stack -> (∀ l, l ∈ stack -> (l < length h)%nat) ->
  (length stack <= length h)%nat.
Proof.
  intros Hnd Hin.
  assert (Hle : (length stack <= length (seq 0 (length h)))%nat).
  { apply submseteq_length, NoDup_submseteq; [done |].
    intros l Hl. apply elem_of_seq. specialize (Hin l Hl). lia. }
  by rewrite length_seq in Hle.
Qed.

Lemma stack_push (h : list cell) stack l c :
  NoDup stack -> (∀ l', l' ∈ stack -> (l' < length h)%nat) ->
  existsb (Nat.eqb l) stack = false -> h !! l = Some c ->
  NoDup (l :: stack) ∧ (∀ l', l' ∈ l :: stack -> (l' < length h)%nat).
Proof.
  intros Hnd Hin Hex Hc. split.
  - constructor; [by apply existsb_eqb_false | done].
  - intros l' [-> | Hl']%elem_of_cons; [by eapply lookup_lt_Some | by apply Hin].
Qed.

(** With the arrays being joined on the stack, a budget above the number
    of the other cells is never used up. *)
Lemma toStringF_budget h : ∀ f stack v,
  NoDup stack -> (∀ l, l ∈ stack -> (l < length h)%nat) ->
  (length h < f + length stack)%nat ->
  toStringF (S f) stack h v = toStringF f stack h v.
Proof.
  induction f as [| f IH]; intros stack v Hnd Hin Hf;
    destruct v as [| | [] | | | l | |]; try reflexivity.
  - cbn [toStringF]. destruct (h !! l) as [[ps | es ps] |] eqn:Hc; try reflexivity.
    destruct (existsb (Nat.eqb l) stack) eqn:Hex; [reflexivity |].
    destruct (stack_push h stack l _ Hnd Hin Hex Hc) as [Hnd' Hin'].
    pose proof (stack_length h _ Hnd' Hin') as Hlen. cbn [length] in Hlen. lia.
  - change (toStringF (S (S f)) stack h (VRef l))
      with (match h !! l with
            | Some (CArr es _) =>
                if existsb (Nat.eqb l) stack then []
                else join c_comma
                       (List.map (fun e =>
                          match e with
                          | VUndef | VNull => []
                          | _ => toStringF (S f) (l :: stack) h e
                          end) es)
            | _ => str "[object Object]"
            end).
    change (toStringF (S f) stack h (VRef l))
      with (match h !! l with
            | Some (CArr es _) =>
                if existsb (Nat.eqb l) stack then []
                else join c_comma
                       (List.map (fun e =>
                          match e with
                          | VUndef | VNull => []
                          | _ => toStringF f (l :: stack) h e
                          end) es)
            | _ => str "[object Object]"
            end).
    destruct (h !! l) as [[ps | es ps] |] eqn:Hc; try reflexivity.
    destruct (existsb (Nat.eqb l) stack) eqn:Hex; [reflexivity |].
    destruct (stack_push h stack l _ Hnd Hin Hex Hc) as [Hnd' Hin'].
    f_equal. apply map_ext. intros e.
    destruct e; try reflexivity; apply IH; try done; cbn [length]; lia.
Qed.

Lemma serialize_budget h : ∀ f stack v,
  NoDup stack -> (∀ l, l ∈ stack -> (l < length h)%nat) ->
  (length h < f + length stack)%nat ->
  serialize (S f) stack h v = serialize f stack h v.
Proof.
  induction f as [| f IH]; intros stack v Hnd Hin Hf;
    destruct v as [| | | | | l | |]; try reflexivity.
  - cbn [serialize]. destruct (existsb (Nat.eqb l) stack) eqn:Hex; [reflexivity |].
    destruct (h !! l) as [c |] eqn:Hc; [| reflexivity].
    destruct (stack_push h stack l _ Hnd Hin Hex Hc) as [Hnd' Hin'].
    pose proof (stack_length h _ Hnd' Hin') as Hlen. cbn [length] in Hlen. lia.
  - change (serialize (S (S f)) stack h (VRef l))
      with (if existsb (Nat.eqb l) stack then None
            else match h !! l with
                 | None => None
                 | Some (CArr es _) =>
                     match sequence (List.map (serialize (S f) (l :: stack) h) es) with
                     | Some js =>
                         Some (Some (JArr (List.map (fun o =>
                           match o with Some j => j | None => JNull end) js)))
                     | None => None
                     end
                 | Some (CObj ps) =>
                     match sequence
                             (List.map (fun kv => serialize (S f) (l :: stack) h kv.2) ps) with
                     | Some js =>
                         Some (Some (JObj (omap (fun kj =>
                           match kj.2 with Some j => Some (kj.1, j) | None => None end)
                           (combine (List.map fst ps) js))))
                     | None => None
                     end
                 end).
    change (serialize (S f) stack h (VRef l))
      with (if existsb (Nat.eqb l) stack then None
            else match h !! l with
                 | None => None
                 | Some (CArr es _) =>
                     match sequence (List.map (serialize f (l :: stack) h) es) with
                     | Some js =>
                         Some (Some (JArr (List.map (fun o =>
                           match o with Some j => j | None => JNull end) js)))
                     | None => None
                     end
                 | Some (CObj ps) =>
                     match sequence
                             (List.map (fun kv => serialize f (l :: stack) h kv.2) ps) with
                     | Some js =>
                         Some (Some (JObj (omap (fun kj =>
                           match kj.2 with Some j => Some (kj.1, j) | None => None end)
                           (combine (List.map fst ps) js))))
                     | None => None
                     end
                 end).
    destruct (existsb (Nat.eqb l) stack) eqn:Hex; [reflexivity |].
    destruct (h !! l) as [c |] eqn:Hc; [| reflexivity].
    destruct (stack_push h stack l _ Hnd Hin Hex Hc) as [Hnd' Hin'].
    assert (Hrec : ∀ x, serialize (S f) (l :: stack) h x = serialize f (l :: stack) h x).
    { intros x. apply IH; try done. cbn [length]. lia. }
    destruct c as [ps | es ps].
    + assert (Hmap : List.map (fun kv => serialize (S f) (l :: stack) h kv.2) ps
                     = List.map (fun kv => serialize f (l :: stack) h kv.2) ps)
        by (apply map_ext; intros kv; apply Hrec).
      by rewrite Hmap.
    + assert (Hmap : List.map (serialize (S f) (l :: stack) h) es
                     = List.map (serialize f (l :: stack) h) es)
        by (apply map_ext; intros x; apply Hrec).
      by rewrite Hmap.
Qed.

(** The budgets of [toString] and [JSON_stringify_tree] are enough: a
    larger one gives the same result. *)
Lemma toString_budget h v k : toStringF (S (length h) + k) [] h v = toString h v.
Proof.
  unfold toString. induction k as [| k IH]; [by rewrite Nat.add_0_r |].
  rewrite Nat.add_succ_r, <- IH.
  apply toStringF_budget; [constructor | by intros l Hl%elem_of_nil | cbn; lia].
Qed.

Lemma JSON_stringify_budget h v k :
  serialize (S (length h) + k) [] h v = JSON_stringify_tree h v.
Proof.
  unfold JSON_stringify_tree. induction k as [| k IH]; [by rewrite Nat.add_0_r |].
  rewrite Nat.add_succ_r, <- IH.
  apply serialize_budget; [constructor | by intros l Hl%elem_of_nil | cbn; lia].
Qed.

(** ** Further properties of the module *)

Lemma genInstance_run m args st :
  genInstance m args st
  = match live st (nth 0 args VUndef) with
    | Some (info, (name, b)) => routed m args info name b st
    | None => (Normal (invalid_id (heap st) (nth 0 args VUndef)), st)
    end.
Proof.
  unfold genInstance, live, routed. cbv zeta.
  bind_step. rewrite lookupInstance_run. cbv beta iota.
  set (info := instance_lookup _ _).
  destruct (toBoolean info) eqn:Hinfo; [| reflexivity].
  bind_step. rewrite getProp_run by done. cbv beta iota.
  bind_step. unfold lookupFramework, gets at 1. unfold backend_of.
  destruct (framework_lookup (frameworks st) _) as [[name b] |]; [| reflexivity].
  cbn [fmap option_fmap option_map]. cbv beta iota.
  bind_step. cbn [callMethod].
  destruct (assoc m b) as [f |]; [| reflexivity].
  destruct (call _ f args st) as [[result | e] st1]; [| reflexivity].
  bind_step.
  destruct (decide (m = str "refreshInstance")) as [_ | _].
  - bind_step. unfold gets at 1. cbv beta iota.
    fold (hook_body refresh OnRefresh (nth 0 args VUndef) info).
    destruct (forEach _ _ _ st1) as [[[] | e] st2]; reflexivity.
  - destruct (decide (m = str "destroyInstance")) as [_ | _]; [| reflexivity].
    bind_step. unfold gets at 1. cbv beta iota. bind_step.
    fold (hook_body destroy OnDestroy (nth 0 args VUndef) info).
    destruct (forEach _ _ _ st1) as [[[] | e] st2]; reflexivity.
Qed.

Lemma adaptInstance_run m args st :
  adaptInstance m args st
  = match live st (nth 0 args VUndef) with
    | Some (info, (name, b)) => callMethod (Some (name, b)) m args st
    | None => (Normal (invalid_id (heap st) (nth 0 args VUndef)), st)
    end.
Proof.
  unfold adaptInstance, live. cbv zeta.
  bind_step. rewrite lookupInstance_run. cbv beta iota.
  set (info := instance_lookup _ _).
  destruct (toBoolean info) eqn:Hinfo; [| reflexivity].
  bind_step. rewrite getProp_run by done. cbv beta iota.
  bind_step. unfold lookupFramework, gets at 1. unfold backend_of.
  destruct (framework_lookup (frameworks st) _) as [[name b] |]; reflexivity.
Qed.

(** The registry after the lines 111 to 132. *)
Lemma routed_registry m args info name b st out st' :
  routed m args info name b st = (out, st') ->
  frameworks st' = frameworks st
  ∧ services st' = services st
  ∧ (∃ new, heap st' = heap st ++ new)
  ∧ instanceMap st'
    = match out with
      | Normal _ =>
          if decide (m = str "destroyInstance")
          then delete (toString (heap st') (nth 0 args VUndef)) (instanceMap st)
          else instanceMap st
      | Throw _ => instanceMap st
      end.
Proof.
  unfold routed. cbv zeta.
  destruct (assoc m b) as [f |].
  2:{ intros [= <- <-]. repeat split; try done. exists []. by rewrite app_nil_r. }
  destruct (call _ f args st) as [[result | e] st1] eqn:Hcall;
    apply call_extends in Hcall as (new & Hext & _).
  2:{ intros [= <- <-]. destruct Hext as (Hh & _ & Hf & Hm & Hs & _).
      repeat split; try done. by exists new. }
  destruct Hext as (Hh & _ & Hf & Hm & Hs & _).
  destruct (decide (m = str "refreshInstance")) as [-> | Hr].
  - destruct (forEach _ _ _ st1) as [[[] | e] st2] eqn:Hrun;
      apply hooks_run in Hrun as (new' & es & idxs & Hext' & _);
      destruct Hext' as (Hh' & _ & Hf' & Hm' & Hs' & _);
      intros [= <- <-].
    + destruct (decide (str "refreshInstance" = str "destroyInstance")) as [Heq | _];
        [discriminate Heq |].
      repeat split; try congruence. exists (new ++ new'). rewrite Hh', Hh. by rewrite app_assoc.
    + repeat split; try congruence. exists (new ++ new'). rewrite Hh', Hh. by rewrite app_assoc.
  - destruct (decide (m = str "destroyInstance")) as [-> | Hd].
    + destruct (forEach _ _ _ st1) as [[[] | e] st2] eqn:Hrun;
        apply hooks_run in Hrun as (new' & es & idxs & Hext' & _);
        destruct Hext' as (Hh' & _ & Hf' & Hm' & Hs' & _);
        intros [= <- <-]; cbn [heap frameworks services instanceMap set_instanceMap].
      * repeat split; try congruence. exists (new ++ new'). rewrite Hh', Hh. by rewrite app_assoc.
      * repeat split; try congruence. exists (new ++ new'). rewrite Hh', Hh. by rewrite app_assoc.
    + intros [= <- <-]. repeat split; try done. by exists new.
Qed.

(** X1.  A routed method that is not a lifecycle method ([receiveTasks],
    [getRoot]) is the call of the backend's method with the same
    arguments and nothing else: the result or the exception is the
    backend's, one call is added to the trace, no service hook runs and
    the registry stays. *)
Theorem routed_call_delegates m args st info name b f :
  m ≠ str "refreshInstance" -> m ≠ str "destroyInstance" ->
  live st (nth 0 args VUndef) = Some (info, (name, b)) ->
  assoc m b = Some f ->
  genInstance m args st
  = ((f args (heap st) (outside st)).1.1,
     set_trace (trace st ++ [EBackend name m args])
       (set_outside (f args (heap st) (outside st)).2
          (set_heap (heap st ++ (f args (heap st) (outside st)).1.2) st))).
Proof.
  intros Hr Hd Hlive Hf. rewrite genInstance_run, Hlive. unfold routed.
  rewrite Hf. cbv zeta. rewrite call_run.
  destruct (f args (heap st) (outside st)) as [[[r | e] new] w]; [| reflexivity].
  cbn [fst snd].
  destruct (decide (m = str "refreshInstance")); [done |].
  by destruct (decide (m = str "destroyInstance")).
Qed.

(** X2.  The legacy adapter agrees with the routed method of the same name
    on every state and every argument list, for a method that is not a
    lifecycle method: [callJS] is [receiveTasks]. *)
Theorem legacy_alias_agrees m args st :
  m ≠ str "refreshInstance" -> m ≠ str "destroyInstance" ->
  adaptInstance m args st = genInstance m args st.
Proof.
  intros Hr Hd. rewrite adaptInstance_run, genInstance_run.
  destruct (live st _) as [[info [name b]] |]; [| reflexivity].
  unfold routed. cbn [callMethod]. cbv zeta.
  destruct (assoc m b) as [f |]; [| reflexivity].
  destruct (call _ f args st) as [[r | e] st1]; [| reflexivity].
  destruct (decide (m = str "refreshInstance")); [done |].
  by destruct (decide (m = str "destroyInstance")).
Qed.

(** X3.  The legacy adapter never runs a service hook and never removes a
    record, whatever the method it adapts: it makes at most one call, to
    the backend. *)
Theorem adaptInstance_skips_lifecycle m args st :
  ∃ new es,
    extends st (adaptInstance m args st).2 new es
    ∧ (es = [] ∨ ∃ name, es = [EBackend name m args]).
Proof.
  rewrite adaptInstance_run.
  destruct (live st _) as [[info [name b]] |].
  2:{ exists [], []. split; [apply extends_refl | by left]. }
  cbn [callMethod]. destruct (assoc m b) as [f |].
  2:{ exists [], []. split; [apply extends_refl | by left]. }
  destruct (call _ f args st) as [out st1] eqn:Hcall.
  apply call_extends in Hcall as (new & Hext & _).
  exists new, [EBackend name m args]. split; [done |]. right. by exists name.
Qed.

(** X4.  When the backend of a live instance lacks the method, the routed
    entry point and the legacy adapter throw a [TypeError] in an unchanged
    state: no hook runs and the record stays. *)
Theorem missing_method_throws m args st info name b :
  live st (nth 0 args VUndef) = Some (info, (name, b)) ->
  assoc m b = None ->
  genInstance m args st = (Throw typeError, st)
  ∧ adaptInstance m args st = (Throw typeError, st).
Proof.
  intros Hlive Hm. rewrite genInstance_run, adaptInstance_run, Hlive.
  unfold routed. cbn [callMethod]. by rewrite Hm.
Qed.

(** X5.  A routed call changes the registry only by the removal that ends a
    [destroyInstance] that returns: every other record stays; the
    registry is the same after any other method and after a call that
    throws; and the backends and the services are never changed. *)
Theorem routed_call_registry m args st :
  let run := genInstance m args st in
  (∀ k, k ≠ toString (heap run.2) (nth 0 args VUndef) ->
        instanceMap run.2 !! k = instanceMap st !! k)
  ∧ (m ≠ str "destroyInstance" ∨ (∃ e, run.1 = Throw e) ->
     instanceMap run.2 = instanceMap st)
  ∧ frameworks run.2 = frameworks st
  ∧ services run.2 = services st.
Proof.
  cbv zeta. rewrite genInstance_run.
  destruct (live st _) as [[info [name b]] |].
  2:{ cbn [fst snd]. done. }
  destruct (routed m args info name b st) as [out st'] eqn:Hrun.
  apply routed_registry in Hrun as (Hf & Hs & _ & Hm). cbn [fst snd].
  split; [| split; [| done]].
  - intros k Hk. rewrite Hm. destruct out as [r | e]; [| done].
    destruct (decide _); [| done]. by rewrite lookup_delete_ne.
  - intros [Hd | [e ->]]; [| done]. rewrite Hm. destruct out as [r | e]; [| done].
    by destruct (decide _).
Qed.

(** X6.  When a lifecycle call of a live instance throws, the record
    stays, and the calls made are the backend call followed by the hooks
    of an initial part of the services that have one, in registration
    order: none when the exception is the backend's, and otherwise those
    up to the hook that threw. *)
Theorem lifecycle_call_throws m sel hk args st info name b f x st' :
  (m = str "refreshInstance" ∧ sel = refresh ∧ hk = OnRefresh)
  ∨ (m = str "destroyInstance" ∧ sel = destroy ∧ hk = OnDestroy) ->
  live st (nth 0 args VUndef) = Some (info, (name, b)) ->
  assoc m b = Some f ->
  genInstance m args st = (Throw x, st') ->
  instanceMap st' = instanceMap st
  ∧ ∃ es idxs,
      trace st' = trace st ++ EBackend name m args :: es
      ∧ idxs `prefix_of` hook_indices sel 0 (services st)
      ∧ Forall2 (hook_event hk (nth 0 args VUndef) info (runtimeConfig st) (heap st'))
          es idxs
      ∧ (((f args (heap st) (outside st)).1.1 = Throw x ∧ es = [])
         ∨ ∃ r, (f args (heap st) (outside st)).1.1 = Normal r).
Proof.
  intros Hm Hlive Hf. rewrite genInstance_run, Hlive. unfold routed.
  rewrite Hf. cbv zeta.
  destruct (call (EBackend name m) f args st) as [[result | e] st1] eqn:Hcall;
    apply call_extends in Hcall as (new & Hext & w & Hfw).
  2:{ intros [= <- <-]. destruct Hext as (_ & Ht & _ & Hmap & _).
      split; [done |]. exists [], []. split; [done |].
      split; [apply prefix_nil |]. split; [constructor |].
      left. by rewrite Hfw. }
  assert (Hloop : ∀ st2,
            forEach (services st1) 0 (hook_body sel hk (nth 0 args VUndef) info) st1
            = (Throw x, st2) ->
            instanceMap st2 = instanceMap st
            ∧ ∃ es idxs,
                trace st2 = trace st ++ EBackend name m args :: es
                ∧ idxs `prefix_of` hook_indices sel 0 (services st)
                ∧ Forall2 (hook_event hk (nth 0 args VUndef) info
                             (runtimeConfig st) (heap st2)) es idxs
                ∧ (((f args (heap st) (outside st)).1.1 = Throw x ∧ es = [])
                   ∨ ∃ r, (f args (heap st) (outside st)).1.1 = Normal r)).
  { intros st2 Hrun.
    apply hooks_run in Hrun as (new' & es & idxs & Hext' & Hpre & Hall & _).
    destruct Hext as (_ & Ht & _ & Hmap & Hs & _ & Hrt & _).
    destruct Hext' as (_ & Ht' & _ & Hmap' & _).
    split; [by rewrite Hmap', Hmap |].
    exists es, idxs. rewrite Ht', Ht, <- app_assoc. split; [done |].
    rewrite <- Hs, <- Hrt. split; [done |]. split; [done |].
    right. exists result. by rewrite Hfw. }
  destruct Hm as [(-> & -> & ->) | (-> & -> & ->)].
  - destruct (decide (str "refreshInstance" = str "refreshInstance")) as [_ | []];
      [| done].
    destruct (forEach _ _ _ st1) as [[[] | e] st2] eqn:Hrun; [discriminate |].
    intros [= <- <-]. by apply Hloop.
  - destruct (decide (str "destroyInstance" = str "refreshInstance")) as [Heq | _];
      [discriminate Heq |].
    destruct (decide (str "destroyInstance" = str "destroyInstance")) as [_ | []];
      [| done].
    destruct (forEach _ _ _ st1) as [[[] | e] st2] eqn:Hrun; [discriminate |].
    intros [= <- <-]. by apply Hloop.
Qed.

(** *** The fan-out of a method other than [registerComponents] *)

Lemma genInit_run m args st :
  m ≠ str "registerComponents" ->
  genInit m args st
  = match forEach (frameworks st) 0 (fanout_body m args) st with
    | (Normal _, st') => (Normal VUndef, st')
    | (Throw x, st') => (Throw x, st')
    end.
Proof.
  intros Hm. unfold genInit. destruct (decide _) as [| _]; [done |].
  bind_step. unfold ret at 1. cbv beta iota.
  bind_step. unfold gets at 1. cbv beta iota. bind_step.
  change (forEach (frameworks st) 0 _ st)
    with (forEach (frameworks st) 0 (fanout_body m args) st).
  by destruct (forEach _ _ _ st) as [[[] | x] st'].
Qed.

(** The loop stops at the first backend whose method throws. *)
Lemma fanout_throw m args fws : ∀ i st x st',
  forEach fws i (fanout_body m args) st = (Throw x, st') ->
  ∃ new pre nf f rest,
    List.filter (implements m) fws = pre ++ nf :: rest
    ∧ assoc m nf.2 = Some f
    ∧ (∃ h w, (f args h w).1.1 = Throw x)
    ∧ extends st st' new (List.map (fun nf => EBackend nf.1 m args) (pre ++ [nf])).
Proof.
  induction fws as [| nf fws IH]; intros i st x st' Hrun; [discriminate Hrun |].
  cbn [forEach] in Hrun. revert Hrun. bind_step.
  unfold fanout_body at 1. cbn [List.filter].
  destruct (assoc m nf.2) as [f |] eqn:Hf.
  - assert (Himp : implements m nf = true) by (unfold implements; by rewrite Hf).
    rewrite Himp. bind_step.
    destruct (call _ f args st) as [[u | y] st1] eqn:Hcall;
      apply call_extends in Hcall as (new & Hext & w & Hfw).
    + cbv beta iota. unfold ret at 1. cbv beta iota. intros Hrun.
      apply IH in Hrun as (new' & pre & nf' & f' & rest & Hfil & Hf' & Hx & Hext').
      exists (new ++ new'), (nf :: pre), nf', f', rest.
      split; [by rewrite Hfil |]. split; [done |]. split; [done |].
      exact (extends_trans _ _ _ _ _ _ _ Hext Hext').
    + cbv beta iota. intros [= <- <-].
      exists new, [], nf, f, (List.filter (implements m) fws).
      split; [done |]. split; [done |]. split; [| done].
      exists (heap st), (outside st). by rewrite Hfw.
  - assert (Himp : implements m nf = false) by (unfold implements; by rewrite Hf).
    rewrite Himp. unfold ret at 1. cbv beta iota. intros Hrun.
    by apply IH in Hrun.
Qed.

(** X7.  A fan-out method other than [registerComponents]
    ([registerModules], [registerMethods]), when no backend method throws,
    returns [undefined] whatever the backends returned, and has called the
    method with the same arguments on each backend that has it, in the
    order of [frameworks], and nothing else: [registerElement] is not
    called and the registry is the same. *)
Theorem genInit_fanout m args st :
  m ≠ str "registerComponents" ->
  (∀ nf f, In nf (frameworks st) -> assoc m nf.2 = Some f -> never_throws f) ->
  ∃ st' new,
    genInit m args st = (Normal VUndef, st')
    ∧ extends st st' new
        (List.map (fun nf => EBackend nf.1 m args)
           (List.filter (implements m) (frameworks st))).
Proof.
  intros Hm Hfws. rewrite genInit_run by done.
  destruct (forEach _ _ _ st) as [out st'] eqn:Hrun.
  apply fanout_run in Hrun as (new & done & Hext & _ & Hfull & Hthrow).
  destruct out as [[] | x].
  - exists st', new. split; [done |]. by rewrite (Hfull () eq_refl) in Hext.
  - destruct (Hthrow x eq_refl) as (nf & f & a & h & w & Hin & Hf & Hx).
    destruct (Hfws nf f Hin Hf a h w) as (v & n & w' & Hv). by rewrite Hv in Hx.
Qed.

(** X8.  When a fan-out method other than [registerComponents] throws, the
    exception is the one of a backend's method, the backends before that
    one in the order of [frameworks] have been called, and the backends
    after it have not. *)
Theorem genInit_stops_at_throw m args st x st' :
  m ≠ str "registerComponents" ->
  genInit m args st = (Throw x, st') ->
  ∃ new pre nf f rest,
    List.filter (implements m) (frameworks st) = pre ++ nf :: rest
    ∧ assoc m nf.2 = Some f
    ∧ (∃ h w, (f args h w).1.1 = Throw x)
    ∧ extends st st' new (List.map (fun nf => EBackend nf.1 m args) (pre ++ [nf])).
Proof.
  intros Hm. rewrite genInit_run by done.
  destruct (forEach _ _ _ st) as [[[] | y] st1] eqn:Hrun; [discriminate |].
  intros [= <- <-]. by eapply fanout_throw.
Qed.

(** X9.  When [registerComponents] throws and no backend method does, the
    exception is the one of [registerElement]; the elements registered
    are an initial part of the well-formed elements, and no backend has
    received [registerComponents]. *)
Theorem registerComponents_aborts args st x st' :
  let m := str "registerComponents" in
  let comps := elements (heap st) (nth 0 args VUndef) in
  forallb (valid (heap st)) comps = true ->
  (∀ nf f, In nf (frameworks st) -> assoc m nf.2 = Some f -> never_throws f) ->
  genInit m args st = (Throw x, st') ->
  (∃ a h w, (registerElement st a h w).1.1 = Throw x)
  ∧ ∃ new done,
      done `prefix_of` List.filter (entry_ok (heap st)) comps
      ∧ extends st st' new (List.map (register_event (heap st)) done).
Proof.
  intros m comps Hvalid Hfws. subst m comps. unfold genInit.
  destruct (decide (str "registerComponents" = str "registerComponents")) as [_ | []];
    [| done].
  bind_step. rewrite checkComponentMethods_run.
  destruct (forEach _ 0 component_body st) as [out st1] eqn:Hrun1.
  apply components_run in Hrun1 as (new1 & done1 & Hext1 & Hpre1 & _ & Hthrow1);
    [| exact Hvalid].
  destruct out as [[] | y].
  - cbv beta iota. bind_step. unfold gets at 1. cbv beta iota. bind_step.
    change (forEach (frameworks st1) 0 _ st1)
      with (forEach (frameworks st1) 0 (fanout_body (str "registerComponents") args) st1).
    destruct (forEach (frameworks st1) 0 _ st1) as [out st2] eqn:Hrun2.
    apply fanout_run in Hrun2 as (new2 & done2 & Hext2 & _ & _ & Hthrow2).
    pose proof Hext1 as (_ & _ & Hfw & _).
    destruct out as [[] | z]; [discriminate |].
    destruct (Hthrow2 z eq_refl) as (nf & f & a & h & w & Hin & Hf & Hz).
    rewrite Hfw in Hin.
    destruct (Hfws nf f Hin Hf a h w) as (v & n & w' & Hv). by rewrite Hv in Hz.
  - intros [= <- <-]. split; [by apply Hthrow1 |]. by exists new1, done1.
Qed.

(** *** [init] *)


Lemma init_loop config fws : ∀ i st,
  Forall initialises fws ->
  ∃ st' new,
    forEach fws i (init_body config) st = (Normal (), st')
    ∧ extends st st' new
        (List.map (fun nf => EBackend nf.1 (str "init") [config]) fws).
Proof.
  induction fws as [| [name b] fws IH]; intros i st Hall.
  - exists st, []. split; [done | apply extends_refl].
  - apply Forall_cons in Hall as [(f & Hf & Hnt) Hall].
    cbn [forEach]. bind_step. unfold init_body at 1. bind_step.
    cbn [callMethod snd] in *. rewrite Hf.
    destruct (call _ f [config] st) as [out st1] eqn:Hcall.
    apply call_extends in Hcall as (new & Hext & w & Hfw).
    destruct (Hnt [config] (heap st) (outside st)) as (u & new' & w' & Hu).
    rewrite Hu in Hfw. injection Hfw as <- _ _.
    cbv beta iota. unfold ret at 1. cbv beta iota.
    destruct (IH (S i) st1 Hall) as (st' & new2 & Hrun & Hext').
    exists st', (new ++ new2). split; [done |].
    exact (extends_trans _ _ _ _ _ _ _ Hext Hext').
Qed.

Lemma init_run_loop config methods_of st :
  config ≠ VUndef -> config ≠ VNull ->
  init config methods_of st
  = let fws := config_frameworks methods_of (heap st) config in
    match forEach fws 0 (init_body config) (set_frameworks fws st) with
    | (Normal _, st') => (Normal methods, st')
    | (Throw x, st') => (Throw x, st')
    end.
Proof.
  intros Hundef Hnull. unfold init, config_frameworks. cbv zeta.
  bind_step.
  assert (Hget : getProp config (str "frameworks") st
                 = (Normal (prop (heap st) config (str "frameworks")), st))
    by (by destruct config).
  rewrite Hget. cbv beta iota.
  bind_step. unfold gets at 1. cbv beta iota.
  set (fws := if toBoolean _ then _ else _).
  bind_step. unfold modify at 1. cbv beta iota. bind_step.
  change (forEach fws 0 _ (set_frameworks fws st))
    with (forEach fws 0 (init_body config) (set_frameworks fws st)).
  by destruct (forEach _ _ _ _) as [[[] | x] st'].
Qed.

(** X10.  [init] takes the backends from [config.frameworks], none when
    the property is missing or falsy.  When every backend has an [init]
    method that returns, [init] returns the method table, has replaced
    [frameworks] by these backends, and has called [init] of each backend
    once with the configuration, in the order of the properties; the
    registry and the services are the same. *)
Theorem init_calls_each_backend config methods_of st :
  config ≠ VUndef -> config ≠ VNull ->
  let fws := config_frameworks methods_of (heap st) config in
  Forall initialises fws ->
  ∃ st' new,
    init config methods_of st = (Normal methods, st')
    ∧ frameworks st' = fws
    ∧ heap st' = heap st ++ new
    ∧ trace st'
      = trace st ++ List.map (fun nf => EBackend nf.1 (str "init") [config]) fws
    ∧ instanceMap st' = instanceMap st
    ∧ services st' = services st.
Proof.
  intros Hundef Hnull fws Hall. rewrite init_run_loop by done. cbv zeta. fold fws.
  destruct (init_loop config fws 0 (set_frameworks fws st) Hall)
    as (st' & new & -> & Hh & Ht & Hf & Hm & Hs & _).
  exists st', new. done.
Qed.


(** X25.  Without a configuration ([undefined] or [null]), [init] throws
    a [TypeError] at the read of [config.frameworks] and changes
    nothing: [frameworks] is not replaced and no backend is called. *)
Theorem init_without_config methods_of st :
  init VUndef methods_of st = (Throw typeError, st)
  ∧ init VNull methods_of st = (Throw typeError, st).
Proof. by split. Qed.

(** *** Creation: the record after the call *)

(** The fields of the record after the lines 43 to 47. *)
Lemma record_state_props id l hA st c :
  hA !! l = Some c ->
  let st_i := record_state id l (set_heap hA st) in
  prop (heap st_i) (VRef l) (str "created") = VNum (Date_now (outside st))
  ∧ ∀ k, k ≠ str "framework" -> k ≠ str "created" ->
         prop (heap st_i) (VRef l) k = prop hA (VRef l) k.
Proof.
  intros Hc st_i. unfold st_i, record_state.
  cbn [heap frameworks instanceMap outside set_heap set_instanceMap].
  set (name := toString hA (prop hA (VRef l) (str "framework"))).
  set (h1 := if framework_lookup (frameworks st) name is Some _ then hA
             else store hA l (str "framework") (VStr (str "Weex"))).
  assert (Hc1 : ∃ c1, h1 !! l = Some c1).
  { unfold h1. destruct (framework_lookup _ _); [by eexists |].
    rewrite (store_lookup_eq _ _ _ _ _ Hc). by eexists. }
  destruct Hc1 as [c1 Hc1]. split.
  - by eapply prop_store_same.
  - intros k Hfw Hcr. rewrite prop_store_other by done. unfold h1.
    destruct (framework_lookup _ _); [done |]. by rewrite prop_store_other.
Qed.

(** The record of a creation, whatever the outcome of the call. *)
Lemma creation_record id code config data st out st' :
  instanceMap st !! toString (heap st) id = None ->
  inherited (toString (heap st) id) = false ->
  createInstance id code config data st = (out, st') ->
  ∃ l hA,
    let st_i := record_state id l (set_heap hA st) in
    info_alloc (toString (heap st) code) (heap st) = (VRef l, hA)
    ∧ instanceMap st' = <[toString (heap st_i) id := VRef l]> (instanceMap st)
    ∧ frameworks st' = frameworks st
    ∧ services st' = services st
    ∧ (∀ k, prop (heap st') (VRef l) k = prop (heap st_i) (VRef l) k)
    ∧ keeps (length (heap st)) (heap st) (heap st').
Proof.
  intros Hnone Hown Hrun.
  destruct (createInstance_fresh _ _ _ _ _ _ _ Hnone Hown Hrun)
    as (l & hA & oc & st_c & Halloc & Hcfg & Hkc & Hsmc & _).
  destruct (info_alloc_allocated _ _ _ _ Halloc) as [Hal Hps].
  destruct (record_state_facts id l hA st Hal Hps)
    as (Hmap & _ & Hfw & Hlen & Hki & _).
  exists l, hA. cbv zeta.
  set (st_i := record_state id l (set_heap hA st)) in *.
  assert (Hli : (0 <= l < length (heap st_i))%nat).
  { rewrite Hlen. destruct Hal as (new & _ & Hv & _). apply Forall_inv in Hv.
    unfold ref_within in Hv. lia. }
  destruct (initConfig_spec 0 l config st_i _ _ Hli Hcfg) as (Hsf & Hkic & _).
  destruct Hsmc as (Hf' & Hm' & Hs' & _). destruct Hsf as (Hf & Hm & Hs & _).
  split; [done |]. split; [by rewrite Hm', Hm |].
  split; [by rewrite Hf', Hf |]. split; [by rewrite Hs', Hs |]. split.
  - intros k. transitivity (prop (heap st_c) (VRef l) k).
    + eapply prop_keeps; [| exact Hkc]. destruct Hkic. lia.
    + eapply prop_keeps; [| exact Hkic]. lia.
  - eapply keeps_trans; [exact Hki |]. eapply keeps_trans.
    + eapply keeps_le; [| exact Hkic]. destruct Hki. lia.
    + eapply keeps_le; [| exact Hkc]. destruct Hki, Hkic. lia.
Qed.

(** X12.  [createInstance] for a free id that names no member of
    [Object.prototype] records the id before anything
    can fail: whatever the outcome of the call, also when the
    configuration, a create hook or the backend throws, the id has a
    record afterwards, the other records are the same, and a second
    [createInstance] with that id returns the invalid-id error value and
    changes nothing. *)
Theorem createInstance_occupies_id id code config data st out st' :
  instanceMap st !! toString (heap st) id = None ->
  inherited (toString (heap st) id) = false ->
  primitive id = true ->
  createInstance id code config data st = (out, st') ->
  (∃ l, instanceMap st' !! toString (heap st) id = Some (VRef l))
  ∧ (∀ k, k ≠ toString (heap st) id -> instanceMap st' !! k = instanceMap st !! k)
  ∧ ∀ code' config' data',
      createInstance id code' config' data' st'
      = (Normal (invalid_id (heap st') id), st').
Proof.
  intros Hnone Hown Hprim Hrun.
  destruct (creation_record _ _ _ _ _ _ _ Hnone Hown Hrun)
    as (l & hA & _ & Hmap & _). cbv zeta in Hmap.
  rewrite (toString_primitive _ (heap st)) in Hmap by done.
  split; [| split].
  - exists l. by rewrite Hmap, lookup_insert_eq.
  - intros k Hk. by rewrite Hmap, lookup_insert_ne.
  - intros code' config' data'. unfold createInstance.
    bind_step. rewrite lookupInstance_run.
    rewrite (toString_primitive _ (heap st)) by done.
    rewrite (instance_lookup_own _ _ (VRef l)); [done |].
    by rewrite Hmap, lookup_insert_eq.
Qed.

(** X26.  An id that has no record and is the name of a member of
    [Object.prototype] cannot be created: [instanceMap[id]] is that
    member, and [createInstance] returns the invalid-id error value and
    changes nothing. *)
Theorem inherited_id_refused id code config data st :
  instanceMap st !! toString (heap st) id = None ->
  inherited (toString (heap st) id) = true ->
  createInstance id code config data st = (Normal (invalid_id (heap st) id), st).
Proof. apply createInstance_inherited. Qed.

(** X13.  [createInstance] for a free id writes to objects it has made
    itself only: every cell that existed before the call is the same
    after it, whatever the outcome, and so are the backends and the
    services. *)
Theorem createInstance_keeps_objects id code config data st out st' :
  instanceMap st !! toString (heap st) id = None ->
  createInstance id code config data st = (out, st') ->
  (length (heap st) <= length (heap st'))%nat
  ∧ (∀ l, (l < length (heap st))%nat -> heap st' !! l = heap st !! l)
  ∧ frameworks st' = frameworks st
  ∧ services st' = services st.
Proof.
  intros Hnone Hrun.
  destruct (inherited (toString (heap st) id)) eqn:Hown.
  { rewrite createInstance_inherited in Hrun by done. by injection Hrun as _ <-. }
  destruct (creation_record _ _ _ _ _ _ _ Hnone Hown Hrun)
    as (l & hA & _ & _ & Hf & Hs & _ & Hlen & Hk).
  done.
Qed.

(** X14.  The record of a creation, for a free id that names no member of
    [Object.prototype]: [created] is the clock at the call, and
    every member of the descriptor other than [framework] and [created]
    is as [JSON.parse] built it, whatever the outcome of the call. *)
Theorem createInstance_record_fields id code config data st out st' info hA :
  instanceMap st !! toString (heap st) id = None ->
  inherited (toString (heap st) id) = false ->
  info_alloc (toString (heap st) code) (heap st) = (info, hA) ->
  createInstance id code config data st = (out, st') ->
  prop (heap st') info (str "created") = VNum (Date_now (outside st))
  ∧ ∀ k, k ≠ str "framework" -> k ≠ str "created" ->
         prop (heap st') info k = prop hA info k.
Proof.
  intros Hnone Hown Halloc Hrun.
  destruct (creation_record _ _ _ _ _ _ _ Hnone Hown Hrun)
    as (l & hA' & Halloc' & _ & _ & _ & Hprop & _). cbv zeta in Hprop.
  rewrite Halloc in Halloc'. injection Halloc' as -> <-.
  destruct (info_alloc_allocated _ _ _ _ Halloc) as [_ [ps Hps]].
  destruct (record_state_props id l hA st _ Hps) as [Hcreated Hother].
  split; [by rewrite Hprop |]. intros k Hfw Hcr. rewrite Hprop. by apply Hother.
Qed.

(** X15.  When [frameworks] has neither the framework the descriptor
    declares, which is not the name of a member of [Object.prototype]
    either, nor [Weex], [createInstance] for a free id that names no
    member of [Object.prototype] throws, and leaves a record
    that no entry point can use or remove: each routed entry point and
    the legacy alias, [destroyInstance] included, returns the invalid-id
    error value and changes nothing. *)
Theorem createInstance_without_backend id code config data st out st' info hA :
  instanceMap st !! toString (heap st) id = None ->
  inherited (toString (heap st) id) = false ->
  primitive id = true ->
  info_alloc (toString (heap st) code) (heap st) = (info, hA) ->
  assoc (toString hA (prop hA info (str "framework"))) (frameworks st) = None ->
  inherited (toString hA (prop hA info (str "framework"))) = false ->
  assoc (str "Weex") (frameworks st) = None ->
  createInstance id code config data st = (out, st') ->
  (∃ e, out = Throw e)
  ∧ instanceMap st' !! toString (heap st') id = Some info
  ∧ ∀ name f args,
      instance_entry name f ->
      nth 0 args VUndef = id ->
      f args st' = (Normal (invalid_id (heap st') id), st').
Proof.
  intros Hnone Hown Hprim Halloc Hdecl Hdown Hweex Hrun.
  destruct (createInstance_binding _ _ _ _ _ _ _ _ _ Hnone Hown Hprim Halloc Hrun)
    as (Hmap & Hfw & es & _ & _ & Hret).
  destruct (creation_record _ _ _ _ _ _ _ Hnone Hown Hrun)
    as (l & hA' & Halloc' & _ & Hfws & _).
  rewrite Halloc in Halloc'. injection Halloc' as -> <-.
  assert (Hbound : bound_framework (frameworks st) hA (VRef l) = VStr (str "Weex")).
  { unfold bound_framework. by rewrite framework_lookup_free. }
  assert (Hkey : instanceMap st' !! toString (heap st') id = Some (VRef l)).
  { rewrite (toString_primitive _ (heap st)) by done.
    by rewrite Hmap, lookup_insert_eq. }
  assert (Hnob : backend_of st' (VRef l) = None).
  { unfold backend_of. rewrite Hfw, Hbound, Hfws.
    change (toString (heap st') (VStr (str "Weex"))) with (str "Weex").
    by rewrite framework_lookup_free. }
  split; [| split; [done |]].
  - destruct out as [r | e]; [| by eexists].
    destruct (Hret r eq_refl) as (name & b & so & cfg & es' & Hb & Hname & _).
    rewrite (Hname _ Hbound) in Hb. congruence.
  - intros name f args He <-.
    destruct He as [[_ ->] | [_ ->]].
    + by eapply genInstance_unbound.
    + by eapply adaptInstance_unbound.
Qed.

(** X16.  Creating an instance and then destroying it: when the
    [destroyInstance] returns, either the registry is the one before the
    creation, or the backend of the record is not registered and the call
    returned the invalid-id error value and changed nothing. *)
Theorem create_then_destroy id code config data st out st1 rest r st2 :
  instanceMap st !! toString (heap st) id = None ->
  primitive id = true ->
  createInstance id code config data st = (out, st1) ->
  genInstance (str "destroyInstance") (id :: rest) st1 = (Normal r, st2) ->
  instanceMap st2 = instanceMap st
  ∨ (live st1 id = None ∧ r = invalid_id (heap st1) id ∧ st2 = st1).
Proof.
  intros Hnone Hprim Hrun.
  assert (Hmap : ∃ new, instanceMap st1 = new
                        ∧ delete (toString (heap st) id) new = instanceMap st).
  { destruct (inherited (toString (heap st) id)) eqn:Hown.
    - rewrite createInstance_inherited in Hrun by done. injection Hrun as _ <-.
      eexists. split; [done |]. by apply delete_id.
    - destruct (creation_record _ _ _ _ _ _ _ Hnone Hown Hrun)
        as (l & hA & _ & Hmap & _). cbv zeta in Hmap.
      rewrite (toString_primitive _ (heap st)) in Hmap by done.
      eexists. split; [exact Hmap |]. by apply delete_insert_id. }
  destruct Hmap as (new & Hmap & Hdel).
  rewrite genInstance_run. cbn [nth].
  destruct (live st1 id) as [[info [name b]] |].
  2:{ intros [= <- <-]. by right. }
  intros Hd. apply routed_registry in Hd as (_ & _ & _ & Hm).
  destruct (decide (str "destroyInstance" = str "destroyInstance")) as [_ | []];
    [| done].
  left. rewrite Hm. cbn [nth].
  rewrite (toString_primitive _ (heap st)) by done.
  by rewrite Hmap.
Qed.




(** *** Creation: what the snapshot holds *)

Lemma serialize_scalar fuel stack h x j :
  scalar x = Some j -> serialize fuel stack h x = Some (Some j).
Proof. destruct x; try discriminate; intros [= <-]; by destruct fuel. Qed.

Lemma alloc_scalar x j h : scalar x = Some j -> (alloc_json j h).1 = x.
Proof. destruct x; try discriminate; by intros [= <-]. Qed.

Lemma sequence_Forall2 {A B : Type} (g : A -> option B) (l : list A) : ∀ r,
  sequence (List.map g l) = Some r -> Forall2 (fun a b => g a = Some b) l r.
Proof.
  induction l as [| a l IH]; intros r; cbn.
  - intros [= <-]. constructor.
  - destruct (g a) as [b |] eqn:Hb; [| discriminate].
    destruct (sequence (List.map g l)) as [r' |]; [| discriminate].
    intros [= <-]. constructor; [done | by apply IH].
Qed.

Lemma assoc_not_in {A : Type} k (l : list (text * A)) :
  k ∉ List.map fst l -> assoc k l = None.
Proof.
  induction l as [| [k' a] l IH]; [done |]. cbn. intros Hk.
  apply not_elem_of_cons in Hk as [Hne Hk].
  destruct (decide (k = k')); [done | by apply IH].
Qed.

(** The member the text has for a property whose value is a scalar. *)
Lemma printed_member (g : value -> option (option json)) ps : ∀ js k x j,
  Forall2 (fun kv o => g kv.2 = Some o) ps js ->
  assoc k ps = Some x ->
  g x = Some (Some j) ->
  assoc k (printed_members ps js) = Some j.
Proof.
  unfold printed_members.
  induction ps as [| [k0 x0] ps IH]; intros js k x j Hall Hk Hx; [done |].
  apply Forall2_cons_inv_l in Hall as (o & js' & Ho & Hall & ->).
  cbn [List.map combine omap fst snd] in *.
  cbn [assoc] in Hk. destruct (decide (k = k0)) as [-> | Hne].
  - injection Hk as ->. rewrite Hx in Ho. injection Ho as <-. cbn.
    by destruct (decide (k0 = k0)).
  - destruct o as [j0 |]; cbn.
    + destruct (decide (k = k0)); [done |]. by eapply IH.
    + by eapply IH.
Qed.

Lemma printed_members_names ps : ∀ js k,
  k ∈ List.map fst (printed_members ps js) -> k ∈ List.map fst ps.
Proof.
  unfold printed_members.
  induction ps as [| [k0 x0] ps IH]; intros [| o js] k; cbn; try done.
  { by intros ?%elem_of_nil. }
  destruct o as [j0 |]; cbn.
  - intros [-> | Hk]%elem_of_cons; [by left | right; by eapply IH].
  - intros Hk. right. by eapply IH.
Qed.

Lemma printed_members_NoDup ps : ∀ js,
  NoDup (List.map fst ps) -> NoDup (List.map fst (printed_members ps js)).
Proof.
  induction ps as [| [k0 x0] ps IH]; intros [| o js] Hnd;
    try (unfold printed_members; cbn; by constructor).
  apply NoDup_cons in Hnd as [Hk0 Hnd]. specialize (IH js Hnd).
  unfold printed_members in *. cbn [List.map combine omap fst snd].
  destruct o as [j0 |]; cbn; [| done].
  apply NoDup_cons. split; [| done].
  intros Hin. apply Hk0. by eapply printed_members_names.
Qed.

(** [JSON.parse] keeps the value of a member whose name is not repeated. *)
Lemma fold_assoc_set_member {A : Type} k (ms : list (text * A)) : ∀ acc,
  NoDup (List.map fst ms) ->
  assoc k (fold_left (fun acc kv => assoc_set kv.1 kv.2 acc) ms acc)
  = match assoc k ms with
    | Some a => Some a
    | None => assoc k acc
    end.
Proof.
  induction ms as [| [k0 a0] ms IH]; intros acc Hnd; [done |].
  apply NoDup_cons in Hnd as [Hk0 Hnd]. cbn [fold_left fst snd assoc].
  rewrite IH by done. destruct (decide (k = k0)) as [-> | Hne].
  - rewrite assoc_not_in by done. apply assoc_set_same.
  - destruct (assoc k ms); [done |]. by apply assoc_set_other.
Qed.

Lemma alloc_members_copied ms : ∀ h, Forall2 copied_from (alloc_members ms h).1 ms.
Proof.
  induction ms as [| [k j] ms IH]; intros h; [constructor |].
  cbn [alloc_members].
  pose proof (fun x => alloc_scalar x j h) as Hj.
  destruct (alloc_json j h) as [v h1]. specialize (IH h1).
  destruct (alloc_members ms h1) as [ps h2]. constructor; [| done].
  split; [done |]. intros x Hx. exact (Hj x Hx).
Qed.

Lemma assoc_set_copied k v j acc acc' :
  copied_from (k, v) (k, j) -> Forall2 copied_from acc acc' ->
  Forall2 copied_from (assoc_set k v acc) (assoc_set k j acc').
Proof.
  intros Hkv. induction 1 as [| [k1 v1] [k2 j2] acc acc' [Hk Hv] Hacc IH]; cbn.
  - constructor; [exact Hkv | constructor].
  - cbn in Hk. subst k2. destruct (decide (k = k1)); constructor; try done.
Qed.

Lemma fold_copied ps ms : ∀ acc acc',
  Forall2 copied_from ps ms -> Forall2 copied_from acc acc' ->
  Forall2 copied_from (fold_left (fun a kv => assoc_set kv.1 kv.2 a) ps acc)
    (fold_left (fun a kv => assoc_set kv.1 kv.2 a) ms acc').
Proof.
  intros acc acc' Hps. revert acc acc'.
  induction Hps as [| [k v] [k' j] ps ms [Hk Hv] Hps IH]; intros acc acc' Hacc; [done |].
  cbn in Hk. subst k'. cbn [fold_left fst snd]. apply IH.
  by apply assoc_set_copied.
Qed.

Lemma assoc_copied k x j ps ms :
  Forall2 copied_from ps ms -> assoc k ms = Some j -> scalar x = Some j ->
  assoc k ps = Some x.
Proof.
  induction 1 as [| [k1 v1] [k2 j2] ps ms [Hk Hv] Hps IH]; [done |].
  cbn in *. subst k2. destruct (decide (k = k1)); [| done].
  intros [= ->] Hx. by rewrite (Hv x Hx).
Qed.

Lemma prop_scalar_member ms h info hA k x j :
  alloc_json (JObj ms) h = (info, hA) ->
  json_member k ms = Some j ->
  scalar x = Some j ->
  prop hA info k = x.
Proof.
  rewrite alloc_json_obj. pose proof (alloc_members_copied ms h) as Hb.
  destruct (alloc_members ms h) as [ps h1]. intros [= <- <-] Hm Hx.
  cbn [prop]. rewrite lookup_app_r by lia. rewrite Nat.sub_diag. cbn.
  erewrite assoc_copied; [done | | exact Hm | exact Hx].
  apply fold_copied; [exact Hb | constructor].
Qed.

(** The text of an object has, for a property whose value is a scalar,
    a member with the text of that value. *)
Lemma stringify_member h l ps k x j t :
  h !! l = Some (CObj ps) ->
  NoDup (List.map fst ps) ->
  assoc k ps = Some x ->
  scalar x = Some j ->
  JSON_stringify_tree h (VRef l) = Some t ->
  ∃ ms, t = Some (JObj ms) ∧ json_member k ms = Some j.
Proof.
  intros Hl Hnd Hk Hx. unfold JSON_stringify_tree. cbn [serialize existsb].
  rewrite Hl.
  destruct (sequence _) as [js |] eqn:Hseq; [| discriminate].
  intros [= <-]. eexists. split; [reflexivity |].
  apply (sequence_Forall2 (fun kv => serialize (length h) [l] h kv.2)) in Hseq.
  fold (printed_members ps js). unfold json_member.
  rewrite fold_assoc_set_member by (by apply printed_members_NoDup).
  erewrite (printed_member (serialize (length h) [l] h)); [done | exact Hseq | exact Hk |].
  by apply serialize_scalar.
Qed.

(** The snapshot of lines 50 to 53 has the properties of the object that
    [JSON.parse] built, but for [bundleVersion] and [env]. *)
Lemma initConfig_clone l config st cfg st' :
  initConfig (VRef l) config st = (Normal cfg, st') ->
  ∃ j1 hb,
    JSON_stringify_tree (or_empty config (heap st)).2 (or_empty config (heap st)).1
    = Some (Some j1)
    ∧ alloc_json j1 (or_empty config (heap st)).2 = (cfg, hb)
    ∧ (∀ k, k ≠ str "bundleVersion" -> k ≠ str "env" ->
            prop (heap st') cfg k = prop hb cfg k)
    ∧ (length hb <= length (heap st'))%nat
    ∧ ∀ l', (l' < length hb)%nat -> VRef l' ≠ cfg -> heap st' !! l' = hb !! l'.
Proof.
  unfold initConfig.
  bind_step. rewrite orEmpty_run.
  destruct (or_empty config (heap st)) as [c ha] eqn:Hor. cbn [fst snd]. cbv beta iota.
  bind_step. unfold JSON_stringify at 1. cbn [heap set_heap].
  destruct (JSON_stringify_tree ha c) as [[j1 |] |]; cbv beta iota; [| discriminate..].
  bind_step. unfold JSON_parse_tree at 1. cbn [heap set_heap].
  pose proof (alloc_json_allocated j1 ha) as Hal1.
  pose proof (alloc_json_value j1 ha) as Hv1.
  destruct (alloc_json j1 ha) as [cfg0 hb] eqn:Halloc1.
  cbn [fst snd] in Hal1, Hv1. cbv beta iota.
  bind_step. cbn [getProp]. unfold gets at 1. cbn [heap set_heap]. cbv beta iota.
  bind_step.
  destruct cfg0 as [| | b | n | t | lc | k msg | nm]; cbv beta iota in Hv1; try done;
    try (cbn [setProp]; unfold throw; cbv beta iota; discriminate).
  cbn [setProp]. unfold modify at 1. cbn [heap set_heap]. cbv beta iota.
  assert (Hlc : (length ha <= lc < length hb)%nat).
  { destruct Hal1 as (new & _ & Hvs & _). by apply Forall_inv in Hvs. }
  set (version := prop hb (VRef l) (str "version")).
  set (hc := store hb lc (str "bundleVersion") version).
  assert (Hlen_c : length hc = length hb) by apply store_length.
  bind_step. unfold gets at 1. cbn [WXEnvironment set_heap]. cbv beta iota.
  bind_step. rewrite orEmpty_run. cbn [heap set_heap].
  destruct (or_empty (WXEnvironment st) hc) as [e hd] eqn:Hor'. cbn [fst snd].
  cbv beta iota.
  assert (Hkd : keeps (length hc) hc hd).
  { unfold or_empty in Hor'. destruct (toBoolean _); injection Hor' as <- <-;
      [apply keeps_refl | by apply keeps_app]. }
  set (sd := set_heap hd _).
  bind_step. unfold JSON_stringify at 1. replace (heap sd) with hd by reflexivity.
  destruct (JSON_stringify_tree hd e) as [[j2 |] |]; cbv beta iota; [| discriminate..].
  bind_step. unfold JSON_parse_tree at 1. replace (heap sd) with hd by reflexivity.
  pose proof (alloc_json_allocated j2 hd) as Hal2.
  destruct (alloc_json j2 hd) as [env he]. cbn [fst snd] in Hal2. cbv beta iota.
  bind_step. cbn [setProp]. unfold modify at 1. cbn [heap set_heap]. cbv beta iota.
  set (hf := store he lc (str "env") env).
  bind_step. cbn [getProp]. unfold gets at 1. cbv beta iota.
  bind_step. cbn [getProp]. unfold gets at 1. cbv beta iota.
  bind_step. unfold gets at 1. cbv beta iota.
  bind_step. unfold console_debug, modify at 1. cbv beta iota.
  unfold ret. intros [= <- <-]. cbn [heap trace set_heap set_trace].
  assert (Hke : keeps (length hd) hd he).
  { destruct Hal2 as (new & -> & _). by apply keeps_app. }
  exists j1, hb. split; [done |]. split; [done |]. split; [| split].
  - intros k Hbv Henv. unfold hf. rewrite prop_store_other by done.
    transitivity (prop hd (VRef lc) k).
    { eapply prop_keeps; [| exact Hke]. destruct Hkd. lia. }
    transitivity (prop hc (VRef lc) k).
    { eapply prop_keeps; [| exact Hkd]. lia. }
    unfold hc. by rewrite prop_store_other.
  - unfold hf. rewrite store_length. destruct Hkd, Hke. lia.
  - intros l' Hl' Hne. unfold hf.
    rewrite store_lookup_ne by (by intros ->).
    destruct Hke as [_ Hke]. rewrite Hke by (destruct Hkd; lia).
    destruct Hkd as [_ Hkd]. rewrite Hkd by lia.
    unfold hc. apply store_lookup_ne. by intros ->.
Qed.

(** *** Creation: the snapshot is a copy *)

Lemma alloc_json_length j h : (length h <= length (alloc_json j h).2)%nat.
Proof.
  destruct (alloc_json_allocated j h) as (new & -> & _). rewrite length_app. lia.
Qed.

Lemma alloc_elems_length js : ∀ h, (length h <= length (alloc_elems js h).2)%nat.
Proof.
  induction js as [| j js IH]; intros h; [done |]. cbn [alloc_elems].
  pose proof (alloc_json_length j h) as Hj.
  destruct (alloc_json j h) as [v h1]. specialize (IH h1).
  destruct (alloc_elems js h1) as [vs h2]. cbn in *. lia.
Qed.

Lemma alloc_members_length ms : ∀ h, (length h <= length (alloc_members ms h).2)%nat.
Proof.
  induction ms as [| [k j] ms IH]; intros h; [done |]. cbn [alloc_members].
  pose proof (alloc_json_length j h) as Hj.
  destruct (alloc_json j h) as [v h1]. specialize (IH h1).
  destruct (alloc_members ms h1) as [ps h2]. cbn in *. lia.
Qed.

Lemma alloc_members_names ms : ∀ h,
  List.map fst (alloc_members ms h).1 = List.map fst ms.
Proof.
  induction ms as [| [k j] ms IH]; intros h; [done |]. cbn [alloc_members].
  destruct (alloc_json j h) as [v h1]. specialize (IH h1).
  destruct (alloc_members ms h1) as [ps h2]. cbn in *. by rewrite IH.
Qed.

(** [JSON.parse] allocates after the cells of the heap, which it keeps. *)
Lemma alloc_json_prefix j h l :
  (l < length h)%nat -> (alloc_json j h).2 !! l = h !! l.
Proof.
  intros Hl. destruct (alloc_json_allocated j h) as (new & -> & _).
  by apply lookup_app_l.
Qed.

Lemma alloc_elems_prefix js : ∀ h l,
  (l < length h)%nat -> (alloc_elems js h).2 !! l = h !! l.
Proof.
  induction js as [| j js IH]; intros h l Hl; [done |]. cbn [alloc_elems].
  pose proof (alloc_json_length j h) as Hlen.
  pose proof (alloc_json_prefix j h l Hl) as Hj.
  destruct (alloc_json j h) as [v h1]. specialize (IH h1 l).
  destruct (alloc_elems js h1) as [vs h2]. cbn in *. rewrite IH by lia. done.
Qed.

Lemma alloc_members_prefix ms : ∀ h l,
  (l < length h)%nat -> (alloc_members ms h).2 !! l = h !! l.
Proof.
  induction ms as [| [k j] ms IH]; intros h l Hl; [done |]. cbn [alloc_members].
  pose proof (alloc_json_length j h) as Hlen.
  pose proof (alloc_json_prefix j h l Hl) as Hj.
  destruct (alloc_json j h) as [v h1]. specialize (IH h1 l).
  destruct (alloc_members ms h1) as [ps h2]. cbn in *. rewrite IH by lia. done.
Qed.

(** The properties of an object built from members with distinct names
    are these members, in their order. *)
Lemma fold_assoc_set_distinct {A : Type} (ps : list (text * A)) : ∀ acc,
  NoDup (List.map fst (acc ++ ps)) ->
  fold_left (fun a kv => assoc_set kv.1 kv.2 a) ps acc = acc ++ ps.
Proof.
  induction ps as [| [k a] ps IH]; intros acc Hnd; [by rewrite app_nil_r |].
  cbn [fold_left fst snd].
  assert (Hset : assoc_set k a acc = acc ++ [(k, a)]).
  { assert (Hk : k ∉ List.map fst acc).
    { rewrite map_app in Hnd. apply NoDup_app in Hnd as (_ & Hdis & _).
      intros Hin. apply (Hdis k Hin). cbn. left. }
    clear -Hk. induction acc as [| [k' a'] acc IH]; [done |]. cbn in *.
    apply not_elem_of_cons in Hk as [Hne Hk].
    destruct (decide (k = k')); [done |]. by rewrite IH. }
  rewrite Hset, IH; [by rewrite <- app_assoc |]. by rewrite <- app_assoc.
Qed.

Lemma sequence_Some {A : Type} (l : list A) : sequence (List.map Some l) = Some l.
Proof. induction l as [| a l IH]; [done |]. cbn. by rewrite IH. Qed.

Lemma printed_members_all (ps : list (text * value)) (ms : list (text * json)) :
  List.map fst ps = List.map fst ms ->
  printed_members ps (List.map Some (List.map snd ms)) = ms.
Proof.
  unfold printed_members. revert ms.
  induction ps as [| [k v] ps IH]; intros [| [k' j] ms]; try done.
  cbn. intros [= -> Hrest]. f_equal. by apply IH.
Qed.

(** [JSON.stringify] of what [JSON.parse] built from a tree that
    [JSON.stringify] prints is that tree: on every heap that has the cells
    built, with enough budget, and whatever is being printed around it. *)
Lemma parse_then_stringify j : ∀ h h2 stack fuel,
  canonical j = true ->
  (json_depth j <= fuel)%nat ->
  (∀ l, (length h <= l < length (alloc_json j h).2)%nat ->
        h2 !! l = (alloc_json j h).2 !! l) ->
  (∀ l, l ∈ stack -> ¬ (length h <= l < length (alloc_json j h).2)%nat) ->
  serialize fuel stack h2 (alloc_json j h).1 = Some (Some j).
Proof.
  induction j as [| b | lit | s | js IHjs | ms IHms] using json_ind';
    intros h h2 stack fuel Hcan Hfuel Hagree Hstack.
  - by destruct fuel.
  - by destruct fuel.
  - cbn in Hcan. apply bool_decide_eq_true in Hcan.
    assert (Hs : serialize fuel stack h2 (VNum (numberOfLiteral lit))
                 = Some (Some (number_json (numberOfLiteral lit)))) by (by destruct fuel).
    cbn [alloc_json fst]. rewrite Hs. unfold number_json. by rewrite Hcan.
  - by destruct fuel.
  - (* arrays *)
    rewrite alloc_json_arr in *.
    pose proof (alloc_elems_length js h) as Hlen.
    destruct (alloc_elems js h) as [vs h1] eqn:Hel. cbn [fst snd] in *.
    destruct fuel as [| f]; [cbn in Hfuel; lia |]. cbn [serialize].
    assert (Hex : existsb (Nat.eqb (length h1)) stack = false).
    { apply not_true_is_false. intros (x & Hx & Heq%Nat.eqb_eq)%existsb_exists.
      subst x. apply (Hstack (length h1)); [by apply list_elem_of_In |].
      rewrite length_app. cbn. lia. }
    rewrite Hex, Hagree by (rewrite length_app; cbn; lia).
    rewrite lookup_app_r by lia. rewrite Nat.sub_diag. cbn [lookup list_lookup].
    assert (Hall : List.map (serialize f (length h1 :: stack) h2) vs
                   = List.map Some (List.map Some js)).
    { cbn [json_depth] in Hfuel. cbn [canonical] in Hcan.
      assert (Hagree1 : ∀ l, (length h <= l < length h1)%nat -> h2 !! l = h1 !! l).
      { intros l Hl. rewrite Hagree by (rewrite length_app; lia).
        by rewrite lookup_app_l by lia. }
      assert (Hstack1 : ∀ l, l ∈ length h1 :: stack ->
                             ¬ (length h <= l < length h1)%nat).
      { intros l [-> | Hl]%elem_of_cons; [lia |].
        intros Hin. apply (Hstack l Hl). rewrite length_app. lia. }
      clear Hagree Hstack Hex. revert h vs Hel Hlen Hagree1 Hstack1.
      induction js as [| j js IH]; intros h vs Hel Hlen Hagree1 Hstack1.
      - cbn in Hel. by injection Hel as <- <-.
      - apply Forall_cons in IHjs as [Hj Hjs].
        cbn [forallb] in Hcan. apply andb_true_iff in Hcan as [Hcj Hcjs].
        cbn [fold_right] in Hfuel.
        cbn [alloc_elems] in Hel.
        destruct (alloc_json j h) as [v ha] eqn:Hja.
        destruct (alloc_elems js ha) as [vs' hb] eqn:Hjs'.
        pose proof (alloc_json_length j h) as Hlj. rewrite Hja in Hlj.
        pose proof (alloc_elems_length js ha) as Hljs. rewrite Hjs' in Hljs.
        assert (Hpre : ∀ l, (l < length ha)%nat -> hb !! l = ha !! l).
        { intros l Hl. pose proof (alloc_elems_prefix js ha l Hl) as Hp.
          by rewrite Hjs' in Hp. }
        injection Hel as <- <-. cbn [fst snd] in *. cbn [List.map]. f_equal.
        + pose proof (Hj h h2 (length hb :: stack) f Hcj) as Hj'.
          rewrite Hja in Hj'. cbn [fst snd] in Hj'. apply Hj'; [lia | |].
          * intros l Hl. rewrite Hagree1 by lia. apply Hpre. lia.
          * intros l Hl Hin. apply (Hstack1 l Hl). lia.
        + apply (IH Hjs Hcjs) with (h := ha); [lia | done | lia | |].
          * intros l Hl. apply Hagree1. lia.
          * intros l Hl Hin. apply (Hstack1 l Hl). lia. }
    rewrite Hall, sequence_Some. do 3 f_equal.
    rewrite map_map. cbn. apply map_id.
  - (* objects *)
    rewrite alloc_json_obj in *.
    pose proof (alloc_members_length ms h) as Hlen.
    pose proof (alloc_members_names ms h) as Hnames.
    destruct (alloc_members ms h) as [ps h1] eqn:Hel. cbn [fst snd] in *.
    cbn [canonical] in Hcan. apply andb_true_iff in Hcan as [Hnd Hcan].
    apply bool_decide_eq_true in Hnd.
    rewrite (fold_assoc_set_distinct ps []) in * by (cbn; by rewrite Hnames).
    cbn [app] in *.
    destruct fuel as [| f]; [cbn in Hfuel; lia |]. cbn [serialize].
    assert (Hex : existsb (Nat.eqb (length h1)) stack = false).
    { apply not_true_is_false. intros (x & Hx & Heq%Nat.eqb_eq)%existsb_exists.
      subst x. apply (Hstack (length h1)); [by apply list_elem_of_In |].
      rewrite length_app. cbn. lia. }
    rewrite Hex, Hagree by (rewrite length_app; cbn; lia).
    rewrite lookup_app_r by lia. rewrite Nat.sub_diag. cbn [lookup list_lookup].
    assert (Hall : List.map (fun kv => serialize f (length h1 :: stack) h2 kv.2) ps
                   = List.map Some (List.map Some (List.map snd ms))).
    { cbn [json_depth] in Hfuel.
      assert (Hagree1 : ∀ l, (length h <= l < length h1)%nat -> h2 !! l = h1 !! l).
      { intros l Hl. rewrite Hagree by (rewrite length_app; lia).
        by rewrite lookup_app_l by lia. }
      assert (Hstack1 : ∀ l, l ∈ length h1 :: stack ->
                             ¬ (length h <= l < length h1)%nat).
      { intros l [-> | Hl]%elem_of_cons; [lia |].
        intros Hin. apply (Hstack l Hl). rewrite length_app. lia. }
      clear Hagree Hstack Hex Hnd Hnames. revert h ps Hel Hlen Hagree1 Hstack1.
      induction ms as [| [k j] ms IH]; intros h ps Hel Hlen Hagree1 Hstack1.
      - cbn in Hel. by injection Hel as <- <-.
      - apply Forall_cons in IHms as [Hj Hjs].
        cbn [forallb] in Hcan. apply andb_true_iff in Hcan as [Hcj Hcjs].
        cbn [fold_right] in Hfuel.
        cbn [alloc_members] in Hel.
        destruct (alloc_json j h) as [v ha] eqn:Hja.
        destruct (alloc_members ms ha) as [ps' hb] eqn:Hjs'.
        pose proof (alloc_json_length j h) as Hlj. rewrite Hja in Hlj.
        pose proof (alloc_members_length ms ha) as Hljs. rewrite Hjs' in Hljs.
        assert (Hpre : ∀ l, (l < length ha)%nat -> hb !! l = ha !! l).
        { intros l Hl. pose proof (alloc_members_prefix ms ha l Hl) as Hp.
          by rewrite Hjs' in Hp. }
        injection Hel as <- <-. cbn [fst snd] in *. cbn [List.map fst snd]. f_equal.
        + pose proof (Hj h h2 (length hb :: stack) f Hcj) as Hj'.
          rewrite Hja in Hj'. cbn [fst snd] in Hj'. apply Hj'; [lia | |].
          * intros l Hl. rewrite Hagree1 by lia. apply Hpre. lia.
          * intros l Hl Hin. apply (Hstack1 l Hl). lia.
        + apply (IH Hjs Hcjs) with (h := ha); [lia | done | lia | |].
          * intros l Hl. apply Hagree1. lia.
          * intros l Hl Hin. apply (Hstack1 l Hl). lia. }
    rewrite Hall, sequence_Some. do 3 f_equal.
    fold (printed_members ps (List.map Some (List.map snd ms))).
    by apply printed_members_all.
Qed.

Lemma sequence_In {A : Type} (l : list (option A)) r a :
  sequence l = Some r -> a ∈ r -> Some a ∈ l.
Proof.
  revert r. induction l as [| [x |] l IH]; intros r; cbn.
  - intros [= <-]. by intros ?%elem_of_nil.
  - destruct (sequence l) as [r' |]; [| discriminate]. intros [= <-].
    intros [-> | Ha]%elem_of_cons; [left | right; by eapply IH].
  - discriminate.
Qed.

Lemma printed_members_In ps : ∀ js k j,
  (k, j) ∈ printed_members ps js -> Some j ∈ js.
Proof.
  unfold printed_members.
  induction ps as [| [k0 x0] ps IH]; intros [| o js] k j; cbn;
    try (by intros ?%elem_of_nil).
  destruct o as [j0 |]; cbn.
  - intros [[= -> ->] | Hin]%elem_of_cons; [left | right; by eapply IH].
  - intros Hin. right. by eapply IH.
Qed.

(** What [JSON.stringify] prints is a tree that [JSON.parse] gives back. *)
Lemma serialize_canonical h :
  json_roundtrip -> distinct_keys h = true ->
  ∀ fuel stack v j, serialize fuel stack h v = Some (Some j) -> canonical j = true.
Proof.
  intros [Hnum Hnat] Hkeys. induction fuel as [| f IH]; intros stack v j;
    destruct v as [| | b | n | s | l | k msg | nm]; cbn [serialize];
    try (intros [= <-]; reflexivity); try discriminate;
    try (by apply Hnat);
    try (intros [= <-]; unfold number_json;
         destruct (numberToJSON n) as [lit |] eqn:Hn; [| reflexivity];
         cbn [canonical]; apply bool_decide_eq_true; by eapply Hnum).
  - by destruct (existsb _ _).
  - destruct (existsb _ _); [discriminate |].
    destruct (h !! l) as [[ps | es ps] |] eqn:Hc; [| | discriminate].
    + destruct (sequence _) as [js |] eqn:Hseq; [| discriminate].
      intros [= <-]. cbn [canonical]. apply andb_true_iff. split.
      * apply bool_decide_eq_true. fold (printed_members ps js).
        apply printed_members_NoDup.
        unfold distinct_keys in Hkeys. rewrite forallb_forall in Hkeys.
        apply list_elem_of_lookup_2, list_elem_of_In, Hkeys in Hc.
        by apply bool_decide_eq_true in Hc.
      * fold (printed_members ps js). apply forallb_forall.
        intros [k j] Hin%list_elem_of_In. cbn.
        apply printed_members_In in Hin.
        eapply sequence_In in Hin; [| exact Hseq].
        apply list_elem_of_In, in_map_iff in Hin as ([k' x] & Hx & _).
        by eapply IH.
    + destruct (sequence _) as [js |] eqn:Hseq; [| discriminate].
      intros [= <-]. cbn [canonical]. apply forallb_forall.
      intros j Hin. apply in_map_iff in Hin as ([j' |] & <- & Hin); [| reflexivity].
      apply list_elem_of_In in Hin.
      eapply sequence_In in Hin; [| exact Hseq].
      apply list_elem_of_In, in_map_iff in Hin as (x & Hx & _).
      by eapply IH.
Qed.

Lemma sequence_ext {A B : Type} (f g : A -> option B) (l : list A) r :
  (∀ a b, f a = Some b -> g a = Some b) ->
  sequence (List.map f l) = Some r -> sequence (List.map g l) = Some r.
Proof.
  intros Hfg. revert r. induction l as [| a l IH]; intros r; [done |]. cbn.
  destruct (f a) as [b |] eqn:Hb; [| discriminate].
  rewrite (Hfg a b Hb).
  destruct (sequence (List.map f l)) as [r' |]; [| discriminate].
  intros [= <-]. by rewrite (IH r' eq_refl).
Qed.

(** What is printed inside a structure is printed the same outside of
    it. *)
Lemma serialize_stack_mono h : ∀ fuel stack stack' v r,
  (∀ x, x ∈ stack' -> x ∈ stack) ->
  serialize fuel stack h v = Some r -> serialize fuel stack' h v = Some r.
Proof.
  induction fuel as [| f IH]; intros stack stack' v r Hsub;
    destruct v as [| | b | n | s | l | k msg | nm]; cbn [serialize]; try done.
  - destruct (existsb _ stack); discriminate.
  - destruct (existsb (Nat.eqb l) stack) eqn:Hex; [discriminate |].
    assert (Hex' : existsb (Nat.eqb l) stack' = false).
    { apply not_true_is_false. intros (x & Hx & Heq%Nat.eqb_eq)%existsb_exists.
      subst x. apply list_elem_of_In, Hsub, list_elem_of_In in Hx.
      assert (existsb (Nat.eqb l) stack = true); [| congruence].
      apply existsb_exists. exists l. split; [done | apply Nat.eqb_refl]. }
    rewrite Hex'.
    assert (Hsub' : ∀ x, x ∈ l :: stack' -> x ∈ l :: stack).
    { intros x [-> | Hx]%elem_of_cons; [left | right; by apply Hsub]. }
    destruct (h !! l) as [[ps | es ps] |]; [| | done].
    + destruct (sequence _) as [js |] eqn:Hseq; [| discriminate].
      apply (sequence_ext _ (fun kv => serialize f (l :: stack') h kv.2)) in Hseq.
      * by rewrite Hseq.
      * intros kv b. by apply IH.
    + destruct (sequence _) as [js |] eqn:Hseq; [| discriminate].
      apply (sequence_ext _ (serialize f (l :: stack') h)) in Hseq.
      * by rewrite Hseq.
      * intros x b. by apply IH.
Qed.

(** The tree of a property of an object that [JSON.stringify] prints. *)
Lemma member_tree h l ps js k x :
  h !! l = Some (CObj ps) ->
  sequence (List.map (fun kv => serialize (length h) [l] h kv.2) ps) = Some js ->
  assoc k ps = Some x ->
  ∃ o, serialize (length h) [l] h x = Some o ∧ JSON_stringify_tree h x = Some o.
Proof.
  intros Hc Hseq Hk.
  apply (sequence_Forall2 (fun kv => serialize (length h) [l] h kv.2)) in Hseq.
  assert (Ho : ∃ o, serialize (length h) [l] h x = Some o).
  { clear Hc. revert js Hseq. induction ps as [| [k0 x0] ps IH]; intros js Hall; [done |].
    apply Forall2_cons_inv_l in Hall as (o & js' & Ho & Hall & ->).
    cbn in Hk. destruct (decide (k = k0)); [| by eapply IH].
    injection Hk as ->. by exists o. }
  destruct Ho as [o Ho]. exists o. split; [done |].
  unfold JSON_stringify_tree.
  apply (serialize_stack_mono h _ [l]); [by intros y ?%elem_of_nil |].
  rewrite <- Ho. apply serialize_budget.
  - apply NoDup_singleton.
  - intros l' ->%list_elem_of_singleton. by eapply lookup_lt_Some.
  - cbn. lia.
Qed.

Lemma printed_member_none (g : value -> option (option json)) ps : ∀ js k x,
  Forall2 (fun kv o => g kv.2 = Some o) ps js ->
  NoDup (List.map fst ps) ->
  assoc k ps = Some x ->
  g x = Some None ->
  assoc k (printed_members ps js) = None.
Proof.
  intros js k x Hall Hnd Hk Hx. apply assoc_not_in. intros Hin.
  revert js Hall Hin. unfold printed_members.
  induction ps as [| [k0 x0] ps IH]; intros js Hall Hin; [done |].
  apply Forall2_cons_inv_l in Hall as (o & js' & Ho & Hall & ->).
  apply NoDup_cons in Hnd as [Hk0 Hnd].
  cbn [List.map combine omap fst snd] in *.
  cbn [assoc] in Hk. destruct (decide (k = k0)) as [-> | Hne].
  - injection Hk as ->. rewrite Hx in Ho. injection Ho as <-. cbn in Hin.
    apply Hk0. by eapply printed_members_names.
  - destruct o as [j0 |]; cbn in Hin.
    + apply elem_of_cons in Hin as [-> | Hin]; [done | by eapply IH].
    + by eapply IH.
Qed.

(** The value [JSON.parse] builds for a member: where it is built, and
    that the cells built for it stay. *)
Lemma alloc_members_member ms : ∀ h k j,
  assoc k ms = Some j ->
  ∃ hk,
    assoc k (alloc_members ms h).1 = Some (alloc_json j hk).1
    ∧ (length h <= length hk)%nat
    ∧ (length (alloc_json j hk).2 <= length (alloc_members ms h).2)%nat
    ∧ ∀ l, (l < length (alloc_json j hk).2)%nat ->
           (alloc_members ms h).2 !! l = (alloc_json j hk).2 !! l.
Proof.
  induction ms as [| [k0 j0] ms IH]; intros h k j Hk; [done |].
  cbn [alloc_members]. cbn [assoc] in Hk.
  destruct (alloc_json j0 h) as [v ha] eqn:Hja.
  destruct (alloc_members ms ha) as [ps hb] eqn:Hms.
  pose proof (alloc_json_length j0 h) as Hlj. rewrite Hja in Hlj.
  pose proof (alloc_members_length ms ha) as Hlms. rewrite Hms in Hlms.
  cbn [fst snd] in *. destruct (decide (k = k0)) as [-> | Hne].
  - injection Hk as ->. exists h. rewrite Hja. cbn [fst snd assoc].
    destruct (decide (k0 = k0)); [| done].
    split; [done |]. split; [done |]. split; [done |].
    intros l Hl. pose proof (alloc_members_prefix ms ha l Hl) as Hp.
    by rewrite Hms in Hp.
  - destruct (IH ha k j Hk) as (hk & Hv & Hle & Hlen & Hpre).
    rewrite Hms in Hv, Hlen, Hpre. cbn [fst snd] in *.
    exists hk. cbn [assoc]. destruct (decide (k = k0)); [done |].
    split; [done |]. split; [lia |]. done.
Qed.

Lemma alloc_members_absent ms : ∀ h k,
  assoc k ms = None -> assoc k (alloc_members ms h).1 = None.
Proof.
  induction ms as [| [k0 j0] ms IH]; intros h k Hk; [done |].
  cbn [alloc_members]. cbn [assoc] in Hk.
  destruct (alloc_json j0 h) as [v ha]. specialize (IH ha k).
  destruct (alloc_members ms ha) as [ps hb]. cbn [fst snd assoc] in *.
  destruct (decide (k = k0)); [done | by apply IH].
Qed.

(** A copy made by [JSON.parse(JSON.stringify(o))] of an object [o] has
    what [o] has: each property of the copy prints as the property of
    [o], on every heap that keeps the cells below the copy. *)
Lemma clone_member h0 h l ps j1 cfg hb h2 k :
  json_roundtrip ->
  distinct_keys h0 = true ->
  h0 !! l = Some (CObj ps) ->
  JSON_stringify_tree h0 (VRef l) = Some (Some j1) ->
  alloc_json j1 h = (cfg, hb) ->
  (∀ l', (length h <= l' < length hb)%nat -> VRef l' ≠ cfg -> h2 !! l' = hb !! l') ->
  JSON_stringify_tree h2 (prop hb cfg k) = JSON_stringify_tree h0 (prop h0 (VRef l) k).
Proof.
  intros Hrt Hkeys Hc Htree Halloc Hagree.
  assert (Hnd : NoDup (List.map fst ps)).
  { unfold distinct_keys in Hkeys. rewrite forallb_forall in Hkeys.
    pose proof Hc as Hc'.
    apply list_elem_of_lookup_2, list_elem_of_In, Hkeys in Hc'.
    by apply bool_decide_eq_true in Hc'. }
  unfold JSON_stringify_tree in Htree. cbn [serialize existsb] in Htree.
  rewrite Hc in Htree.
  destruct (sequence _) as [js |] eqn:Hseq; [| discriminate].
  injection Htree as <-. fold (printed_members ps js) in Halloc.
  set (ms := printed_members ps js) in *.
  assert (Hndm : NoDup (List.map fst ms)) by (by apply printed_members_NoDup).
  pose proof (sequence_Forall2 (fun kv => serialize (length h0) [l] h0 kv.2) ps js Hseq)
    as Hall.
  rewrite alloc_json_obj in Halloc.
  pose proof (alloc_members_names ms h) as Hnames.
  pose proof (alloc_members_length ms h) as Hlen.
  pose proof (fun k j => alloc_members_member ms h k j) as Hmem.
  pose proof (alloc_members_absent ms h k) as Habs.
  destruct (alloc_members ms h) as [ps' h1] eqn:Hms. cbn [fst snd] in *.
  rewrite (fold_assoc_set_distinct ps' []) in Halloc by (cbn; by rewrite Hnames).
  cbn [app] in Halloc. injection Halloc as <- <-.
  assert (Hprop : prop (h1 ++ [CObj ps']) (VRef (length h1)) k
                  = match assoc k ps' with Some x => x | None => VUndef end).
  { cbn [prop]. rewrite lookup_app_r by lia. by rewrite Nat.sub_diag. }
  rewrite Hprop. cbn [prop]. rewrite Hc. cbn [cell_props].
  destruct (assoc k ps) as [x |] eqn:Hk.
  - destruct (member_tree h0 l ps js k x Hc Hseq Hk) as (o & Ho & ->).
    destruct o as [j |].
    + assert (Hkm : assoc k ms = Some j)
        by (by eapply (printed_member (serialize (length h0) [l] h0))).
      destruct (Hmem k j Hkm) as (hk & -> & Hle & Hlk & Hpre).
      rewrite <- (JSON_stringify_budget h2 _ (json_depth j)).
      apply parse_then_stringify.
      * by eapply serialize_canonical.
      * lia.
      * intros l' Hl'. rewrite Hagree.
        -- rewrite lookup_app_l by lia. apply Hpre. lia.
        -- rewrite length_app. cbn. lia.
        -- intros [= ->]. lia.
      * by intros l' ?%elem_of_nil.
    + assert (Hkm : assoc k ms = None)
        by (by eapply (printed_member_none (serialize (length h0) [l] h0))).
      by rewrite (Habs Hkm).
  - assert (Hkm : assoc k ms = None).
    { apply assoc_not_in. intros Hin%printed_members_names.
      apply list_elem_of_In, in_map_iff in Hin as ([k' x] & Hkx & Hin). cbn in Hkx. subst k'.
      clear -Hk Hin. induction ps as [| [k0 x0] ps IH]; [done |].
      cbn in Hk. destruct (decide (k = k0)); [done |].
      destruct Hin as [[= -> ->] | Hin]; [done | by apply IH]. }
    by rewrite (Habs Hkm).
Qed.

(** [JSON.stringify] prints the same on a heap that keeps the cells. *)
Lemma stringify_keeps h h' v :
  heap_wf h = true -> valid h v = true -> keeps (length h) h h' ->
  JSON_stringify_tree h' v = JSON_stringify_tree h v.
Proof.
  intros Hwf Hvalid [Hle Hk].
  replace (JSON_stringify_tree h v)
    with (serialize (S (length h) + (length h' - length h)) [] h v)
    by apply JSON_stringify_budget.
  unfold JSON_stringify_tree.
  replace (S (length h) + (length h' - length h))%nat with (S (length h')) by lia.
  apply (serialize_agree (fun l' => (l' < length h)%nat)).
  - intros l' Hl'. by apply Hk.
  - intros l' c Hl' Hc.
    pose proof (heap_wf_closed _ Hwf l' c (Nat.le_0_l _) Hc) as Hcw.
    eapply Forall_impl; [exact Hcw |]. intros x Hx l'' ->. apply Hx.
  - intros l' ->. cbn in Hvalid. by apply bool_decide_eq_true in Hvalid.
Qed.

(** C7.  The configuration snapshot that a creation hands to the create
    hooks and to the backend is a deep copy of the caller's [config].  It
    shares nothing with it: the call leaves the caller's object as it was;
    whatever is later written to the cells that existed before the call
    (all that the caller's object can reach), the snapshot serializes to
    the same tree; and whatever is later written to the cells created by
    the call (the snapshot among them), the caller's object serializes to
    the same tree as before the call.  And it holds what the caller's
    object holds: every property of the snapshot other than
    [bundleVersion] and [env] serializes to the tree of that property of
    the caller's object, nested objects and arrays included; this on a
    heap whose objects have properties with distinct names, and with
    numbers that [JSON.parse] reads back as printed. *)
Theorem config_snapshot_independent id code config data st out st' es e cfg :
  instanceMap st !! toString (heap st) id = None ->
  heap_wf (heap st) = true ->
  valid (heap st) config = true ->
  createInstance id code config data st = (out, st') ->
  trace st' = trace st ++ es ->
  In e es ->
  snapshot_event id code cfg data e ->
  (∃ lc, cfg = VRef lc ∧ (length (heap st) <= lc)%nat)
  ∧ (∀ fuel, serialize fuel [] (heap st') config = serialize fuel [] (heap st) config)
  ∧ (∀ h2, (∀ l, (length (heap st) <= l)%nat -> h2 !! l = heap st' !! l) ->
       ∀ fuel, serialize fuel [] h2 cfg = serialize fuel [] (heap st') cfg)
  ∧ (∀ h2, (∀ l, (l < length (heap st))%nat -> h2 !! l = heap st' !! l) ->
       ∀ fuel, serialize fuel [] h2 config = serialize fuel [] (heap st) config)
  ∧ (json_roundtrip -> distinct_keys (heap st) = true ->
     ∀ lcfg ps k,
       config = VRef lcfg -> heap st !! lcfg = Some (CObj ps) ->
       k ≠ str "bundleVersion" -> k ≠ str "env" ->
       JSON_stringify_tree (heap st') (prop (heap st') cfg k)
       = JSON_stringify_tree (heap st) (prop (heap st) config k)).
Proof.
  intros Hnone Hwf Hvalid Hrun Htrace Hin Hev.
  pose proof (createInstance_event_fresh _ _ _ _ _ _ _ _ _ Hnone Hrun Htrace Hin)
    as Hown.
  destruct (createInstance_fresh _ _ _ _ _ _ _ Hnone Hown Hrun)
    as (l & hA & oc & st_c & Halloc & Hcfg & Hkc & Hsmc & Hout).
  destruct (info_alloc_allocated _ _ _ _ Halloc) as [Hal Hps].
  destruct (record_state_facts id l hA st Hal Hps)
    as (_ & Htr & _ & Hlen & Hki & Hci & _).
  set (st_i := record_state id l (set_heap hA st)) in *.
  set (n0 := length (heap st)) in *.
  assert (Hli : (n0 <= l < length (heap st_i))%nat).
  { rewrite Hlen. destruct Hal as (new & _ & Hv & _). by apply Forall_inv in Hv. }
  destruct (initConfig_spec n0 l config st_i _ _ Hli Hcfg) as (_ & Hkic & Hcc & Hspec).
  specialize (Hcc Hci).
  assert (Hn0i : (n0 <= length (heap st_i))%nat) by lia.
  assert (Hold : keeps n0 (heap st) (heap st')).
  { eapply keeps_trans; [exact Hki |].
    eapply keeps_trans; [eapply keeps_le; [| exact Hkic]; lia |].
    eapply keeps_le; [| exact Hkc]. destruct Hkic. lia. }
  (* the caller's object lives in the old cells, which are closed *)
  assert (Hcaller : ∀ h2, (∀ l', (l' < n0)%nat -> h2 !! l' = heap st' !! l') ->
            ∀ fuel, serialize fuel [] h2 config = serialize fuel [] (heap st) config).
  { intros h2 Hagree fuel.
    apply (serialize_agree (fun l' => (l' < n0)%nat)).
    - intros l' Hl'. rewrite Hagree by done. by apply Hold.
    - intros l' c Hl' Hc. pose proof (heap_wf_closed _ Hwf l' c (Nat.le_0_l _) Hc) as Hcw.
      eapply Forall_impl; [exact Hcw |]. intros x Hx l'' ->. apply Hx.
    - intros l' ->. cbn in Hvalid. by apply bool_decide_eq_true in Hvalid. }
  (* the snapshot is the value the configuration phase returned *)
  destruct oc as [cfg0 | err].
  2:{ destruct Hout as [_ ->]. rewrite Hspec, Htr in Htrace.
      assert (Hes : es = []).
      { apply (app_inv_head (trace st)). by rewrite app_nil_r. }
      by rewrite Hes in Hin. }
  destruct Hspec as (lc & -> & Hlc & _ & msg & Htrc).
  destruct Hout as (es' & Htr' & Hes' & _).
  assert (Hes : es = EDebug msg :: es').
  { apply (app_inv_head (trace st)).
    by rewrite <- Htrace, Htr', Htrc, Htr, <- app_assoc. }
  rewrite Hes in Hin. destruct Hin as [<- | Hin].
  { destruct Hev as [(i & ctx & [=]) | (name & so & [=])]. }
  assert (Hsame : cfg = VRef lc).
  { rewrite Forall_forall in Hes'.
    specialize (Hes' e (proj2 (list_elem_of_In _ _) Hin)).
    destruct Hes' as [(i & ctx & ->) | (name & so & ->)];
      destruct Hev as [(i' & ctx' & [=]) | (name' & so' & [=])]; by subst. }
  subst cfg. split; [exists lc; split; [done | lia] |].
  split; [intros fuel; by apply Hcaller |]. split; [| split; [exact Hcaller |]].
  - intros h2 Hagree fuel.
    apply (serialize_agree (fun l' => (n0 <= l' < length (heap st_c))%nat)).
    + intros l' Hl'. apply Hagree. lia.
    + intros l' c Hl' Hc. destruct Hkc as [_ Hkc]. rewrite Hkc in Hc by lia.
      pose proof (Hcc l' c (proj1 Hl') Hc) as Hcw.
      eapply Forall_impl; [exact Hcw |]. intros x Hx l'' ->. apply Hx.
    + intros l' [= <-]. lia.
  - (* what the snapshot holds *)
    intros Hrt Hkeys lcfg ps k -> Hcell Hbv Henv.
    destruct (initConfig_clone _ _ _ _ _ Hcfg)
      as (j1 & hb & Hstr & Hparse & Hprop & Hlb & Hcells).
    change (or_empty (VRef lcfg) (heap st_i)) with (VRef lcfg, heap st_i)
      in Hstr, Hparse.
    cbn [fst snd] in Hstr, Hparse.
    rewrite (stringify_keeps (heap st) (heap st_i)) in Hstr by done.
    assert (Hp : prop (heap st') (VRef lc) k = prop hb (VRef lc) k).
    { rewrite <- Hprop by done. eapply prop_keeps; [| exact Hkc]. lia. }
    rewrite Hp.
    apply (clone_member (heap st) (heap st_i) lcfg ps j1 (VRef lc) hb);
      try done.
    intros l' Hl' Hne. destruct Hkc as [_ Hkc]. rewrite Hkc by lia.
    apply Hcells; [lia | done].
Qed.

(** X18.  The configuration snapshot holds what the caller's configuration
    object holds: every property of that object whose value is a string, a
    boolean or [null], other than [bundleVersion] and [env], has the same
    value in the snapshot that the create hooks and the backend
    receive. *)
Theorem snapshot_copies_scalars id code lcfg data st out st' es e cfg ps k x :
  instanceMap st !! toString (heap st) id = None ->
  heap st !! lcfg = Some (CObj ps) ->
  NoDup (List.map fst ps) ->
  assoc k ps = Some x ->
  is_Some (scalar x) ->
  k ≠ str "bundleVersion" -> k ≠ str "env" ->
  createInstance id code (VRef lcfg) data st = (out, st') ->
  trace st' = trace st ++ es ->
  In e es ->
  snapshot_event id code cfg data e ->
  prop (heap st') cfg k = x.
Proof.
  intros Hnone Hcell Hnd Hk [j Hx] Hbv Henv Hrun Htrace Hin Hev.
  pose proof (createInstance_event_fresh _ _ _ _ _ _ _ _ _ Hnone Hrun Htrace Hin)
    as Hown.
  destruct (createInstance_fresh _ _ _ _ _ _ _ Hnone Hown Hrun)
    as (l & hA & oc & st_c & Halloc & Hcfg & Hkc & Hsmc & Hout).
  destruct (info_alloc_allocated _ _ _ _ Halloc) as [Hal Hps].
  destruct (record_state_facts id l hA st Hal Hps)
    as (_ & Htr & _ & Hlen & Hki & _).
  set (st_i := record_state id l (set_heap hA st)) in *.
  assert (Hli : (0 <= l < length (heap st_i))%nat).
  { rewrite Hlen. destruct Hal as (new & _ & Hv & _). apply Forall_inv in Hv.
    unfold ref_within in Hv. lia. }
  destruct (initConfig_spec 0 l (VRef lcfg) st_i _ _ Hli Hcfg) as (_ & _ & _ & Hspec).
  destruct oc as [cfg0 | err].
  2:{ destruct Hout as [_ ->]. rewrite Hspec, Htr in Htrace.
      assert (Hes : es = []).
      { apply (app_inv_head (trace st)). by rewrite app_nil_r. }
      by rewrite Hes in Hin. }
  destruct Hspec as (lc & -> & Hlc & _ & msg & Htrc).
  destruct Hout as (es' & Htr' & Hes' & _).
  assert (Hes : es = EDebug msg :: es').
  { apply (app_inv_head (trace st)).
    by rewrite <- Htrace, Htr', Htrc, Htr, <- app_assoc. }
  rewrite Hes in Hin. destruct Hin as [<- | Hin].
  { destruct Hev as [(i & ctx & [=]) | (name & so & [=])]. }
  assert (Hsame : cfg = VRef lc).
  { rewrite Forall_forall in Hes'.
    specialize (Hes' e (proj2 (list_elem_of_In _ _) Hin)).
    destruct Hes' as [(i & ctx & ->) | (name & so & ->)];
      destruct Hev as [(i' & ctx' & [=]) | (name' & so' & [=])]; by subst. }
  subst cfg.
  destruct (initConfig_clone _ _ _ _ _ Hcfg) as (j1 & hb & Hstr & Hparse & Hprop & _).
  change (or_empty (VRef lcfg) (heap st_i)) with (VRef lcfg, heap st_i) in Hstr, Hparse.
  cbn [fst snd] in Hstr, Hparse.
  assert (Hcell_i : heap st_i !! lcfg = Some (CObj ps)).
  { destruct Hki as [_ Hki]. rewrite Hki; [done |]. by eapply lookup_lt_Some. }
  destruct (stringify_member _ _ _ _ _ _ _ Hcell_i Hnd Hk Hx Hstr) as (ms & [= ->] & Hm).
  transitivity (prop (heap st_c) (VRef lc) k).
  { eapply prop_keeps; [| exact Hkc]. lia. }
  rewrite Hprop by done. by eapply prop_scalar_member.
Qed.

(** The [env] of the snapshot is the object that [JSON.parse] built from
    the text of [global.WXEnvironment]. *)
Lemma initConfig_env l config st cfg st' :
  toBoolean (WXEnvironment st) = true ->
  initConfig (VRef l) config st = (Normal cfg, st') ->
  ∃ hc j2,
    keeps (length (heap st)) (heap st) hc
    ∧ JSON_stringify_tree hc (WXEnvironment st) = Some (Some j2)
    ∧ prop (heap st') cfg (str "env") = (alloc_json j2 hc).1
    ∧ ref_within 0 (length (heap st')) (alloc_json j2 hc).1
    ∧ ∀ k, prop (heap st') (alloc_json j2 hc).1 k
           = prop (alloc_json j2 hc).2 (alloc_json j2 hc).1 k.
Proof.
  intros Henv. unfold initConfig.
  bind_step. rewrite orEmpty_run.
  destruct (or_empty config (heap st)) as [c ha] eqn:Hor. cbn [fst snd]. cbv beta iota.
  assert (Hka : keeps (length (heap st)) (heap st) ha).
  { unfold or_empty in Hor. destruct (toBoolean config); injection Hor as <- <-;
      [apply keeps_refl | by apply keeps_app]. }
  bind_step. unfold JSON_stringify at 1. cbn [heap set_heap].
  destruct (JSON_stringify_tree ha c) as [[j1 |] |]; cbv beta iota; [| discriminate..].
  bind_step. unfold JSON_parse_tree at 1. cbn [heap set_heap].
  pose proof (alloc_json_allocated j1 ha) as Hal1.
  pose proof (alloc_json_value j1 ha) as Hv1.
  destruct (alloc_json j1 ha) as [cfg0 hb]. cbn [fst snd] in Hal1, Hv1. cbv beta iota.
  bind_step. cbn [getProp]. unfold gets at 1. cbn [heap set_heap]. cbv beta iota.
  bind_step.
  destruct cfg0 as [| | b | n | t | lc | k msg | nm]; cbv beta iota in Hv1; try done;
    try (cbn [setProp]; unfold throw; cbv beta iota; discriminate).
  cbn [setProp]. unfold modify at 1. cbn [heap set_heap]. cbv beta iota.
  assert (Hlc : (length ha <= lc < length hb)%nat).
  { destruct Hal1 as (new & _ & Hvs & _). by apply Forall_inv in Hvs. }
  set (version := prop hb (VRef l) (str "version")).
  set (hc := store hb lc (str "bundleVersion") version).
  assert (Hlen_c : length hc = length hb) by apply store_length.
  assert (Hkc : keeps (length (heap st)) (heap st) hc).
  { assert (Hkb : keeps (length (heap st)) ha hb).
    { destruct Hal1 as (new & -> & _). apply keeps_app. destruct Hka. lia. }
    eapply keeps_trans; [exact Hka |]. eapply keeps_trans; [exact Hkb |].
    apply keeps_store. destruct Hka. lia. }
  bind_step. unfold gets at 1. cbn [WXEnvironment set_heap]. cbv beta iota.
  bind_step. rewrite orEmpty_run. cbn [heap set_heap].
  unfold or_empty. rewrite Henv. cbn [fst snd]. cbv beta iota.
  set (sd := set_heap hc _).
  bind_step. unfold JSON_stringify at 1. replace (heap sd) with hc by reflexivity.
  destruct (JSON_stringify_tree hc (WXEnvironment st)) as [[j2 |] |] eqn:Hstr;
    cbv beta iota; [| discriminate..].
  bind_step. unfold JSON_parse_tree at 1. replace (heap sd) with hc by reflexivity.
  pose proof (alloc_json_allocated j2 hc) as Hal2.
  destruct (alloc_json j2 hc) as [env he] eqn:Halloc2.
  cbn [fst snd] in Hal2. cbv beta iota.
  bind_step. cbn [setProp]. unfold modify at 1. cbn [heap set_heap]. cbv beta iota.
  set (hf := store he lc (str "env") env).
  bind_step. cbn [getProp]. unfold gets at 1. cbv beta iota.
  bind_step. cbn [getProp]. unfold gets at 1. cbv beta iota.
  bind_step. unfold gets at 1. cbv beta iota.
  bind_step. unfold console_debug, modify at 1. cbv beta iota.
  unfold ret. intros [= <- <-]. cbn [heap trace set_heap set_trace fst snd].
  assert (Henv_in : ref_within (length hc) (length he) env).
  { destruct Hal2 as (new & _ & Hvs & _). by apply Forall_inv in Hvs. }
  assert (Hle : (length hc <= length he)%nat).
  { destruct Hal2 as (new & -> & _). rewrite length_app. lia. }
  exists hc, j2. rewrite Halloc2. cbn [fst snd].
  split; [done |]. split; [done |]. split; [| split].
  - destruct (lookup_lt_is_Some_2 he lc) as [ce Hce]; [lia |].
    by eapply prop_store_same.
  - unfold hf. rewrite store_length.
    eapply ref_within_mono; [| | exact Henv_in]; lia.
  - intros k. destruct env as [| | | | | le | |]; try reflexivity.
    unfold ref_within in Henv_in. unfold hf. cbn [prop].
    rewrite store_lookup_ne by lia. done.
Qed.

(** X19.  The [env] of the configuration snapshot holds what
    [global.WXEnvironment] holds: every property of that object whose
    value is a string, a boolean or [null] has the same value in the [env]
    of the snapshot that the create hooks and the backend receive. *)
Theorem snapshot_env_copies_scalars id code config data st out st' es e cfg le ps k x :
  instanceMap st !! toString (heap st) id = None ->
  WXEnvironment st = VRef le ->
  heap st !! le = Some (CObj ps) ->
  NoDup (List.map fst ps) ->
  assoc k ps = Some x ->
  is_Some (scalar x) ->
  createInstance id code config data st = (out, st') ->
  trace st' = trace st ++ es ->
  In e es ->
  snapshot_event id code cfg data e ->
  prop (heap st') (prop (heap st') cfg (str "env")) k = x.
Proof.
  intros Hnone Hwx Hcell Hnd Hk [j Hx] Hrun Htrace Hin Hev.
  pose proof (createInstance_event_fresh _ _ _ _ _ _ _ _ _ Hnone Hrun Htrace Hin)
    as Hown.
  destruct (createInstance_fresh _ _ _ _ _ _ _ Hnone Hown Hrun)
    as (l & hA & oc & st_c & Halloc & Hcfg & Hkc & Hsmc & Hout).
  destruct (info_alloc_allocated _ _ _ _ Halloc) as [Hal Hps].
  destruct (record_state_facts id l hA st Hal Hps)
    as (_ & Htr & _ & Hlen & Hki & _).
  set (st_i := record_state id l (set_heap hA st)) in *.
  assert (Hli : (0 <= l < length (heap st_i))%nat).
  { rewrite Hlen. destruct Hal as (new & _ & Hv & _). apply Forall_inv in Hv.
    unfold ref_within in Hv. lia. }
  destruct (initConfig_spec 0 l config st_i _ _ Hli Hcfg) as (_ & _ & _ & Hspec).
  destruct oc as [cfg0 | err].
  2:{ destruct Hout as [_ ->]. rewrite Hspec, Htr in Htrace.
      assert (Hes : es = []).
      { apply (app_inv_head (trace st)). by rewrite app_nil_r. }
      by rewrite Hes in Hin. }
  destruct Hspec as (lc & -> & Hlc & _ & msg & Htrc).
  destruct Hout as (es' & Htr' & Hes' & _).
  assert (Hes : es = EDebug msg :: es').
  { apply (app_inv_head (trace st)).
    by rewrite <- Htrace, Htr', Htrc, Htr, <- app_assoc. }
  rewrite Hes in Hin. destruct Hin as [<- | Hin].
  { destruct Hev as [(i & ctx & [=]) | (name & so & [=])]. }
  assert (Hsame : cfg = VRef lc).
  { rewrite Forall_forall in Hes'.
    specialize (Hes' e (proj2 (list_elem_of_In _ _) Hin)).
    destruct Hes' as [(i & ctx & ->) | (name & so & ->)];
      destruct Hev as [(i' & ctx' & [=]) | (name' & so' & [=])]; by subst. }
  subst cfg.
  assert (Hwx_i : WXEnvironment st_i = VRef le) by exact Hwx.
  destruct (initConfig_env l config st_i _ _ ltac:(by rewrite Hwx_i) Hcfg)
    as (hc & j2 & Hkic & Hstr & Henv & Hin_env & Hprop).
  rewrite Hwx_i in Hstr.
  assert (Hcell_c : hc !! le = Some (CObj ps)).
  { destruct Hkic as [_ Hkic]. rewrite Hkic.
    - destruct Hki as [_ Hki]. rewrite Hki; [done |]. by eapply lookup_lt_Some.
    - destruct Hki as [Hle _]. apply lookup_lt_Some in Hcell. lia. }
  destruct (stringify_member _ _ _ _ _ _ _ Hcell_c Hnd Hk Hx Hstr) as (ms & [= ->] & Hm).
  assert (Hfinal : prop (heap st') (VRef lc) (str "env") = (alloc_json (JObj ms) hc).1).
  { rewrite <- Henv. eapply prop_keeps; [| exact Hkc]. lia. }
  rewrite Hfinal.
  destruct (alloc_json (JObj ms) hc) as [env he] eqn:Hparse. cbn [fst snd] in *.
  transitivity (prop (heap st_c) env k).
  { destruct env as [| | | | | le' | |]; try reflexivity.
    unfold ref_within in Hin_env. eapply prop_keeps; [| exact Hkc]. lia. }
  rewrite Hprop. by eapply prop_scalar_member.
Qed.

(** Without a configuration, the snapshot is a new object with
    [bundleVersion] and [env]. *)
Lemma initConfig_default l config st cfg st' :
  (l < length (heap st))%nat ->
  toBoolean config = false ->
  initConfig (VRef l) config st = (Normal cfg, st') ->
  ∃ lc env,
    cfg = VRef lc
    ∧ (lc < length (heap st'))%nat
    ∧ heap st' !! lc
      = Some (CObj [(str "bundleVersion", prop (heap st) (VRef l) (str "version"));
                    (str "env", env)]).
Proof.
  intros Hl Hfalse. unfold initConfig.
  bind_step. rewrite orEmpty_run. unfold or_empty. rewrite Hfalse.
  cbn [fst snd]. cbv beta iota.
  set (n := length (heap st)). set (ha := heap st ++ [CObj []]).
  assert (Hn : ha !! n = Some (CObj [])).
  { unfold ha, n. rewrite lookup_app_r by lia. by rewrite Nat.sub_diag. }
  bind_step. unfold JSON_stringify at 1. cbn [heap set_heap].
  unfold JSON_stringify_tree. cbn [serialize existsb]. rewrite Hn.
  cbn [List.map sequence combine omap list_omap]. cbv beta iota.
  bind_step. unfold JSON_parse_tree at 1. cbn [heap set_heap].
  rewrite alloc_json_obj. cbn [alloc_members fold_left]. cbv beta iota.
  set (lc := length ha). set (hb := ha ++ [CObj []]).
  assert (Hlc : hb !! lc = Some (CObj [])).
  { unfold hb, lc. rewrite lookup_app_r by lia. by rewrite Nat.sub_diag. }
  bind_step. cbn [getProp]. unfold gets at 1. cbn [heap set_heap]. cbv beta iota.
  bind_step. cbn [setProp]. unfold modify at 1. cbn [heap set_heap]. cbv beta iota.
  assert (Hversion : prop hb (VRef l) (str "version")
                     = prop (heap st) (VRef l) (str "version")).
  { unfold hb, ha. rewrite <- app_assoc. cbn [prop]. by rewrite lookup_app_l. }
  rewrite Hversion.
  set (version := prop (heap st) (VRef l) (str "version")).
  set (hc := store hb lc (str "bundleVersion") version).
  assert (Hc : hc !! lc = Some (CObj [(str "bundleVersion", version)])).
  { unfold hc. by rewrite (store_lookup_eq _ _ _ _ _ Hlc). }
  assert (Hlen_c : (lc < length hc)%nat) by (by eapply lookup_lt_Some).
  bind_step. unfold gets at 1. cbn [WXEnvironment set_heap]. cbv beta iota.
  bind_step. rewrite orEmpty_run. cbn [heap set_heap].
  destruct (or_empty (WXEnvironment st) hc) as [e hd] eqn:Hor'. cbn [fst snd].
  cbv beta iota.
  assert (Hkd : keeps (length hc) hc hd).
  { unfold or_empty in Hor'.
    destruct (toBoolean (WXEnvironment st)); injection Hor' as <- <-;
      [apply keeps_refl | by apply keeps_app]. }
  set (sd := set_heap hd _).
  bind_step. unfold JSON_stringify at 1. replace (heap sd) with hd by reflexivity.
  destruct (JSON_stringify_tree hd e) as [[j2 |] |]; cbv beta iota; [| discriminate..].
  bind_step. unfold JSON_parse_tree at 1. replace (heap sd) with hd by reflexivity.
  pose proof (alloc_json_allocated j2 hd) as Hal2.
  destruct (alloc_json j2 hd) as [env he]. cbn [fst snd] in Hal2. cbv beta iota.
  bind_step. cbn [setProp]. unfold modify at 1. cbn [heap set_heap]. cbv beta iota.
  set (hf := store he lc (str "env") env).
  bind_step. cbn [getProp]. unfold gets at 1. cbv beta iota.
  bind_step. cbn [getProp]. unfold gets at 1. cbv beta iota.
  bind_step. unfold gets at 1. cbv beta iota.
  bind_step. unfold console_debug, modify at 1. cbv beta iota.
  unfold ret. intros [= <- <-]. cbn [heap trace set_heap set_trace].
  assert (He : he !! lc = Some (CObj [(str "bundleVersion", version)])).
  { destruct Hal2 as (new & -> & _). rewrite lookup_app_l by (destruct Hkd; lia).
    destruct Hkd as [_ Hkd]. by rewrite Hkd. }
  exists lc, env. split; [done |]. split.
  - unfold hf. rewrite store_length. by eapply lookup_lt_Some.
  - unfold hf. rewrite (store_lookup_eq _ _ _ _ _ He). cbn [cell_props cell_with_props assoc_set].
    destruct (decide (str "env" = str "bundleVersion")) as [Heq | _]; [discriminate Heq | done].
Qed.

(** X20.  Without a configuration ([undefined], [null] or another falsy
    value), the snapshot that the create hooks and the backend receive is
    a new object with exactly two properties: [bundleVersion], the
    [version] of the descriptor, and [env]. *)
Theorem snapshot_of_missing_config id code config data st out st' es e cfg info hA :
  instanceMap st !! toString (heap st) id = None ->
  toBoolean config = false ->
  info_alloc (toString (heap st) code) (heap st) = (info, hA) ->
  createInstance id code config data st = (out, st') ->
  trace st' = trace st ++ es ->
  In e es ->
  snapshot_event id code cfg data e ->
  ∃ lc env,
    cfg = VRef lc
    ∧ (length (heap st) <= lc)%nat
    ∧ heap st' !! lc
      = Some (CObj [(str "bundleVersion", prop hA info (str "version"));
                    (str "env", env)]).
Proof.
  intros Hnone Hfalse Halloc0 Hrun Htrace Hin Hev.
  pose proof (createInstance_event_fresh _ _ _ _ _ _ _ _ _ Hnone Hrun Htrace Hin)
    as Hown.
  destruct (createInstance_fresh _ _ _ _ _ _ _ Hnone Hown Hrun)
    as (l & hA' & oc & st_c & Halloc & Hcfg & Hkc & Hsmc & Hout).
  rewrite Halloc0 in Halloc. injection Halloc as -> <-.
  destruct (info_alloc_allocated _ _ _ _ Halloc0) as [Hal Hps].
  destruct (record_state_facts id l hA st Hal Hps)
    as (_ & Htr & _ & Hlen & Hki & _ & Hver & _).
  set (st_i := record_state id l (set_heap hA st)) in *.
  assert (Hli : (0 <= l < length (heap st_i))%nat).
  { rewrite Hlen. destruct Hal as (new & _ & Hv & _). apply Forall_inv in Hv.
    unfold ref_within in Hv. lia. }
  destruct (initConfig_spec 0 l config st_i _ _ Hli Hcfg) as (_ & _ & _ & Hspec).
  destruct oc as [cfg0 | err].
  2:{ destruct Hout as [_ ->]. rewrite Hspec, Htr in Htrace.
      assert (Hes : es = []).
      { apply (app_inv_head (trace st)). by rewrite app_nil_r. }
      by rewrite Hes in Hin. }
  destruct Hspec as (lc & -> & Hlc & _ & msg & Htrc).
  destruct Hout as (es' & Htr' & Hes' & _).
  assert (Hes : es = EDebug msg :: es').
  { apply (app_inv_head (trace st)).
    by rewrite <- Htrace, Htr', Htrc, Htr, <- app_assoc. }
  rewrite Hes in Hin. destruct Hin as [<- | Hin].
  { destruct Hev as [(i & ctx & [=]) | (name & so & [=])]. }
  assert (Hsame : cfg = VRef lc).
  { rewrite Forall_forall in Hes'.
    specialize (Hes' e (proj2 (list_elem_of_In _ _) Hin)).
    destruct Hes' as [(i & ctx & ->) | (name & so & ->)];
      destruct Hev as [(i' & ctx' & [=]) | (name' & so' & [=])]; by subst. }
  subst cfg.
  destruct (initConfig_default l config st_i _ _ (proj2 Hli) Hfalse Hcfg)
    as (lc' & env & [= <-] & Hlt & Hcell).
  exists lc, env. split; [done |]. split.
  { destruct Hki. lia. }
  rewrite <- Hver. destruct Hkc as [_ Hkc]. by rewrite Hkc.
Qed.

(** *** Creation: a configuration that cannot be copied *)

Lemma initConfig_unserializable info config st :
  toBoolean config = true ->
  JSON_stringify_tree (heap st) config = None ->
  (initConfig info config st).1 = Throw typeError.
Proof.
  intros Htrue Hnone. unfold initConfig.
  bind_step. rewrite orEmpty_run. unfold or_empty. rewrite Htrue.
  cbn [fst snd]. cbv beta iota.
  bind_step. unfold JSON_stringify at 1. cbn [heap set_heap]. by rewrite Hnone.
Qed.

Lemma initConfig_plain l config st :
  plain config = true ->
  toBoolean config = true ->
  (initConfig (VRef l) config st).1 = Throw typeError.
Proof.
  intros Hplain Htrue. unfold initConfig.
  bind_step. rewrite orEmpty_run. unfold or_empty. rewrite Htrue.
  cbn [fst snd]. cbv beta iota.
  bind_step. unfold JSON_stringify at 1. cbn [heap set_heap].
  destruct config as [| | b | n | s | l' | k msg | nm]; try discriminate;
    unfold JSON_stringify_tree; cbn [serialize]; cbv beta iota.
  - bind_step. cbn [JSON_parse_tree alloc_json heap set_heap]. cbv beta iota.
    bind_step. cbn [getProp]. unfold gets at 1. cbv beta iota. by bind_step.
  - unfold number_json. destruct (numberToJSON n) as [lit |].
    + bind_step. cbn [JSON_parse_tree alloc_json heap set_heap]. cbv beta iota.
      bind_step. cbn [getProp]. unfold gets at 1. cbv beta iota. by bind_step.
    + bind_step. cbn [JSON_parse_tree alloc_json heap set_heap]. cbv beta iota.
      bind_step. cbn [getProp]. unfold gets at 1. cbv beta iota. by bind_step.
  - bind_step. cbn [JSON_parse_tree alloc_json heap set_heap]. cbv beta iota.
    bind_step. cbn [getProp]. unfold gets at 1. cbv beta iota. by bind_step.
Qed.

(** The first phase that throws ends the creation. *)
Lemma createInstance_config_throws id code config data st out st' x :
  instanceMap st !! toString (heap st) id = None ->
  inherited (toString (heap st) id) = false ->
  (∀ l st_i, (initConfig (VRef l) config st_i).1 = Throw x) ->
  createInstance id code config data st = (out, st') ->
  out = Throw x ∧ trace st' = trace st.
Proof.
  intros Hnone Hown Hthrow Hrun.
  destruct (createInstance_fresh _ _ _ _ _ _ _ Hnone Hown Hrun)
    as (l & hA & oc & st_c & Halloc & Hcfg & _ & _ & Hout).
  destruct (info_alloc_allocated _ _ _ _ Halloc) as [Hal Hps].
  destruct (record_state_facts id l hA st Hal Hps) as (_ & Htr & _ & Hlen & _).
  set (st_i := record_state id l (set_heap hA st)) in *.
  assert (Hli : (0 <= l < length (heap st_i))%nat).
  { rewrite Hlen. destruct Hal as (new & _ & Hv & _). apply Forall_inv in Hv.
    unfold ref_within in Hv. lia. }
  destruct (initConfig_spec 0 l config st_i _ _ Hli Hcfg) as (_ & _ & _ & Hspec).
  specialize (Hthrow l st_i). rewrite Hcfg in Hthrow. cbn [fst] in Hthrow. subst oc.
  destruct Hout as [-> ->]. by rewrite Hspec.
Qed.

(** X21.  A configuration that [JSON.stringify] rejects (an object that
    reaches itself): [createInstance] for a free id that names no member
    of [Object.prototype] throws a [TypeError]
    and calls nothing, neither [console.debug] nor a create hook nor the
    backend. *)
Theorem createInstance_unserializable_config id code config data st out st' :
  instanceMap st !! toString (heap st) id = None ->
  inherited (toString (heap st) id) = false ->
  heap_wf (heap st) = true ->
  valid (heap st) config = true ->
  JSON_stringify_tree (heap st) config = None ->
  createInstance id code config data st = (out, st') ->
  out = Throw typeError ∧ trace st' = trace st.
Proof.
  intros Hnone Hown Hwf Hvalid Hcyc Hrun.
  assert (Htrue : toBoolean config = true).
  { by destruct config as [| | | | | l | |]. }
  destruct (createInstance_fresh _ _ _ _ _ _ _ Hnone Hown Hrun)
    as (l & hA & oc & st_c & Halloc & Hcfg & _ & _ & Hout).
  destruct (info_alloc_allocated _ _ _ _ Halloc) as [Hal Hps].
  destruct (record_state_facts id l hA st Hal Hps) as (_ & Htr & _ & Hlen & Hki & _).
  set (st_i := record_state id l (set_heap hA st)) in *.
  assert (Hli : (0 <= l < length (heap st_i))%nat).
  { rewrite Hlen. destruct Hal as (new & _ & Hv & _). apply Forall_inv in Hv.
    unfold ref_within in Hv. lia. }
  destruct (initConfig_spec 0 l config st_i _ _ Hli Hcfg) as (_ & _ & _ & Hspec).
  assert (Hcyc_i : JSON_stringify_tree (heap st_i) config = None).
  { rewrite <- Hcyc.
    destruct Hki as [Hle Hki].
    replace (JSON_stringify_tree (heap st) config)
      with (serialize (S (length (heap st))
                       + (length (heap st_i) - length (heap st))) [] (heap st) config)
      by apply JSON_stringify_budget.
    unfold JSON_stringify_tree.
    replace (S (length (heap st)) + (length (heap st_i) - length (heap st)))%nat
      with (S (length (heap st_i))) by lia.
    apply (serialize_agree (fun l' => (l' < length (heap st))%nat)).
    - intros l' Hl'. by apply Hki.
    - intros l' c Hl' Hc.
      pose proof (heap_wf_closed _ Hwf l' c (Nat.le_0_l _) Hc) as Hcw.
      eapply Forall_impl; [exact Hcw |]. intros x Hx l'' ->. apply Hx.
    - intros l' ->. cbn in Hvalid. by apply bool_decide_eq_true in Hvalid. }
  pose proof (initConfig_unserializable (VRef l) config st_i Htrue Hcyc_i) as Hthrow.
  rewrite Hcfg in Hthrow. cbn [fst] in Hthrow. subst oc.
  destruct Hout as [-> ->]. by rewrite Hspec.
Qed.

(** X22.  A configuration that is a truthy boolean, number or string:
    [createInstance] for a free id that names no member of
    [Object.prototype] throws a [TypeError] at the assignment
    of [bundleVersion] (the module is strict code) and calls nothing. *)
Theorem createInstance_plain_config id code config data st out st' :
  instanceMap st !! toString (heap st) id = None ->
  inherited (toString (heap st) id) = false ->
  plain config = true ->
  toBoolean config = true ->
  createInstance id code config data st = (out, st') ->
  out = Throw typeError ∧ trace st' = trace st.
Proof.
  intros Hnone Hown Hplain Htrue. apply createInstance_config_throws; [done.. |].
  intros l st_i. by apply initConfig_plain.
Qed.

(** X23.  The detector reads the header only: a text whose header is
    detected has an initial part that ends with the line feed of the
    header, and the result of [checkVersion] is the same whatever follows
    that part. *)
Theorem checkVersion_reads_header_only s body :
  versionRegExp_exec s = Some body ->
  ∃ hd rest,
    s = hd ++ c_lf :: rest
    ∧ ∀ rest',
        versionRegExp_exec (hd ++ c_lf :: rest') = Some body
        ∧ ∀ st, checkVersion (VStr (hd ++ c_lf :: rest')) st = checkVersion (VStr s) st.
Proof.
  intros Hexec. pose proof Hexec as Hshape. apply versionRegExp_exec_shape in Hshape.
  destruct Hshape
    as (ws & sp1 & inner & sp2 & eol & rest & Hs & Hws & Hsp1 & Hinner & Hsp2 & Heol & Hbody).
  set (cr := match eol with [_] => [] | _ => [c_cr] end).
  assert (Hcr : eol = cr ++ [c_lf]) by (by destruct Heol as [-> | ->]).
  exists (ws ++ [c_slash; c_slash] ++ sp1 ++ [c_lbrace] ++ inner
            ++ [c_rbrace] ++ sp2 ++ cr), rest.
  split.
  { rewrite Hs, Hcr. by rewrite <- !app_assoc. }
  intros rest'.
  assert (Hexec' : versionRegExp_exec
                     ((ws ++ [c_slash; c_slash] ++ sp1 ++ [c_lbrace] ++ inner
                         ++ [c_rbrace] ++ sp2 ++ cr) ++ c_lf :: rest') = Some body).
  { apply versionRegExp_exec_shape.
    exists ws, sp1, inner, sp2, eol, rest'. repeat split; try done.
    rewrite Hcr. by rewrite <- !app_assoc. }
  split; [exact Hexec' |]. intros st. rewrite !checkVersion_run.
  change (toString (heap st) (VStr ?x)) with x. by rewrite Hexec', Hexec.
Qed.

(** X24.  A text without a line feed has no header: [checkVersion] returns
    [undefined] and changes nothing, whatever the text holds. *)
Theorem checkVersion_needs_line_feed s st :
  c_lf ∉ s -> checkVersion (VStr s) st = (Normal VUndef, st).
Proof.
  intros Hlf. rewrite checkVersion_run.
  change (toString (heap st) (VStr s)) with s.
  destruct (versionRegExp_exec s) as [body |] eqn:Hexec; [| reflexivity].
  apply versionRegExp_exec_shape in Hexec
    as (ws & sp1 & inner & sp2 & eol & rest & -> & _ & _ & _ & _ & Heol & _).
  destruct Hlf. rewrite !elem_of_app.
  do 7 right. left. apply list_elem_of_In.
  destruct Heol as [-> | ->]; cbn; auto.
Qed.

End Properties.

(** * Runs on the example states *)

#[local] Existing Instance Examples.host.
Import Examples.

(** [init] stores the backends, calls [init] on each and returns the
    method table: [createInstance], the three fan-out names, the four
    routed names and the legacy alias. *)
Example init_run :
  let run := init (VRef 1%nat) backends st_init in
  frameworks run.2 = frameworks st0
  ∧ trace run.2 = [EBackend (str "Weex") (str "init") [VRef 1%nat];
                   EBackend (str "Rax") (str "init") [VRef 1%nat]]
  ∧ match run.1 with
    | Normal table =>
        List.map fst table
        = [str "createInstance"; str "registerComponents"; str "registerModules";
           str "registerMethods"; str "destroyInstance"; str "refreshInstance";
           str "receiveTasks"; str "getRoot"; str "callJS"]
    | Throw _ => False
    end.
Proof. repeat apply conj; vm_compute; reflexivity. Qed.

Lemma createInstance_existing_id_witness :
  createInstance id1 (VStr rax_header) VUndef VUndef st1
  = (Normal (invalid_id (heap st1) id1), st1).
Proof.
  apply (createInstance_existing_id id1 (VStr rax_header) VUndef VUndef st1 0%nat).
  vm_compute. reflexivity.
Defined.

Lemma unknown_id_rejected_witness :
  genInstance (str "getRoot") [VStr (str "7")] st2
  = (Normal (invalid_id (heap st2) (VStr (str "7"))), st2).
Proof.
  apply (unknown_id_rejected (str "getRoot") (genInstance (str "getRoot"))
           [VStr (str "7")] st2).
  - left. split; [| reflexivity].
    apply (list_elem_of_lookup_2 _ 3%nat). reflexivity.
  - vm_compute. reflexivity.
  - left. vm_compute. reflexivity.
Defined.

Lemma unbound_backend_rejected_witness :
  adaptInstance (str "receiveTasks") [id2] st_orphan
  = (Normal (invalid_id (heap st_orphan) id2), st_orphan).
Proof.
  apply (unbound_backend_rejected (str "callJS") (adaptInstance (str "receiveTasks"))
           [id2] st_orphan 0%nat).
  - right. split; reflexivity.
  - vm_compute. reflexivity.
  - vm_compute. reflexivity.
  - vm_compute. reflexivity.
Defined.

(** A backend is registered under the name [undefined], and the id
    [constructor] has no record: [instanceMap[id]] is the function
    [Object], which has no [framework], and the routed call reaches the
    [getRoot] of that backend instead of returning the error value. *)
Lemma unknown_id_reaches_backend :
  let run := genInstance (str "getRoot") [id_constructor] st_undefined in
  instanceMap st_undefined !! str "constructor" = None
  ∧ run.1 = Normal VUndef
  ∧ invalid_id (heap st_undefined) id_constructor ≠ VUndef
  ∧ trace run.2
    = trace st_undefined ++ [EBackend (str "undefined") (str "getRoot") [id_constructor]].
Proof. repeat apply conj; vm_compute; (reflexivity || discriminate). Qed.

(** The record of instance 1 names [toString], which is not registered:
    [frameworks[info.framework]] is the function of [Object.prototype],
    the test of the lines 110 and 148 passes, and the call of the method
    that this function does not have throws a [TypeError]. *)
Lemma inherited_backend_name_throws :
  instanceMap st_toString !! str "1" = Some (VRef 0%nat)
  ∧ prop (heap st_toString) (VRef 0%nat) (str "framework") = VStr (str "toString")
  ∧ assoc (str "toString") (frameworks st_toString) = None
  ∧ (genInstance (str "getRoot") [id1] st_toString).1 = Throw typeError
  ∧ (adaptInstance (str "receiveTasks") [id1] st_toString).1 = Throw typeError.
Proof. repeat apply conj; vm_compute; reflexivity. Qed.

Lemma lifecycle_hooks_after_backend_witness :
  ∃ es,
    trace (genInstance (str "refreshInstance") [id1] st2).2
    = trace st2 ++ EBackend (str "Rax") (str "refreshInstance") [id1] :: es
    ∧ length es = 2%nat.
Proof.
  destruct (lifecycle_hooks_after_backend (str "refreshInstance") refresh OnRefresh
              [id1] st2 0%nat (str "Rax") rax (returns VUndef) VUndef
              (genInstance (str "refreshInstance") [id1] st2).2)
    as [_ (es & Ht & Hall)].
  - left. repeat split.
  - vm_compute. reflexivity.
  - vm_compute. reflexivity.
  - vm_compute. reflexivity.
  - apply run_outcome. vm_compute. reflexivity.
  - exists es. split; [exact Ht |].
    apply Forall2_length in Hall. rewrite Hall. reflexivity.
Defined.

Lemma destroyInstance_frees_slot_witness :
  let st' := (genInstance (str "destroyInstance") [id1] st2).2 in
  instanceMap st' !! str "1" = None
  ∧ genInstance (str "getRoot") [id1] st' = (Normal (invalid_id (heap st') id1), st').
Proof.
  intros st'.
  destruct (destroyInstance_frees_slot [id1] st2 0%nat (str "Rax") rax VUndef st')
    as (_ & Hnone & Hlater).
  - vm_compute. reflexivity.
  - vm_compute. reflexivity.
  - apply run_outcome. vm_compute. reflexivity.
  - split; [exact Hnone |].
    apply (Hlater (or_introl eq_refl) (str "getRoot")); [| reflexivity].
    left. split; [| reflexivity].
    apply (list_elem_of_lookup_2 _ 3%nat). reflexivity.
Defined.

(** After the record under the name [constructor] is removed,
    [instanceMap[id]] is the function [Object]: with a backend registered
    under the name [undefined], a later routed call reaches that
    backend. *)
Example freed_inherited_id_reaches_backend :
  let st' := (genInstance (str "destroyInstance") [id_constructor] st_taken).2 in
  let run := genInstance (str "getRoot") [id_constructor] st' in
  instanceMap st' !! str "constructor" = None
  ∧ run.1 = Normal VUndef
  ∧ trace run.2
    = trace st' ++ [EBackend (str "undefined") (str "getRoot") [id_constructor]].
Proof. repeat apply conj; vm_compute; reflexivity. Qed.

(** Instance 2 is bound to Weex, which has no [destroyInstance]: the call
    throws a [TypeError], no destroy hook runs and the record stays. *)
Lemma destroyInstance_absent_method_keeps_record :
  let run := genInstance (str "destroyInstance") [id2] st2 in
  instanceMap st2 !! str "2" = Some (VRef 8%nat)
  ∧ backend_of st2 (VRef 8%nat) = Some (str "Weex", weex)
  ∧ assoc (str "destroyInstance") weex = None
  ∧ run.1 = Throw typeError
  ∧ trace run.2 = trace st2
  ∧ instanceMap run.2 !! str "2" = Some (VRef 8%nat)
  ∧ hook_indices destroy 0 (services st2) = [0; 2]%nat.
Proof. repeat apply conj; vm_compute; reflexivity. Qed.

(** The [refreshInstance] of Weex throws: the exception leaves the routed
    call, and the refresh hooks of services 0 and 2 are not called. *)
Lemma refreshInstance_backend_throws_skips_hooks :
  instanceMap st2 !! str "2" = Some (VRef 8%nat)
  ∧ backend_of st2 (VRef 8%nat) = Some (str "Weex", weex)
  ∧ (genInstance (str "refreshInstance") [id2] st2).1
    = Throw (VError Error (str "refresh failed"))
  ∧ trace (genInstance (str "refreshInstance") [id2] st2).2
    = trace st2 ++ [EBackend (str "Weex") (str "refreshInstance") [id2]]
  ∧ hook_indices refresh 0 (services st2) = [0; 2]%nat.
Proof. repeat apply conj; vm_compute; reflexivity. Qed.

Lemma returns_never_throws v : never_throws (returns v).
Proof. intros a h w. by exists v, [], (S w). Qed.

Lemma registerComponents_fanout_witness :
  ∃ st',
    genInit (str "registerComponents") [VRef 5%nat] st_components = (Normal VUndef, st')
    ∧ trace st'
      = [ERegisterElement [VStr (str "Foo"); VRef 0%nat];
         EBackend (str "Weex") (str "registerComponents") [VRef 5%nat]].
Proof.
  destruct (registerComponents_fanout [VRef 5%nat] st_components)
    as (st' & new & Hrun & Hext).
  - vm_compute. reflexivity.
  - apply returns_never_throws.
  - intros nf f [<- | [<- | []]] Hf; vm_compute in Hf; [| discriminate].
    injection Hf as <-. apply returns_never_throws.
  - exists st'. split; [exact Hrun |].
    destruct Hext as (_ & -> & _). vm_compute. reflexivity.
Defined.

Lemma checkVersion_detects_witness :
  checkVersion (VStr (rax_header ++ str "rest")) st0
  = (Normal (VRef 0%nat),
     set_heap [CObj [(str "framework", VStr (str "Rax"));
                     (str "version", VStr (str "1.0"))]] st0)
  ∧ checkVersion (VStr (dq "// {'framework':'Rax',}" ++ [c_lf])) st0
    = (Normal VUndef, st0).
Proof.
  destruct (checkVersion_detects (VStr (rax_header ++ str "rest")) st0) as [Hyes _].
  destruct (checkVersion_detects (VStr (dq "// {'framework':'Rax',}" ++ [c_lf])) st0)
    as [_ Hno].
  split.
  - destruct (Hyes (dq "{'framework':'Rax','version':'1.0'}")
                (JObj [(str "framework", JStr (str "Rax"));
                       (str "version", JStr (str "1.0"))])) as [Hrun _].
    + apply versionRegExp_exec_shape. vm_compute. reflexivity.
    + vm_compute. reflexivity.
    + exact Hrun.
  - apply Hno. intros body j Hshape%versionRegExp_exec_shape.
    vm_compute in Hshape. injection Hshape as <-. vm_compute. discriminate.
Defined.

(** The detector of the code against the detector of the specification.
    A comment on the second line is found, although the first line is
    empty; a comment that is the whole text is not found, although the
    first line is a comment with a JSON object; a brace group that spans
    two lines is found. *)
Lemma checkVersion_not_first_line_only :
  (spec_detect (c_lf :: dq "// {'framework':'Rax'}" ++ [c_lf]) = None
   ∧ (checkVersion (VStr (c_lf :: dq "// {'framework':'Rax'}" ++ [c_lf])) st0).1
     = Normal (VRef 0%nat))
  ∧ (spec_detect (dq "// {'framework':'Rax'}")
     = Some (JObj [(str "framework", JStr (str "Rax"))])
     ∧ (checkVersion (VStr (dq "// {'framework':'Rax'}")) st0).1 = Normal VUndef)
  ∧ (spec_detect (dq "// {'framework':" ++ c_lf :: dq "'Rax'}" ++ [c_lf]) = None
     ∧ (checkVersion (VStr (dq "// {'framework':" ++ c_lf :: dq "'Rax'}" ++ [c_lf])) st0).1
       = Normal (VRef 0%nat)).
Proof. repeat apply conj; vm_compute; reflexivity. Qed.

Lemma createInstance_header_binding_witness :
  ∃ info es,
    instanceMap st1 = <[str "1" := info]> ∅
    ∧ prop (heap st1) info (str "framework") = VStr (str "Rax")
    ∧ trace st1 = [] ++ es
    ∧ (∀ e cfg, In e es ->
         snapshot_event id1 (VStr (rax_header ++ str "rest")) cfg VUndef e ->
         prop (heap st1) cfg (str "bundleVersion") = VStr (str "1.0"))
    ∧ (∀ r, Normal (VStr (str "rax instance")) = Normal r ->
         ∃ b so cfg es',
           assoc (str "Rax") (frameworks st0) = Some b
           ∧ es = es' ++ [EBackend (str "Rax") (str "createInstance")
                            [id1; VStr (rax_header ++ str "rest"); cfg; VUndef; so]]).
Proof.
  apply (createInstance_header_binding id1 (VStr (rax_header ++ str "rest")) VUndef VUndef
           st0 (Normal (VStr (str "rax instance"))) st1 (str "Rax") (VStr (str "1.0"))).
  - vm_compute. reflexivity.
  - vm_compute. reflexivity.
  - reflexivity.
  - left. split; [by exists (str "rest") |]. split; [reflexivity |].
    left. split; [| reflexivity]. exists rax. vm_compute. reflexivity.
  - unfold st1. apply run_outcome. vm_compute. reflexivity.
Defined.

(** The id [constructor] has no record and Rax is registered:
    [instanceMap[id]] is the function [Object], and the creation from the
    Rax bundle returns the invalid-id error value, makes no record and
    calls nothing. *)
Lemma createInstance_inherited_id_refused :
  let code := VStr (rax_header ++ str "rest") in
  let run := createInstance id_constructor code VUndef VUndef st0 in
  instanceMap st0 !! str "constructor" = None
  ∧ assoc (str "Rax") (frameworks st0) = Some rax
  ∧ run.1 = Normal (invalid_id (heap st0) id_constructor)
  ∧ instanceMap run.2 = instanceMap st0
  ∧ trace run.2 = trace st0.
Proof. repeat apply conj; vm_compute; reflexivity. Qed.

(** The header declares the framework [toString], which is not
    registered: [frameworks[info.framework]] is the function of
    [Object.prototype], the record keeps [toString] instead of Weex, and
    after the create hooks the call of [createInstance] on that function
    throws a [TypeError]; the [createInstance] of Weex is not called. *)
Lemma inherited_framework_no_fallback :
  let run := createInstance id1 (VStr toString_header) VUndef VUndef st0 in
  descriptor toString_header
  = Some [(str "framework", JStr (str "toString")); (str "version", JStr (str "1.0"))]
  ∧ assoc (str "toString") (frameworks st0) = None
  ∧ instanceMap run.2 !! str "1" = Some (VRef 0%nat)
  ∧ prop (heap run.2) (VRef 0%nat) (str "framework") = VStr (str "toString")
  ∧ run.1 = Throw typeError
  ∧ List.map (fun e => match e with EBackend _ _ _ => true | _ => false end)
      (trace run.2)
    = [false; false; false].
Proof. repeat apply conj; vm_compute; reflexivity. Qed.

Lemma unregistered_framework_keeps_version_witness :
  let run := createInstance id1 (VStr vue_header) VUndef VUndef st0 in
  ∃ info es,
    instanceMap run.2 = <[str "1" := info]> ∅
    ∧ prop (heap run.2) info (str "framework") = VStr (str "Weex")
    ∧ trace run.2 = [] ++ es
    ∧ (∀ e cfg, In e es -> snapshot_event id1 (VStr vue_header) cfg VUndef e ->
         prop (heap run.2) cfg (str "bundleVersion") = VStr (str "2.5"))
    ∧ (∀ msg b g,
         In (EDebug msg) es ->
         Forall (fun s => ∀ h, create s = Some h -> never_throws h) (services st0) ->
         assoc (str "Weex") (frameworks st0) = Some b ->
         assoc (str "createInstance") b = Some g ->
         ∃ es' cfg so,
           es = es' ++ [EBackend (str "Weex") (str "createInstance")
                          [id1; VStr vue_header; cfg; VUndef; so]])
    ∧ (∀ r, run.1 = Normal r ->
         ∃ b so cfg es',
           assoc (str "Weex") (frameworks st0) = Some b
           ∧ es = es' ++ [EBackend (str "Weex") (str "createInstance")
                            [id1; VStr vue_header; cfg; VUndef; so]]).
Proof.
  intros run.
  apply (unregistered_framework_keeps_version id1 (VStr vue_header) VUndef VUndef
           st0 run.1 run.2
           [(str "framework", JStr (str "Vue")); (str "version", JStr (str "2.5"))]
           (str "Vue") (str "2.5")).
  - vm_compute. reflexivity.
  - vm_compute. reflexivity.
  - reflexivity.
  - vm_compute. reflexivity.
  - vm_compute. reflexivity.
  - vm_compute. reflexivity.
  - vm_compute. reflexivity.
  - vm_compute. reflexivity.
  - apply surjective_pairing.
Defined.

(** The numbers of the example host are their literals, and its objects
    outside the heap print nothing or an empty object. *)
Lemma host_roundtrip : json_roundtrip.
Proof.
  split.
  - by intros n lit [= ->].
  - intros name j. cbn. destruct (decide _); by intros [= <-].
Qed.

(** After a creation with the caller's object at location 1, the snapshot
    is at location 4: writing [debug] of the snapshot leaves the caller's
    object as it was, writing [debug] of the caller's object leaves
    the snapshot as it was, and the array [tags] of the snapshot prints
    as the array [tags] of the caller's object. *)
Lemma config_snapshot_independent_witness :
  let run := createInstance id1 (VStr (rax_bundle [])) (VRef 1%nat) VUndef st_cfg in
  (∀ fuel,
     serialize fuel [] (store (heap run.2) 4 (str "debug") (VBool false)) (VRef 1%nat)
     = serialize fuel [] (heap st_cfg) (VRef 1%nat))
  ∧ (∀ fuel,
       serialize fuel [] (store (heap run.2) 1 (str "debug") (VBool false)) (VRef 4%nat)
       = serialize fuel [] (heap run.2) (VRef 4%nat))
  ∧ JSON_stringify_tree (heap run.2) (prop (heap run.2) (VRef 4%nat) (str "tags"))
    = JSON_stringify_tree (heap st_cfg) (prop (heap st_cfg) (VRef 1%nat) (str "tags")).
Proof.
  intros run.
  destruct (config_snapshot_independent id1 (VStr (rax_bundle [])) (VRef 1%nat) VUndef
              st_cfg run.1 run.2 (trace run.2)
              (EService 0 OnCreate [id1; VRef 8%nat; VRef 4%nat]) (VRef 4%nat))
    as (_ & _ & Hsnapshot & Hcaller & Hcontent).
  - vm_compute. reflexivity.
  - vm_compute. reflexivity.
  - vm_compute. reflexivity.
  - apply surjective_pairing.
  - reflexivity.
  - vm_compute. right. by left.
  - left. by exists 0%nat, 8%nat.
  - split; [| split].
    + apply Hcaller. intros l Hl. apply store_lookup_ne.
      change (length (heap st_cfg)) with 2%nat in Hl. lia.
    + apply Hsnapshot. intros l Hl. apply store_lookup_ne.
      change (length (heap st_cfg)) with 2%nat in Hl. lia.
    + assert (Hkeys : distinct_keys (heap st_cfg) = true) by (vm_compute; reflexivity).
      apply (Hcontent host_roundtrip Hkeys 1%nat
               [(str "debug", VBool true); (str "tags", VRef 0%nat)] (str "tags")).
      * reflexivity.
      * vm_compute. reflexivity.
      * discriminate.
      * discriminate.
Defined.

(** ** Runs for the further properties *)

Lemma routed_call_delegates_witness :
  genInstance (str "getRoot") [id1] st2
  = ((returns VUndef [id1] (heap st2) (outside st2)).1.1,
     set_trace (trace st2 ++ [EBackend (str "Rax") (str "getRoot") [id1]])
       (set_outside (returns VUndef [id1] (heap st2) (outside st2)).2
          (set_heap (heap st2 ++ (returns VUndef [id1] (heap st2) (outside st2)).1.2)
             st2))).
Proof.
  apply (routed_call_delegates (str "getRoot") [id1] st2 (VRef 0%nat) (str "Rax") rax
           (returns VUndef)).
  - vm_compute. discriminate.
  - vm_compute. discriminate.
  - vm_compute. reflexivity.
  - vm_compute. reflexivity.
Defined.

Lemma legacy_alias_agrees_witness :
  adaptInstance (str "receiveTasks") [id1] st2
  = genInstance (str "receiveTasks") [id1] st2.
Proof.
  apply (legacy_alias_agrees (str "receiveTasks") [id1] st2).
  - vm_compute. discriminate.
  - vm_compute. discriminate.
Defined.

(** Instance 2 is bound to Weex, which has no [receiveTasks]. *)
Lemma missing_method_throws_witness :
  genInstance (str "receiveTasks") [id2] st2 = (Throw typeError, st2)
  ∧ adaptInstance (str "receiveTasks") [id2] st2 = (Throw typeError, st2).
Proof.
  apply (missing_method_throws (str "receiveTasks") [id2] st2 (VRef 8%nat)
           (str "Weex") weex).
  - vm_compute. reflexivity.
  - vm_compute. reflexivity.
Defined.

(** The destroy hook of the second service throws: the hooks of the first
    two services have been called, the hook of the third has not, and the
    record stays. *)
Lemma lifecycle_call_throws_witness :
  let run := genInstance (str "destroyInstance") [id1] st_faulty in
  instanceMap run.2 = instanceMap st_faulty
  ∧ ∃ es idxs,
      trace run.2
      = trace st_faulty ++ EBackend (str "Rax") (str "destroyInstance") [id1] :: es
      ∧ idxs `prefix_of` [0; 1; 2]%nat
      ∧ length es = 2%nat.
Proof.
  intros run.
  destruct (lifecycle_call_throws (str "destroyInstance") destroy OnDestroy [id1]
              st_faulty (VRef 0%nat) (str "Rax") rax (returns VUndef)
              (VError Error (str "hook failed")) run.2)
    as (Hmap & es & idxs & Ht & Hpre & Hall & _).
  - right. repeat split.
  - vm_compute. reflexivity.
  - vm_compute. reflexivity.
  - apply run_outcome. vm_compute. reflexivity.
  - split; [exact Hmap |]. exists es, idxs. split; [exact Ht |].
    split; [exact Hpre |].
    apply (f_equal (@length event)) in Ht. revert Ht.
    rewrite length_app. cbn [length].
    change (length (trace run.2)) with (length (trace st_faulty) + 3)%nat. lia.
Defined.

Lemma genInit_fanout_witness :
  ∃ st',
    genInit (str "registerModules") [VNull] st_vue = (Normal VUndef, st')
    ∧ trace st' = [EBackend (str "Vue") (str "registerModules") [VNull]].
Proof.
  destruct (genInit_fanout (str "registerModules") [VNull] st_vue)
    as (st' & new & Hrun & Hext).
  - vm_compute. discriminate.
  - intros nf f [<- | [<- | [<- | []]]] Hf; vm_compute in Hf; try discriminate.
    injection Hf as <-. apply returns_never_throws.
  - exists st'. split; [exact Hrun |].
    destruct Hext as (_ & -> & _). vm_compute. reflexivity.
Defined.

(** [registerMethods] of Vue throws: Late, which has the method, is not
    called. *)
Lemma genInit_stops_at_throw_witness :
  ∃ new pre nf f rest,
    List.filter (implements (str "registerMethods")) (frameworks st_vue)
    = pre ++ nf :: rest
    ∧ assoc (str "registerMethods") nf.2 = Some f
    ∧ (∃ h w, (f [VNull] h w).1.1 = Throw (VError Error (str "no methods")))
    ∧ extends st_vue (genInit (str "registerMethods") [VNull] st_vue).2 new
        (List.map (fun nf => EBackend nf.1 (str "registerMethods") [VNull])
           (pre ++ [nf])).
Proof.
  apply (genInit_stops_at_throw (str "registerMethods") [VNull] st_vue
           (VError Error (str "no methods"))
           (genInit (str "registerMethods") [VNull] st_vue).2).
  - vm_compute. discriminate.
  - apply run_outcome. vm_compute. reflexivity.
Defined.

Lemma registerComponents_aborts_witness :
  (∃ a h w, (registerElement st_strict a h w).1.1
            = Throw (VError Error (str "unknown element")))
  ∧ ∃ new done,
      done `prefix_of` List.filter (entry_ok (heap st_strict))
                         (elements (heap st_strict) (VRef 5%nat))
      ∧ extends st_strict
          (genInit (str "registerComponents") [VRef 5%nat] st_strict).2 new
          (List.map (register_event (heap st_strict)) done).
Proof.
  apply (registerComponents_aborts [VRef 5%nat] st_strict
           (VError Error (str "unknown element"))
           (genInit (str "registerComponents") [VRef 5%nat] st_strict).2).
  - vm_compute. reflexivity.
  - intros nf f [<- | [<- | []]] Hf; vm_compute in Hf; [| discriminate].
    injection Hf as <-. apply returns_never_throws.
  - apply run_outcome. vm_compute. reflexivity.
Defined.

Lemma init_calls_each_backend_witness :
  ∃ st',
    init (VRef 1%nat) backends st_init = (Normal methods, st')
    ∧ frameworks st' = frameworks st0
    ∧ trace st' = [EBackend (str "Weex") (str "init") [VRef 1%nat];
                   EBackend (str "Rax") (str "init") [VRef 1%nat]].
Proof.
  destruct (init_calls_each_backend (VRef 1%nat) backends st_init)
    as (st' & new & Hrun & Hfw & _ & Htr & _).
  - discriminate.
  - discriminate.
  - repeat constructor; eexists; (split; [vm_compute; reflexivity |]);
      apply returns_never_throws.
  - exists st'. split; [exact Hrun |]. split; [exact Hfw |]. rewrite Htr.
    reflexivity.
Defined.


(** The creation that left [st_orphan] threw, and the id is taken. *)
Lemma createInstance_occupies_id_witness :
  (∃ l, instanceMap st_orphan !! str "2" = Some (VRef l))
  ∧ createInstance id2 (VStr rax_header) VUndef VUndef st_orphan
    = (Normal (invalid_id (heap st_orphan) id2), st_orphan).
Proof.
  destruct (createInstance_occupies_id id2 (VStr (str "var a = 1")) VUndef VUndef
              (boot [(str "Rax", rax)] [logger]) (Throw typeError) st_orphan)
    as (Hrec & _ & Hagain).
  - vm_compute. reflexivity.
  - vm_compute. reflexivity.
  - reflexivity.
  - unfold st_orphan. apply run_outcome. vm_compute. reflexivity.
  - split; [exact Hrec | apply Hagain].
Defined.

Lemma inherited_id_refused_witness :
  createInstance id_constructor (VStr rax_header) VUndef VUndef st0
  = (Normal (invalid_id (heap st0) id_constructor), st0).
Proof.
  apply (inherited_id_refused id_constructor (VStr rax_header) VUndef VUndef st0).
  - vm_compute. reflexivity.
  - vm_compute. reflexivity.
Defined.

Lemma createInstance_keeps_objects_witness :
  let run := createInstance id1 (VStr (rax_bundle [])) (VRef 1%nat) VUndef st_cfg in
  heap run.2 !! 0%nat = heap st_cfg !! 0%nat
  ∧ heap run.2 !! 1%nat = heap st_cfg !! 1%nat.
Proof.
  intros run.
  destruct (createInstance_keeps_objects id1 (VStr (rax_bundle [])) (VRef 1%nat) VUndef
              st_cfg run.1 run.2) as (_ & Hold & _).
  - vm_compute. reflexivity.
  - apply surjective_pairing.
  - change (length (heap st_cfg)) with 2%nat in Hold. split; apply Hold; lia.
Defined.

Lemma createInstance_record_fields_witness :
  prop (heap st1) (VRef 0%nat) (str "created") = VNum (Date_now 0%nat)
  ∧ prop (heap st1) (VRef 0%nat) (str "version") = VStr (str "1.0").
Proof.
  destruct (createInstance_record_fields id1 (VStr (rax_header ++ str "rest"))
              VUndef VUndef st0
              (createInstance id1 (VStr (rax_header ++ str "rest")) VUndef VUndef st0).1
              st1 (VRef 0%nat)
              [CObj [(str "framework", VStr (str "Rax"));
                     (str "version", VStr (str "1.0"))]])
    as [Hcreated Hother].
  - vm_compute. reflexivity.
  - vm_compute. reflexivity.
  - vm_compute. reflexivity.
  - apply surjective_pairing.
  - split; [exact Hcreated |].
    rewrite (Hother (str "version")); [reflexivity | |]; vm_compute; discriminate.
Defined.

(** Rax alone is registered, and the bundle has no header. *)
Lemma createInstance_without_backend_witness :
  (∃ e, (createInstance id2 (VStr (str "var a = 1")) VUndef VUndef
           (boot [(str "Rax", rax)] [logger])).1 = Throw e)
  ∧ genInstance (str "destroyInstance") [id2] st_orphan
    = (Normal (invalid_id (heap st_orphan) id2), st_orphan).
Proof.
  destruct (createInstance_without_backend id2 (VStr (str "var a = 1")) VUndef VUndef
              (boot [(str "Rax", rax)] [logger])
              (createInstance id2 (VStr (str "var a = 1")) VUndef VUndef
                 (boot [(str "Rax", rax)] [logger])).1
              st_orphan (VRef 0%nat) [CObj []])
    as (Hthrow & _ & Hstuck).
  - vm_compute. reflexivity.
  - vm_compute. reflexivity.
  - reflexivity.
  - vm_compute. reflexivity.
  - vm_compute. reflexivity.
  - vm_compute. reflexivity.
  - vm_compute. reflexivity.
  - apply surjective_pairing.
  - split; [exact Hthrow |].
    apply (Hstuck (str "destroyInstance")); [| reflexivity].
    left. split; [| reflexivity].
    apply (list_elem_of_lookup_2 _ 0%nat). reflexivity.
Defined.

Lemma create_then_destroy_witness :
  instanceMap (genInstance (str "destroyInstance") [id1] st1).2 = instanceMap st0
  ∨ (live st1 id1 = None
     ∧ VUndef = invalid_id (heap st1) id1
     ∧ (genInstance (str "destroyInstance") [id1] st1).2 = st1).
Proof.
  apply (create_then_destroy id1 (VStr (rax_header ++ str "rest")) VUndef VUndef st0
           (createInstance id1 (VStr (rax_header ++ str "rest")) VUndef VUndef st0).1
           st1 [] VUndef (genInstance (str "destroyInstance") [id1] st1).2).
  - vm_compute. reflexivity.
  - reflexivity.
  - apply surjective_pairing.
  - apply run_outcome. vm_compute. reflexivity.
Defined.


(** The snapshot at location 4 has the [debug] of the caller's object. *)
Lemma snapshot_copies_scalars_witness :
  let run := createInstance id1 (VStr (rax_bundle [])) (VRef 1%nat) VUndef st_cfg in
  prop (heap run.2) (VRef 4%nat) (str "debug") = VBool true.
Proof.
  intros run.
  apply (snapshot_copies_scalars id1 (VStr (rax_bundle [])) 1%nat VUndef
           st_cfg run.1 run.2 (trace run.2)
           (EService 0 OnCreate [id1; VRef 8%nat; VRef 4%nat]) (VRef 4%nat)
           [(str "debug", VBool true); (str "tags", VRef 0%nat)]
           (str "debug") (VBool true)).
  - vm_compute. reflexivity.
  - vm_compute. reflexivity.
  - apply (bool_decide_unpack _). vm_compute. reflexivity.
  - vm_compute. reflexivity.
  - by eexists.
  - vm_compute. discriminate.
  - vm_compute. discriminate.
  - apply surjective_pairing.
  - reflexivity.
  - vm_compute. right. by left.
  - left. by exists 0%nat, 8%nat.
Defined.

(** The snapshot at location 3 has an [env] with the [platform] of the
    environment. *)
Lemma snapshot_env_copies_scalars_witness :
  let run := createInstance id1 (VStr rax_header) VUndef VUndef st_env in
  prop (heap run.2) (prop (heap run.2) (VRef 3%nat) (str "env")) (str "platform")
  = VStr (str "Web").
Proof.
  intros run.
  apply (snapshot_env_copies_scalars id1 (VStr rax_header) VUndef VUndef
           st_env run.1 run.2 (trace run.2)
           (EService 0 OnCreate [id1; VRef 6%nat; VRef 3%nat]) (VRef 3%nat) 0%nat
           [(str "platform", VStr (str "Web"))]
           (str "platform") (VStr (str "Web"))).
  - vm_compute. reflexivity.
  - reflexivity.
  - reflexivity.
  - apply (bool_decide_unpack _). vm_compute. reflexivity.
  - vm_compute. reflexivity.
  - by eexists.
  - apply surjective_pairing.
  - reflexivity.
  - vm_compute. right. by left.
  - left. by exists 0%nat, 6%nat.
Defined.

(** The creation that left [st1] had no configuration: the snapshot is at
    location 2. *)
Lemma snapshot_of_missing_config_witness :
  ∃ lc env,
    VRef 2%nat = VRef lc
    ∧ (length (heap st0) <= lc)%nat
    ∧ heap st1 !! lc
      = Some (CObj [(str "bundleVersion", VStr (str "1.0")); (str "env", env)]).
Proof.
  apply (snapshot_of_missing_config id1 (VStr (rax_header ++ str "rest")) VUndef VUndef
           st0 (createInstance id1 (VStr (rax_header ++ str "rest")) VUndef VUndef st0).1
           st1 (trace st1)
           (EService 0 OnCreate [id1; VRef 6%nat; VRef 2%nat]) (VRef 2%nat)
           (VRef 0%nat)
           [CObj [(str "framework", VStr (str "Rax"));
                  (str "version", VStr (str "1.0"))]]).
  - vm_compute. reflexivity.
  - reflexivity.
  - vm_compute. reflexivity.
  - apply surjective_pairing.
  - reflexivity.
  - vm_compute. right. by left.
  - left. by exists 0%nat, 6%nat.
Defined.

Lemma createInstance_unserializable_config_witness :
  let run := createInstance id1 (VStr rax_header) (VRef 0%nat) VUndef st_cyclic in
  run.1 = Throw typeError ∧ trace run.2 = trace st_cyclic.
Proof.
  intros run.
  apply (createInstance_unserializable_config id1 (VStr rax_header) (VRef 0%nat) VUndef
           st_cyclic run.1 run.2).
  - vm_compute. reflexivity.
  - vm_compute. reflexivity.
  - vm_compute. reflexivity.
  - vm_compute. reflexivity.
  - vm_compute. reflexivity.
  - apply surjective_pairing.
Defined.

Lemma createInstance_plain_config_witness :
  let run := createInstance id1 (VStr rax_header) (VBool true) VUndef st0 in
  run.1 = Throw typeError ∧ trace run.2 = trace st0.
Proof.
  intros run.
  apply (createInstance_plain_config id1 (VStr rax_header) (VBool true) VUndef
           st0 run.1 run.2).
  - vm_compute. reflexivity.
  - vm_compute. reflexivity.
  - reflexivity.
  - reflexivity.
  - apply surjective_pairing.
Defined.

Lemma checkVersion_reads_header_only_witness :
  ∃ hd rest,
    rax_header ++ str "rest" = hd ++ c_lf :: rest
    ∧ ∀ rest',
        versionRegExp_exec (hd ++ c_lf :: rest')
        = Some (dq "{'framework':'Rax','version':'1.0'}")
        ∧ ∀ st, checkVersion (VStr (hd ++ c_lf :: rest')) st
                = checkVersion (VStr (rax_header ++ str "rest")) st.
Proof.
  apply (checkVersion_reads_header_only (rax_header ++ str "rest")
           (dq "{'framework':'Rax','version':'1.0'}")).
  vm_compute. reflexivity.
Defined.

(** A header that is the whole text, without a line feed. *)
Lemma checkVersion_needs_line_feed_witness :
  checkVersion (VStr (dq "// {'framework':'Rax'}")) st0 = (Normal VUndef, st0).
Proof.
  apply (checkVersion_needs_line_feed (dq "// {'framework':'Rax'}") st0).
  apply (bool_decide_unpack _). vm_compute. reflexivity.
Defined.
